(** * dispatch: the [.http] document parser and the request executor

    A shallow embedding of [frontend/src/lib/parser.ts] (module [Parser])
    and of [App.Execute] from [app.go] (module [Executor]), followed by
    the predicates of their specification ([ParserSpec], [ExecutorSpec])
    and by the proofs ([StrFacts], [ParserFacts], [ExecutorFacts]).

    Strings are [string]s whose characters are read as code units
    0..255.  Line numbers are [Z], as the parser uses [-1] as its "no
    method line yet" marker.  A read [lines[i]] outside the array gives
    [undefined] in the source, and the following [.trim()] throws: the
    embedding returns [None] there, and the parser is proved never to
    reach that case.  The [headers] object of a block is used as a map
    from names to values and is a [gmap] here, the map of its own
    string-keyed properties; an assignment to the name [__proto__]
    reaches the setter of [Object.prototype] and adds no property.

    [net/http], [io] and [time] are not part of the repository: the
    executor takes them as a parameter ([Executor.Net]) and runs in a
    state that holds the clock and the requests handed to the client;
    time passes in the call of the client and in the read of the
    response body. *)

(** The rest of the development covers the editor of [App.svelte] and
    the update check of [app.go]: [Editor] (the gutter and the line of
    the cursor), [Highlight] and [Markup] (the escaping and the markup
    of one line), [Classify] and [Syntax] (the line classifier and the
    highlighter), [Keys] (the tab key), [Update] ([isNewer] and
    [CheckForUpdate]) and [Run] (from a block of the document to the
    request).  Their facts come after [ExecutorFacts]. *)

From stdpp Require Import gmap strings list fin_maps sorting.
From Stdlib Require Import ZArith Ascii String Lia.

Local Open Scope Z_scope.

(** ** String primitives of the source language *)

Module Str.

(** White space removed by [trim]/[trimEnd]: TAB, LF, VT, FF, CR, space
    and the no-break space. *)
Definition is_space (c : ascii) : bool :=
  let n := N_of_ascii c in
  (((9 <=? n) && (n <=? 13)) || (n =? 32) || (n =? 160))%N.

(** The regular-expression class [\w]: letters, digits and underscore. *)
Definition is_word (c : ascii) : bool :=
  let n := N_of_ascii c in
  (((48 <=? n) && (n <=? 57)) || ((65 <=? n) && (n <=? 90))
   || (n =? 95) || ((97 <=? n) && (n <=? 122)))%N.

Fixpoint trimStart (s : string) : string :=
  match s with
  | EmptyString => EmptyString
  | String c r => if is_space c then trimStart r else s
  end.

Definition is_empty (s : string) : bool :=
  match s with EmptyString => true | String _ _ => false end.

Fixpoint trimEnd (s : string) : string :=
  match s with
  | EmptyString => EmptyString
  | String c r =>
      let r' := trimEnd r in
      if is_space c && is_empty r' then EmptyString else String c r'
  end.

Definition trim (s : string) : string := trimEnd (trimStart s).

(** [s.startsWith(p)] *)
Definition startsWith (p s : string) : bool := String.prefix p s.

(** [s.substring(n)] for [0 <= n] *)
Fixpoint substring_from (n : nat) (s : string) : string :=
  match n, s with
  | O, _ => s
  | S n', String _ r => substring_from n' r
  | S _, EmptyString => EmptyString
  end.

(** [s.substring(0, n)] for [0 <= n] *)
Fixpoint substring_to (n : nat) (s : string) : string :=
  match n, s with
  | S n', String c r => String c (substring_to n' r)
  | _, _ => EmptyString
  end.

(** [s.indexOf(c)]: position of the first [c], [-1] when there is none *)
Fixpoint indexOf (c : ascii) (s : string) : Z :=
  match s with
  | EmptyString => -1
  | String d r =>
      if Ascii.eqb d c then 0
      else let k := indexOf c r in if k <? 0 then -1 else k + 1
  end.

Definition LF : ascii := "010"%char.

(** [s.split('\n')] *)
Fixpoint split_lines (s : string) : list string :=
  match s with
  | EmptyString => [EmptyString]
  | String c r =>
      if Ascii.eqb c LF then EmptyString :: split_lines r
      else match split_lines r with
           | l :: ls => String c l :: ls
           | [] => [String c EmptyString]
           end
  end.

(** [a.join('\n')] *)
Fixpoint join_lines (l : list string) : string :=
  match l with
  | [] => EmptyString
  | [x] => x
  | x :: r => x +:+ String LF (join_lines r)
  end.

(** [a.slice(i, j)] for [0 <= i] and [0 <= j] *)
Definition slice {A} (i j : Z) (l : list A) : list A :=
  take (Z.to_nat j - Z.to_nat i)%nat (drop (Z.to_nat i) l).

(** [a[i]]: [None] stands for [undefined] *)
Definition line_at (lines : list string) (i : Z) : option string :=
  if i <? 0 then None else lines !! Z.to_nat i.

(** ** The two regular expressions of [looksLikeMethodLine] *)

(** [\w+\.\w] anchored at the start: [\w+] takes the whole run of word
    characters (the character after it has to be the dot, which is not
    a word character, so a shorter run never matches). *)
Fixpoint after_word_run (s : string) : string :=
  match s with
  | String c r => if is_word c then after_word_run r else s
  | EmptyString => s
  end.

Definition word_dot_word (s : string) : bool :=
  match s with
  | String c r =>
      is_word c &&
      match after_word_run r with
      | String "."%char (String d _) => is_word d
      | _ => false
      end
  | EmptyString => false
  end.

(** [/^https?:\/\//] *)
Definition re_http_prefix (s : string) : bool :=
  match s with
  | String "h" (String "t" (String "t" (String "p" r))) =>
      match r with
      | String "s" r' => startsWith "://" r' || startsWith "://" r
      | _ => startsWith "://" r
      end
  | _ => false
  end.

(** [/^(https?:\/\/|\/|{{|\w+\.\w)/] *)
Definition re_url_shape (s : string) : bool :=
  re_http_prefix s || startsWith "/" s || startsWith "{{" s || word_dot_word s.

(** A string of white space only. *)
Fixpoint all_space (s : string) : bool :=
  match s with
  | EmptyString => true
  | String c r => is_space c && all_space r
  end.

(** The last character of a string. *)
Fixpoint last_char (s : string) : option ascii :=
  match s with
  | EmptyString => None
  | String c EmptyString => Some c
  | String _ r => last_char r
  end.

End Str.

(** ** The parser, [frontend/src/lib/parser.ts] *)

Module Parser.
Import Str.

Record RequestBlock := mkBlock {
  method : string;
  url : string;
  headers : gmap string string;
  body : string;
  startLine : Z;
  endLine : Z;
  methodLine : Z
}.

Definition HTTP_METHODS : list string :=
  ["GET"; "POST"; "PUT"; "PATCH"; "DELETE"; "HEAD"; "OPTIONS"].

(** The [for (const m of HTTP_METHODS)] loop of [looksLikeMethodLine],
    followed by the bare-URL test. *)
Fixpoint looksLikeMethodLine_from (ms : list string) (line : string) : bool :=
  match ms with
  | m :: ms' =>
      if startsWith (m +:+ " ") line
         && re_url_shape (trim (substring_from (String.length m + 1) line))
      then true
      else looksLikeMethodLine_from ms' line
  | [] => re_http_prefix line
  end.

Definition looksLikeMethodLine (line : string) : bool :=
  looksLikeMethodLine_from HTTP_METHODS line.

Fixpoint parseMethodUrl_from (ms : list string) (line : string)
  : string * string :=
  match ms with
  | m :: ms' =>
      if startsWith (m +:+ " ") line
      then (m, trim (substring_from (String.length m + 1) line))
      else parseMethodUrl_from ms' line
  | [] =>
      if startsWith "http://" line || startsWith "https://" line
      then ("GET", line)
      else ("", "")
  end.

Definition parseMethodUrl (line : string) : string * string :=
  parseMethodUrl_from HTTP_METHODS line.

Definition is_blank (line : string) : bool := is_empty (trim line).

(** One header line: [headers[key.trim()] = value.trim()] when the
    first colon is at an index > 0.  [headers] is an object literal:
    the assignment makes or replaces an own property, but for the key
    [__proto__], which [Object.prototype] has as an accessor: its
    setter takes the assignment and ignores a string, so that nothing
    is stored.  (The other names of [Object.prototype] are data
    properties, which an assignment shadows.) *)
Definition add_header (line : string) (hs : gmap string string)
  : gmap string string :=
  let colonIdx := indexOf ":"%char line in
  if 0 <? colonIdx
  then
    let key := trim (substring_to (Z.to_nat colonIdx) line) in
    if String.eqb key "__proto__" then hs
    else <[ key := trim (substring_from (Z.to_nat (colonIdx + 1)) line) ]> hs
  else hs.

(** The header loop of [buildBlock]: [n] iterations are left and [i] is
    the loop variable; the result is the headers and [bodyStart]. *)
Fixpoint scan_headers (lines : list string) (n : nat) (i : Z)
    (hs : gmap string string) : option (gmap string string * Z) :=
  match n with
  | O => Some (hs, -1)
  | S n' =>
      line ← line_at lines i;
      if is_blank line then Some (hs, i + 1)
      else scan_headers lines n' (i + 1) (add_header line hs)
  end.

(** [buildBlock]: the outer [option] is the exception of an undefined
    line, the inner one the [null] of a block without a method. *)
Definition buildBlock (lines : list string) (start end_ mLine : Z)
  : option (option RequestBlock) :=
  mline ← line_at lines mLine;
  let '(m, u) := parseMethodUrl (trim mline) in
  if is_empty m then Some None
  else
    '(hs, bodyStart) ← scan_headers lines (Z.to_nat (end_ - mLine)) (mLine + 1) ∅;
    let body :=
      if (0 <? bodyStart) && (bodyStart <=? end_)
      then trimEnd (join_lines (slice bodyStart (end_ + 1) lines))
      else EmptyString in
    Some (Some (mkBlock m u hs body start end_ mLine)).

Record PState := mkState {
  blocks : list RequestBlock;
  blockStart : Z;
  currentMethodLine : Z
}.

(** The [while] loop of [flush]; [endLine > currentMethodLine] holds
    for at most [endLine - currentMethodLine] rounds, the value [n]
    starts from. *)
Fixpoint trim_trailing (lines : list string) (n : nat) (cml endLine : Z)
  : option Z :=
  match n with
  | O => Some endLine
  | S n' =>
      if cml <? endLine then
        line ← line_at lines endLine;
        if is_blank line then trim_trailing lines n' cml (endLine - 1)
        else Some endLine
      else Some endLine
  end.

Definition flush (lines : list string) (st : PState) (endLine : Z)
  : option PState :=
  if currentMethodLine st <? 0 then Some st
  else
    e ← trim_trailing lines (Z.to_nat (endLine - currentMethodLine st))
          (currentMethodLine st) endLine;
    ob ← buildBlock lines (blockStart st) e (currentMethodLine st);
    Some (mkState (match ob with
                   | Some b => blocks st ++ [b]
                   | None => blocks st
                   end)
                  (blockStart st) (-1)).

Definition set_blockStart (st : PState) (i : Z) : PState :=
  mkState (blocks st) i (currentMethodLine st).

(** The body of the [for] loop of [parseHttpFile] at index [i]. *)
Definition step (lines : list string) (st : PState) (i : Z) : option PState :=
  line ← line_at lines i;
  let trimmed := trim line in
  if startsWith "###" trimmed then
    st' ← flush lines st (i - 1);
    Some (set_blockStart st' i)
  else if looksLikeMethodLine trimmed then
    st1 ← (if 0 <=? currentMethodLine st
           then st' ← flush lines st (i - 1); Some (set_blockStart st' i)
           else Some st);
    let st2 :=
      if (currentMethodLine st1 <? 0) && (i <? blockStart st1)
      then set_blockStart st1 i else st1 in
    Some (mkState (blocks st2) (blockStart st2) i)
  else Some st.

(** [n] iterations of the [for] loop, from index [i]. *)
Fixpoint run (lines : list string) (n : nat) (i : Z) (st : PState)
  : option PState :=
  match n with
  | O => Some st
  | S n' => st' ← step lines st i; run lines n' (i + 1) st'
  end.

Definition init : PState := mkState [] 0 (-1).

Definition parse_lines (lines : list string) : option (list RequestBlock) :=
  st ← run lines (List.length lines) 0 init;
  st' ← flush lines st (Z.of_nat (List.length lines) - 1);
  Some (blocks st').

Definition parseHttpFile (content : string) : option (list RequestBlock) :=
  parse_lines (split_lines content).

(** [findRequestAtLine] *)
Fixpoint findRequestAtLine (bs : list RequestBlock) (line : Z)
  : option RequestBlock :=
  match bs with
  | [] => None
  | b :: r =>
      if (startLine b <=? line) && (line <=? endLine b) then Some b
      else findRequestAtLine r line
  end.

End Parser.

(** ** The executor, [App.Execute] of [app.go] *)

Module Executor.
Import Str.

(** An [*http.Request]: [req_body] is [None] for a nil [io.Reader];
    [req_header] is the [http.Header], from a name to its values. *)
Record Request := mkRequest {
  req_method : string;
  req_url : string;
  req_body : option string;
  req_header : gmap string (list string)
}.

(** An [*http.Response] as [Execute] uses it.  [body_payload] is the
    payload the server sends.  [body_fail] says how the read of
    [resp.Body] goes: [None] when it reaches the end of the payload,
    [Some (n, msg)] when it fails with the error [msg] after [n]
    bytes.  [body_elapsed] is the time the read takes (nanoseconds). *)
Record HttpResponse := mkHttpResponse {
  StatusCode : Z;
  Header : gmap string (list string);
  body_payload : string;
  body_fail : option (nat * string);
  body_elapsed : Z
}.

(** One call of [client.Do]: its result, an error message or a
    response, and the time it takes (nanoseconds). *)
Record RoundTrip := mkRoundTrip {
  rt_result : string + HttpResponse;
  rt_elapsed : Z
}.

(** What [Execute] uses of [net/http]: the key canonicalisation of
    [http.Header], the check of method and URL by [http.NewRequest]
    (the message of the error of [http.NewRequest(method, url, _)], if
    any) and the client. *)
Record Net := mkNet {
  canonicalMIMEHeaderKey : string → string;
  new_request_error : string → string → option string;
  round_trip : Request → RoundTrip
}.

(** The [Response] struct; [Headers = None] is the nil map. *)
Record Response := mkResponse {
  Status : Z;
  Headers : option (gmap string string);
  Body : string;
  Duration : Z;
  Error : string
}.

(** The state [Execute] runs in: the monotonic clock (nanoseconds) and
    the requests handed to the client so far. *)
Record World := mkWorld {
  clock : Z;
  sent : list Request
}.

Definition M (A : Type) : Type := World → A * World.

#[global] Instance M_ret : MRet M := λ A a w, (a, w).
#[global] Instance M_bind : MBind M :=
  λ A B f m w, let '(a, w') := m w in f a w'.

(** [time.Now()] *)
Definition time_Now : M Z := λ w, (clock w, w).

Definition maxDuration : Z := 2 ^ 63 - 1.
Definition minDuration : Z := - 2 ^ 63.

(** [time.Since(start)]: a [Duration], an int64 of nanoseconds that
    saturates. *)
Definition time_Since (start : Z) : M Z :=
  λ w, (Z.max minDuration (Z.min maxDuration (clock w - start)), w).

(** [Duration.Milliseconds] *)
Definition Milliseconds (d : Z) : Z := Z.quot d 1000000.

(** [http.NewRequest(method, url, body)]: an empty method stands for
    [GET]; [new_request_error] is the error of the call for the method
    and the URL as they are given. *)
Definition http_NewRequest (net : Net) (method url : string)
    (body : option string) : string + Request :=
  match new_request_error net method url with
  | Some err => inl err
  | None =>
      inr (mkRequest (if is_empty method then "GET" else method) url body ∅)
  end.

(** [req.Header.Set(key, value)] *)
Definition Header_Set (net : Net) (key value : string) (req : Request)
  : Request :=
  mkRequest (req_method req) (req_url req) (req_body req)
            (<[canonicalMIMEHeaderKey net key := [value]]> (req_header req)).

(** [h.Get(key)] *)
Definition Header_Get (net : Net) (h : gmap string (list string))
    (key : string) : string :=
  match h !! canonicalMIMEHeaderKey net key with
  | Some (v :: _) => v
  | _ => EmptyString
  end.

(** [a.client.Do(req)] *)
Definition client_Do (net : Net) (req : Request) : M (string + HttpResponse) :=
  λ w, let rt := round_trip net req in
       (rt_result rt, mkWorld (clock w + rt_elapsed rt) (sent w ++ [req])).

(** [io.ReadAll(resp.Body)]: the bytes read, all of them or the ones
    before the failure, and the error. *)
Definition io_ReadAll (resp : HttpResponse) : M (string * option string) :=
  λ w, (match body_fail resp with
        | None => (body_payload resp, None)
        | Some (n, msg) => (substring_to n (body_payload resp), Some msg)
        end,
        mkWorld (clock w + body_elapsed resp) (sent w)).

(** The loop [for key := range resp.Header] of [Execute]. *)
Definition flatten (net : Net) (h : gmap string (list string))
  : gmap string string :=
  map_fold (λ key _ headers, <[key := Header_Get net h key]> headers) ∅ h.

Definition Execute (net : Net) (method url body : string) : M Response :=
  start ← time_Now;
  let requestBody := if is_empty body then None else Some body in
  match http_NewRequest net method url requestBody with
  | inl err => mret (mkResponse 0 None EmptyString 0 err)
  | inr req =>
      let req :=
        if is_empty body then req
        else Header_Set net "Content-Type" "application/json" req in
      r ← client_Do net req;
      match r with
      | inl err =>
          d ← time_Since start;
          mret (mkResponse 0 None EmptyString (Milliseconds d) err)
      | inr resp =>
          '(respBody, _) ← io_ReadAll resp;
          let headers := flatten net (Header resp) in
          d ← time_Since start;
          mret (mkResponse (StatusCode resp) (Some headers) respBody
                           (Milliseconds d) EmptyString)
      end
  end.

End Executor.

(** ** Predicates of the specification of the parser *)

Module ParserSpec.
Import Str Parser.

Definition is_sep (l : string) : bool := startsWith "###" (trim l).
Definition is_method (l : string) : bool := looksLikeMethodLine (trim l).

(** A trimmed line that starts with [#] but not with [###], or with
    [//]. *)
Definition is_comment (t : string) : bool :=
  (startsWith "#" t && negb (startsWith "###" t)) || startsWith "//" t.

(** A trimmed line that starts with none of the verbs. *)
Definition no_verb (t : string) : Prop :=
  Forall (λ m, startsWith (m +:+ " ") t = false) HTTP_METHODS.

Section Lines.
Variable lines : list string.

(** Line [j] is neither a separator nor a method line. *)
Definition inert (j : Z) : Prop :=
  ∀ l, line_at lines j = Some l → is_sep l = false ∧ is_method l = false.

Definition method_at (j : Z) : Prop :=
  ∃ l, line_at lines j = Some l ∧ is_method l = true.

Definition nonblank_at (j : Z) : Prop :=
  ∃ l, line_at lines j = Some l ∧ is_blank l = false.

(** What holds of every block the parser pushes. *)
Record block_ok (b : RequestBlock) : Prop := {
  ok_built :
    buildBlock lines (startLine b) (endLine b) (methodLine b) = Some (Some b);
  ok_start : 0 ≤ startLine b ≤ methodLine b;
  ok_end : methodLine b ≤ endLine b < Z.of_nat (List.length lines);
  ok_method : method_at (methodLine b);
  ok_inert : ∀ j, methodLine b < j ≤ endLine b → inert j;
  ok_last : nonblank_at (endLine b)
}.

(** The loop invariant of [parseHttpFile] before the iteration at [i]. *)
Record Inv (i : Z) (st : PState) : Prop := {
  inv_i : 0 ≤ i ≤ Z.of_nat (List.length lines);
  inv_cml : -1 ≤ currentMethodLine st < i;
  inv_start : 0 ≤ blockStart st ≤ i;
  inv_cur :
    0 ≤ currentMethodLine st →
    blockStart st ≤ currentMethodLine st ∧
    method_at (currentMethodLine st) ∧
    ∀ j, currentMethodLine st < j < i → inert j;
  inv_blocks :
    Forall (λ b, block_ok b ∧ endLine b < blockStart st) (blocks st);
  inv_sorted :
    StronglySorted (λ a b, endLine a < startLine b) (blocks st);
  inv_complete :
    ∀ j, 0 ≤ j < i → method_at j →
         currentMethodLine st = j ∨ ∃ b, b ∈ blocks st ∧ methodLine b = j
}.

(** What holds of the blocks [parseHttpFile] returns. *)
Record parsed (bs : list RequestBlock) : Prop := {
  parsed_ok : Forall block_ok bs;
  parsed_sorted : StronglySorted (λ a b, endLine a < startLine b) bs;
  parsed_complete : ∀ j, method_at j → ∃ b, b ∈ bs ∧ methodLine b = j
}.

(** The lines up to the first blank one. *)
Fixpoint take_nonblank (ls : list string) : list string :=
  match ls with
  | [] => []
  | l :: r => if is_blank l then [] else l :: take_nonblank r
  end.

(** The lines of a block after its method line. *)
Definition after_method (b : RequestBlock) : list string :=
  slice (methodLine b + 1) (endLine b + 1) lines.

(** The header region: after the method line, before the first blank
    line. *)
Definition header_region (b : RequestBlock) : list string :=
  take_nonblank (after_method b).

(** The body region: what follows the first blank line. *)
Definition body_region (b : RequestBlock) : list string :=
  drop (S (List.length (header_region b))) (after_method b).

End Lines.

Definition headers_of (ls : list string) : gmap string string :=
  foldl (λ hs l, add_header l hs) ∅ ls.

(** The entry a header line stands for: the name and the value around
    its first colon, each trimmed, when the colon is at an index > 0. *)
Definition header_entry (l : string) : option (string * string) :=
  let colonIdx := indexOf ":"%char l in
  if 0 <? colonIdx
  then Some (trim (substring_to (Z.to_nat colonIdx) l),
             trim (substring_from (Z.to_nat (colonIdx + 1)) l))
  else None.

(** The header line [l] names the header [k]. *)
Definition names (k : string) (l : string) : Prop :=
  ∃ v, header_entry l = Some (k, v).

(** A bare URL, as the specification has it: the text [http://] or
    [https://] and a rest. *)
Definition bare_url (t : string) : Prop :=
  ∃ rest, t = "http://" +:+ rest ∨ t = "https://" +:+ rest.

(** A text of word characters. *)
Fixpoint all_word (s : string) : bool :=
  match s with
  | EmptyString => true
  | String c r => is_word c && all_word r
  end.

(** The URL shapes of the specification: a text that starts with
    [http://], [https://], [/] or [{{], or with a word, a dot and a
    word character. *)
Definition url_shape (u : string) : Prop :=
  (∃ r, u = "http://" +:+ r) ∨ (∃ r, u = "https://" +:+ r) ∨
  (∃ r, u = "/" +:+ r) ∨ (∃ r, u = "{{" +:+ r) ∨
  (∃ w c r, u = w +:+ String "." (String c r) ∧ w ≠ EmptyString ∧
            all_word w = true ∧ is_word c = true).

(** Where a block with the method line [m] ends: a line after [e]
    that is reached from [m] through lines that are neither separators
    nor method lines is blank.  With a last line that is not blank,
    [e] is the last line with text before the next separator, the
    next method line or the end of the document. *)
Definition end_ok (lines : list string) (m e : Z) : Prop :=
  ∀ j l, e < j → line_at lines j = Some l →
         (∀ i, m < i ≤ j → inert lines i) → is_blank l = true.

(** A line has no line feed. *)
Fixpoint no_LF (s : string) : bool :=
  match s with
  | EmptyString => true
  | String c r => negb (Ascii.eqb c LF) && no_LF r
  end.

Definition in_range (b : RequestBlock) (line : Z) : Prop :=
  startLine b ≤ line ≤ endLine b.

Definition covers (b : RequestBlock) (line : Z) : bool :=
  (startLine b <=? line) && (line <=? endLine b).

(** [b] is the first block of [bs] whose range contains [line]. *)
Definition first_covering (bs : list RequestBlock) (line : Z)
    (b : RequestBlock) : Prop :=
  ∃ i, bs !! i = Some b ∧ in_range b line ∧
       ∀ j b', (j < i)%nat → bs !! j = Some b' → ¬ in_range b' line.

(** *** Sample documents *)

Definition doc_A : string :=
  join_lines ["GET http://a.b/"; "A: 1"; "A: 2"; ""; "body"].

Definition block_A : RequestBlock :=
  mkBlock "GET" "http://a.b/" {[ "A" := "2" ]} "body" 0 4 0.

Definition doc_plain : string :=
  join_lines ["GET http://a.b/"; "no colon here"; ":x"; "A: 1"; ""; "body"].

Definition block_plain : RequestBlock :=
  mkBlock "GET" "http://a.b/" {[ "A" := "1" ]} "body" 0 5 0.

Definition doc_comment : string :=
  join_lines ["GET http://a.b/"; "# note: x"; "// see: y"; "B: 2"].

(** A document with a header line named [__proto__]. *)
Definition doc_proto : string :=
  join_lines ["GET http://a.b/"; "__proto__: x"; "A: 1"].

Definition block_proto : RequestBlock :=
  mkBlock "GET" "http://a.b/" {[ "A" := "1" ]} EmptyString 0 2 0.

(** The document of the tests of [findRequestAtLine]. *)
Definition doc_two : string :=
  join_lines ["### First"; "GET https://example.com/one"; "";
              "### Second"; "POST https://example.com/two";
              "Content-Type: application/json"; ""; "{key: value}"].

End ParserSpec.

(** ** Predicates of the specification of the executor *)

Module ExecutorSpec.
Import Str Executor.

(** The assumptions on [net/http]: the clock is monotonic, error
    messages are not empty, and [Content-Type] is in canonical form. *)
Record net_ok (net : Net) : Prop := {
  ok_elapsed : ∀ req, 0 ≤ rt_elapsed (round_trip net req);
  ok_body_elapsed :
    ∀ req resp, rt_result (round_trip net req) = inr resp → 0 ≤ body_elapsed resp;
  ok_new_request_msg :
    ∀ m u err, new_request_error net m u = Some err → err ≠ EmptyString;
  ok_transport_msg :
    ∀ req err, rt_result (round_trip net req) = inl err → err ≠ EmptyString;
  ok_content_type :
    canonicalMIMEHeaderKey net "Content-Type" = "Content-Type"
}.


(** The request [Execute] hands to the client, when [http.NewRequest]
    accepts the method and the URL. *)
Definition outgoing (net : Net) (method url body : string) : Request :=
  let req := mkRequest (if is_empty method then "GET" else method) url
               (if is_empty body then None else Some body) ∅ in
  if is_empty body then req
  else Header_Set net "Content-Type" "application/json" req.

(** What [io.ReadAll] returns of the body of a response: the payload,
    or the bytes before the failure. *)
Definition body_read (resp : HttpResponse) : string :=
  match body_fail resp with
  | None => body_payload resp
  | Some (n, _) => substring_to n (body_payload resp)
  end.

(** The values of a header joined with a separator. *)
Fixpoint join_values (sep : string) (vs : list string) : string :=
  match vs with
  | [] => EmptyString
  | [v] => v
  | v :: r => v +:+ sep +:+ join_values sep r
  end.

(** The time [time.Since(start)] reports between two worlds. *)
Definition elapsed (w w' : World) : Z :=
  Z.max minDuration (Z.min maxDuration (clock w' - clock w)).

Definition demo_net : Net :=
  mkNet (λ k, k)
        (λ m u, if is_empty u then Some "empty url" else None)
        (λ req,
           if String.eqb (req_url req) "http://down.test"
           then mkRoundTrip (inl "connection refused") 5000000
           else mkRoundTrip
                  (inr (mkHttpResponse 404 {[ "Content-Length" := ["0"; "1"] ]}
                          "not here" None 2000000)) 40000000).

(** A response with two cookies and a body whose read fails after
    three bytes. *)
Definition cookie_response : HttpResponse :=
  mkHttpResponse 200 {[ "Set-Cookie" := ["a=1"; "b=2"] ]} "not here"
    (Some (3%nat, "unexpected EOF")) 1000.

Definition cookie_net : Net :=
  mkNet (λ k, k) (λ _ _, None) (λ _, mkRoundTrip (inr cookie_response) 5000).

End ExecutorSpec.

(** ** The editor, [App.svelte]: the gutter and the line of the cursor *)

Module Editor.
Import Str Parser.

(** [blocks.find((b) => b.methodLine === i)], the lookup of the gutter
    ([gutterLines], [handleGutterClick]). *)
Fixpoint find_by_methodLine (bs : list RequestBlock) (i : Z)
  : option RequestBlock :=
  match bs with
  | [] => None
  | b :: r => if methodLine b =? i then Some b else find_by_methodLine r i
  end.

(** [lineCount]: [editorContent.split("\n").length] *)
Definition lineCount (editorContent : string) : Z :=
  Z.of_nat (List.length (split_lines editorContent)).

(** [updateCursorLine], for a text area that is there: the new
    [cursorLine] for the selection start [pos]. *)
Definition updateCursorLine (editorContent : string) (pos : nat) : Z :=
  let textBefore := substring_to pos editorContent in
  Z.of_nat (List.length (split_lines textBefore)) - 1.

End Editor.

(** ** Where a block starts *)

Module ParserStartSpec.
Import Str Parser ParserSpec.

(** Where a block may start: [s] is the first line of the document, a
    separator line or the method line [m] itself, and between [s] and
    [m] there is no method line and no other separator. *)
Definition start_ok (lines : list string) (s m : Z) : Prop :=
  (s = 0 ∨ (∃ l, line_at lines s = Some l ∧ is_sep l = true) ∨ s = m) ∧
  (∀ j l, s ≤ j < m → line_at lines j = Some l → is_method l = false) ∧
  (∀ j l, s < j < m → line_at lines j = Some l → is_sep l = false).

(** The part of the loop invariant of [parseHttpFile] about
    [blockStart]; [m] stands for the method line of the open block, or
    for [i] when no block is open. *)
Definition Inv_start (lines : list string) (i : Z) (st : PState) : Prop :=
  let m := if 0 <=? currentMethodLine st then currentMethodLine st else i in
  (blockStart st = 0 ∨
   (∃ l, line_at lines (blockStart st) = Some l ∧ is_sep l = true) ∨
   (0 ≤ currentMethodLine st ∧ blockStart st = currentMethodLine st)) ∧
  (∀ j l, blockStart st ≤ j < m → line_at lines j = Some l →
          is_method l = false) ∧
  (∀ j l, blockStart st < j < m → line_at lines j = Some l →
          is_sep l = false) ∧
  Forall (λ b, start_ok lines (startLine b) (methodLine b)) (blocks st).

End ParserStartSpec.

(** ** The escaping of the highlighter, [escapeHtml] of [highlight.ts]
       and of [App.svelte] *)

Module Highlight.
Import Str.

(** [s.replace(/c/g, rep)] for a character [c] and a replacement
    without [$] patterns. *)
Fixpoint replace_all (c : ascii) (rep : string) (s : string) : string :=
  match s with
  | EmptyString => EmptyString
  | String d r =>
      if Ascii.eqb d c then rep +:+ replace_all c rep r
      else String d (replace_all c rep r)
  end.

(** The double quote. *)
Definition dquote : ascii := "034"%char.

Definition escapeHtml (str : string) : string :=
  replace_all dquote "&quot;"
    (replace_all ">" "&gt;"
       (replace_all "<" "&lt;"
          (replace_all "&" "&amp;" str))).

End Highlight.

Module HighlightSpec.
Import Str Highlight.

(** What one character becomes. *)
Definition escape_char (c : ascii) : string :=
  if Ascii.eqb c "&" then "&amp;"
  else if Ascii.eqb c "<" then "&lt;"
  else if Ascii.eqb c ">" then "&gt;"
  else if Ascii.eqb c dquote then "&quot;"
  else String c EmptyString.

(** The character [c] occurs in [s]. *)
Fixpoint occurs (c : ascii) (s : string) : bool :=
  match s with
  | EmptyString => false
  | String d r => Ascii.eqb d c || occurs c r
  end.

(** Reading the four entities back. *)
Fixpoint unescapeHtml (s : string) : string :=
  match s with
  | EmptyString => EmptyString
  | String c r =>
      if Ascii.eqb c "&" then
        match r with
        | String "a" (String "m" (String "p" (String ";" r'))) =>
            String "&" (unescapeHtml r')
        | String "l" (String "t" (String ";" r')) => String "<" (unescapeHtml r')
        | String "g" (String "t" (String ";" r')) => String ">" (unescapeHtml r')
        | String "q" (String "u" (String "o" (String "t" (String ";" r')))) =>
            String dquote (unescapeHtml r')
        | _ => String c (unescapeHtml r)
        end
      else String c (unescapeHtml r)
  end.

End HighlightSpec.

(** ** The markup of one line, [hlMethodLine] and [hlHeaderLine] of
       [App.svelte] *)

Module Markup.
Import Str Parser Highlight.

(** [s.indexOf(p)] for a text [p]: the position of the first
    occurrence, [-1] when there is none. *)
Fixpoint indexOf_str (p s : string) : Z :=
  if String.prefix p s then 0
  else match s with
       | EmptyString => -1
       | String _ r =>
           let k := indexOf_str p r in if k <? 0 then -1 else k + 1
       end.

(** The template [<span class="cls">body</span>]. *)
Definition span (cls body : string) : string :=
  "<span class=" +:+ String dquote cls +:+ String dquote ">" +:+ body
  +:+ "</span>".

(** The [for (const m of HTTP_METHODS)] loop of [hlMethodLine] and the
    [return] after it. *)
Fixpoint hlMethodLine_from (ms : list string) (line : string) : string :=
  match ms with
  | m :: ms' =>
      if startsWith (m +:+ " ") (trimStart line)
      then
        let idx := indexOf_str m line in
        let pre := escapeHtml (substring_to (Z.to_nat idx) line) in
        let url :=
          escapeHtml
            (substring_from (Z.to_nat (idx + Z.of_nat (String.length m) + 1))
               line) in
        pre +:+ span "hl-method" m +:+ " " +:+ span "hl-url" url
      else hlMethodLine_from ms' line
  | [] => escapeHtml line
  end.

Definition hlMethodLine (line : string) : string :=
  hlMethodLine_from HTTP_METHODS line.

Definition hlHeaderLine (line : string) : string :=
  let ci := indexOf ":" line in
  if 0 <? ci
  then span "hl-hkey" (escapeHtml (substring_to (Z.to_nat ci) line))
       +:+ span "hl-punct" ":"
       +:+ span "hl-hval" (escapeHtml (substring_from (Z.to_nat (ci + 1)) line))
  else escapeHtml line.

End Markup.

(** ** The line classifier of the editor, [classifyLines] *)

Module Classify.
Import Str Parser.

Inductive LineKind :=
  | k_separator | k_comment | k_method | k_header | k_body | k_blank | k_text.

#[global] Instance LineKind_eq_dec : EqDecision LineKind.
Proof. solve_decision. Defined.

(** An array with holes: [None] is an element that was never written
    ([undefined] when read). *)
Definition array_get {A} (a : list (option A)) (i : Z) : option A :=
  if i <? 0 then None else mjoin (a !! Z.to_nat i).

(** [a[i] = v]: inside the array the element is replaced, past its end
    the array grows with holes; a negative [i] sets a property of the
    object and changes no element. *)
Definition array_set {A} (a : list (option A)) (i : Z) (v : A)
  : list (option A) :=
  if i <? 0 then a
  else if i <? Z.of_nat (List.length a) then <[Z.to_nat i := Some v]> a
  else a ++ replicate (Z.to_nat i - List.length a) None ++ [Some v].

(** What the first loop writes for one line. *)
Definition line_kind (l : string) : LineKind :=
  let t := trimStart l in
  if startsWith "###" t then k_separator
  else if is_empty t then k_blank
  else if startsWith "#" t || startsWith "//" t then k_comment
  else k_text.

Definition is_sep_or_comment (k : option LineKind) : bool :=
  match k with
  | Some k_separator | Some k_comment => true
  | _ => false
  end.

(** The inner loop over the lines of a block after its method line:
    [n] rounds are left, [i] is the loop variable. *)
Fixpoint classify_block_loop (lines : list string) (n : nat) (i : Z)
    (pastBlank : bool) (kinds : list (option LineKind))
  : option (list (option LineKind)) :=
  match n with
  | O => Some kinds
  | S n' =>
      if is_sep_or_comment (array_get kinds i)
      then classify_block_loop lines n' (i + 1) pastBlank kinds
      else
        line ← line_at lines i;
        if is_blank line
        then classify_block_loop lines n' (i + 1) true
               (array_set kinds i k_blank)
        else classify_block_loop lines n' (i + 1) pastBlank
               (array_set kinds i (if pastBlank then k_body else k_header))
  end.

(** The loop over the blocks. *)
Fixpoint classify_blocks (lines : list string) (blks : list RequestBlock)
    (kinds : list (option LineKind)) : option (list (option LineKind)) :=
  match blks with
  | [] => Some kinds
  | block :: rest =>
      kinds' ← classify_block_loop lines
                 (Z.to_nat (endLine block - methodLine block))
                 (methodLine block + 1) false
                 (array_set kinds (methodLine block) k_method);
      classify_blocks lines rest kinds'
  end.

Definition classifyLines (content : string) (blks : list RequestBlock)
  : option (list (option LineKind)) :=
  let lines := split_lines content in
  classify_blocks lines blks (Some <$> (line_kind <$> lines)).

End Classify.

Module ClassifySpec.
Import Str Parser ParserSpec Classify.

(** The kinds the inner loop leaves on a run of lines that the first
    loop has classified and no block has touched since. *)
Fixpoint kinds_of (pastBlank : bool) (ls : list string) : list LineKind :=
  match ls with
  | [] => []
  | l :: r =>
      if is_sep_or_comment (Some (line_kind l))
      then line_kind l :: kinds_of pastBlank r
      else if is_blank l then k_blank :: kinds_of true r
      else (if pastBlank then k_body else k_header) :: kinds_of pastBlank r
  end.

(** No character of [p] is white space. *)
Fixpoint no_space (p : string) : bool :=
  match p with
  | EmptyString => true
  | String c r => negb (is_space c) && no_space r
  end.

(** The kind the inner loop gives the line [l] at position [p] of the
    lines [ls] of a block after its method line. *)
Definition kind_in_block (ls : list string) (p : nat) (l : string)
  : LineKind :=
  if is_sep_or_comment (Some (line_kind l)) then line_kind l
  else if is_blank l then k_blank
  else if (p <? List.length (take_nonblank ls))%nat then k_header
  else k_body.

(** The kind of line [i], of text [l], of a document with the blocks
    [bs]. *)
Definition kind_at (lines : list string) (bs : list RequestBlock)
    (i : nat) (l : string) : LineKind :=
  match findRequestAtLine bs (Z.of_nat i) with
  | Some b =>
      if Z.of_nat i <? methodLine b then line_kind l
      else if Z.of_nat i =? methodLine b then k_method
      else kind_in_block (after_method lines b)
             (i - S (Z.to_nat (methodLine b))) l
  | None => line_kind l
  end.

(** The block of [doc_comment]. *)
Definition block_comment : RequestBlock :=
  mkBlock "GET" "http://a.b/"
    {[ "# note" := "x"; "// see" := "y"; "B" := "2" ]} EmptyString 0 3 0.

(** Line [j] is in the part of the block [b] that [classifyLines]
    writes: from the method line to the end line. *)
Definition covered (b : RequestBlock) (j : nat) : Prop :=
  (Z.to_nat (methodLine b) ≤ j ≤ Z.to_nat (endLine b))%nat.

End ClassifySpec.

(** ** The highlighter of the editor: [hlJsonLine], [hlJsonValue],
       [highlightSyntax] and [highlightJson] of [App.svelte] *)

Module Syntax.
Import Str Parser Highlight Markup Classify.

Definition CR : ascii := "013"%char.
Definition backslash : ascii := "092"%char.

(** What the regular-expression dot does not match, among the
    characters of the model. *)
Definition is_line_terminator (c : ascii) : bool :=
  Ascii.eqb c LF || Ascii.eqb c CR.

(** [\s*] at the start of [s]: the white space taken, and the rest.
    What follows [\s*] in the two expressions is a character that is
    no white space, so that the longest run is the only match. *)
Fixpoint span_space (s : string) : string * string :=
  match s with
  | String c r =>
      if is_space c
      then let '(ws, rest) := span_space r in (String c ws, rest)
      else (EmptyString, s)
  | EmptyString => (EmptyString, EmptyString)
  end.

(** The group between the quotes of the two expressions, a repetition
    of "a character other than quote and backslash, or a backslash and
    any character", and the closing quote after it, at the start of
    [s]: the group and the text after the closing quote.  A backslash
    is taken with the character after it, which is no line terminator;
    the group ends before the first quote that is reached this way,
    and only there. *)
Fixpoint json_string (s : string) : option (string * string) :=
  match s with
  | EmptyString => None
  | String c r =>
      if Ascii.eqb c dquote then Some (EmptyString, r)
      else if Ascii.eqb c backslash then
        match r with
        | String d r' =>
            if is_line_terminator d then None
            else '(k, rest) ← json_string r'; Some (String c (String d k), rest)
        | EmptyString => None
        end
      else '(k, rest) ← json_string r; Some (String c k, rest)
  end.

(** The last group of the first expression, any characters the dot
    matches: the text up to the first line terminator. *)
Fixpoint dot_star (s : string) : string :=
  match s with
  | String c r => if is_line_terminator c then EmptyString else String c (dot_star r)
  | EmptyString => EmptyString
  end.

(** The first [line.match] of [hlJsonLine]: white space, a quoted
    group, white space, a colon, white space and the rest; the groups
    [indent], [key] and [rest]. *)
Definition match_key_value (line : string) : option (string * string * string) :=
  let '(indent, r0) := span_space line in
  match r0 with
  | String c r1 =>
      if Ascii.eqb c dquote then
        '(key, r2) ← json_string r1;
        match (span_space r2).2 with
        | String c' r4 =>
            if Ascii.eqb c' ":"
            then Some (indent, key, dot_star (span_space r4).2)
            else None
        | EmptyString => None
        end
      else None
  | EmptyString => None
  end.

(** The second [line.match] of [hlJsonLine]: white space, a quoted
    group, white space and an optional comma up to the end of the
    line; the three groups. *)
Definition match_string_line (line : string) : option (string * string * string) :=
  let '(indent, r0) := span_space line in
  match r0 with
  | String c r1 =>
      if Ascii.eqb c dquote then
        '(str, r2) ← json_string r1;
        match (span_space r2).2 with
        | EmptyString => Some (indent, str, EmptyString)
        | String c' EmptyString =>
            if Ascii.eqb c' "," then Some (indent, str, ",") else None
        | _ => None
        end
      else None
  | EmptyString => None
  end.

(** [t.slice(0, -1)] *)
Fixpoint drop_last (s : string) : string :=
  match s with
  | EmptyString => EmptyString
  | String c r => if is_empty r then EmptyString else String c (drop_last r)
  end.

(** [s.endsWith(c)] for one character *)
Definition endsWith (c : ascii) (s : string) : bool :=
  match last_char s with
  | Some d => Ascii.eqb d c
  | None => false
  end.

(** [/^-?\d/.test(v)] *)
Definition re_number_start (v : string) : bool :=
  let is_digit c := let n := N_of_ascii c in ((48 <=? n) && (n <=? 57))%N in
  match v with
  | String c r =>
      if Ascii.eqb c "-"
      then match r with String d _ => is_digit d | EmptyString => false end
      else is_digit c
  | EmptyString => false
  end.

Definition hlJsonValue (raw : string) : string :=
  let t := trim raw in
  let trailing := if endsWith "," t then "," else EmptyString in
  let v := if is_empty trailing then t else drop_last t in
  if startsWith (String dquote EmptyString) v && endsWith dquote v
  then span "hl-jstr" (escapeHtml v) +:+ trailing
  else if re_number_start v
  then span "hl-jnum" (escapeHtml v) +:+ trailing
  else if String.eqb v "true" || String.eqb v "false" || String.eqb v "null"
  then span "hl-jbool" (escapeHtml v) +:+ trailing
  else escapeHtml raw.

Definition hlJsonLine (line : string) : string :=
  match match_key_value line with
  | Some (indent, key, rest) =>
      indent
      +:+ span "hl-jkey" (String dquote (escapeHtml key +:+ String dquote EmptyString))
      +:+ span "hl-punct" ":" +:+ " " +:+ hlJsonValue rest
  | None =>
      match match_string_line line with
      | Some (sm1, sm2, sm3) =>
          sm1
          +:+ span "hl-jstr" (String dquote (escapeHtml sm2 +:+ String dquote EmptyString))
          +:+ sm3
      | None => escapeHtml line
      end
  end.

(** The [switch] of [highlightSyntax]; [None] is [undefined]. *)
Definition hl_line (kind : option LineKind) (line : string) : string :=
  match kind with
  | Some k_separator => span "hl-sep" (escapeHtml line)
  | Some k_comment => span "hl-cmt" (escapeHtml line)
  | Some k_method => hlMethodLine line
  | Some k_header => hlHeaderLine line
  | Some k_body => hlJsonLine line
  | _ => escapeHtml line
  end.

Definition highlightSyntax (content : string) (blks : list RequestBlock)
  : option string :=
  let lines := split_lines content in
  kinds ← classifyLines content blks;
  let result :=
    join_lines (imap (λ i line, hl_line (array_get kinds (Z.of_nat i)) line) lines) in
  Some (result +:+ String LF EmptyString).

Definition highlightJson (str : string) : string :=
  join_lines (hlJsonLine <$> split_lines str).

End Syntax.

Module SyntaxSpec.
Import Str Parser Highlight HighlightSpec Markup Classify Syntax.

(** The classes of the highlighter. *)
Definition hl_classes : list string :=
  ["hl-sep"; "hl-cmt"; "hl-method"; "hl-url"; "hl-hkey"; "hl-punct";
   "hl-hval"; "hl-jkey"; "hl-jstr"; "hl-jnum"; "hl-jbool"].

(** The opening tag of [span]. *)
Definition span_open (cls : string) : string :=
  "<span class=" +:+ String dquote cls +:+ String dquote ">".

(** The tags of the highlighter: a [span] of one of its classes opened
    or closed. *)
Definition hl_tags : list string := "</span>" :: (span_open <$> hl_classes).

(** A text without angle brackets. *)
Definition no_angle (s : string) : bool :=
  negb (occurs "<" s) && negb (occurs ">" s).

(** Markup of the highlighter: tags of the highlighter and texts
    without angle brackets, one after the other. *)
Inductive markup : string → Prop :=
  | markup_nil : markup EmptyString
  | markup_text s rest :
      no_angle s = true → markup rest → markup (s +:+ rest)
  | markup_tag t rest :
      t ∈ hl_tags → markup rest → markup (t +:+ rest).

End SyntaxSpec.

(** ** The tab key of the editor, [handleEditorKeydown] of [App.svelte] *)

Module Keys.
Import Str.

Definition TAB : ascii := "009"%char.

(** [s.substring(a, b)] for [0 <= a] and [0 <= b]: the two ends are
    swapped when [a > b], and an end past the text is the end of the
    text. *)
Definition substring (a b : nat) (s : string) : string :=
  substring_to (Nat.max a b - Nat.min a b) (substring_from (Nat.min a b) s).

(** [s.lastIndexOf(c, from)] for one character and [0 <= from]: the
    last position of [c] that is not after [from], [-1] when there is
    none. *)
Fixpoint lastIndexOf (c : ascii) (s : string) (from : nat) : Z :=
  match s with
  | EmptyString => -1
  | String d r =>
      match from with
      | O => if Ascii.eqb d c then 0 else -1
      | S from' =>
          let k := lastIndexOf c r from' in
          if 0 <=? k then k + 1 else if Ascii.eqb d c then 0 else -1
      end
  end.

(** The branch of the tab key without shift, for the selection from
    [start] to [end_]: the new [editorContent] and the new position of
    the cursor. *)
Definition handleTab (editorContent : string) (start end_ : nat)
  : string * nat :=
  (substring_to start editorContent +:+ String TAB EmptyString
   +:+ substring_from end_ editorContent,
   (start + 1)%nat).

(** The branch of the tab key with shift: [None] stands for the
    [return] that changes nothing.  A negative [from] of [lastIndexOf]
    counts as 0, and so does a negative [start - removed] under
    [Math.max] with [lineStart]. *)
Definition handleShiftTab (editorContent : string) (start end_ : nat)
  : option (string * nat) :=
  let lineStart :=
    Z.to_nat (lastIndexOf LF editorContent (Z.to_nat (Z.of_nat start - 1)) + 1) in
  let lineText := substring lineStart end_ editorContent in
  '(newLineText, removed) ←
    (if startsWith (String TAB EmptyString) lineText
     then Some (substring_from 1 lineText, 1%nat)
     else if startsWith "  " lineText
     then Some (substring_from 2 lineText, 2%nat)
     else if startsWith " " lineText
     then Some (substring_from 1 lineText, 1%nat)
     else None);
  Some (substring_to lineStart editorContent +:+ newLineText
        +:+ substring_from (lineStart + String.length lineText) editorContent,
        Nat.max lineStart (start - removed)).

End Keys.

Module KeysSpec.
Import Str Keys.

(** The indentations the tab key with shift removes. *)
Definition indents : list string := [String TAB EmptyString; "  "; " "].

(** [pre] ends where a line starts. *)
Definition at_line_start (pre : string) : Prop :=
  pre = EmptyString ∨ last_char pre = Some LF.

End KeysSpec.

(** ** The update check, [isNewer] and [CheckForUpdate] of [app.go] *)

Module Update.
Import Str Executor.

(** [strings.TrimPrefix(s, prefix)] *)
Definition TrimPrefix (s prefix : string) : string :=
  if startsWith prefix s then substring_from (String.length prefix) s else s.

(** [strings.Cut(s, sep)] for a separator of one character: the text
    before and after the first [sep]. *)
Fixpoint cut (sep : ascii) (s : string) : option (string * string) :=
  match s with
  | EmptyString => None
  | String c r =>
      if Ascii.eqb c sep then Some (EmptyString, r)
      else match cut sep r with
           | Some (a, b) => Some (String c a, b)
           | None => None
           end
  end.

(** [strings.SplitN(s, sep, n)] for a separator of one character and
    [0 <= n]: at most [n] pieces, the last one the rest of the text. *)
Fixpoint SplitN (s : string) (sep : ascii) (n : nat) : list string :=
  match n with
  | O => []
  | S n' =>
      match n' with
      | O => [s]
      | S _ =>
          match cut sep s with
          | Some (a, rest) => a :: SplitN rest sep n'
          | None => [s]
          end
      end
  end.

Definition is_digit (c : ascii) : bool :=
  let n := N_of_ascii c in ((48 <=? n) && (n <=? 57))%N.

Definition digit_value (c : ascii) : Z := Z.of_N (N_of_ascii c) - 48.

Fixpoint parse_digits (acc : Z) (s : string) : option Z :=
  match s with
  | EmptyString => Some acc
  | String c r =>
      if is_digit c then parse_digits (acc * 10 + digit_value c) r else None
  end.

(** The range of [int], 64 bits. *)
Definition maxInt : Z := 2 ^ 63 - 1.
Definition minInt : Z := - 2 ^ 63.

(** [strconv.Atoi(s)]: an optional sign and decimal digits, at least
    one, with a value in the range of [int]; [None] stands for an
    error. *)
Definition Atoi (s : string) : option Z :=
  match s with
  | EmptyString => None
  | String c r =>
      let digits := if Ascii.eqb c "-" || Ascii.eqb c "+" then r else s in
      if is_empty digits then None
      else
        v ← parse_digits 0 digits;
        let n := if Ascii.eqb c "-" then - v else v in
        if (minInt <=? n) && (n <=? maxInt) then Some n else None
  end.

Definition digit_char (d : Z) : ascii := ascii_of_N (Z.to_N (48 + d)).

(** The digits of [u], for [0 <= u < 2 ^ 64]: the loop of
    [fmt.fmtInteger], which writes them from the last one; twenty
    rounds are enough for 64 bits. *)
Fixpoint itoa_loop (fuel : nat) (u : Z) (acc : string) : string :=
  match fuel with
  | O => acc
  | S fuel' =>
      if u <? 10 then String (digit_char u) acc
      else itoa_loop fuel' (u / 10) (String (digit_char (u mod 10)) acc)
  end.

Definition itoa (u : Z) : string := itoa_loop 20 u EmptyString.

Fixpoint zeros (k : nat) : string :=
  match k with
  | O => EmptyString
  | S k' => String "0" (zeros k')
  end.

(** [fmt.Sprintf("%09d", n)]: zeros up to nine characters, the sign
    counted in. *)
Definition Sprintf_09d (n : Z) : string :=
  if n <? 0
  then String "-" (let d := itoa (- n) in zeros (8 - String.length d) +:+ d)
  else let d := itoa n in zeros (9 - String.length d) +:+ d.

(** The [parse] closure of [isNewer]. *)
Definition parse (s : string) : option (Z * Z * Z) :=
  let s := TrimPrefix s "v" in
  match SplitN s "." 3 with
  | [p0; p1; p2] =>
      match Atoi p0, Atoi p1, Atoi p2 with
      | Some maj, Some min, Some pat => Some (maj, min, pat)
      | _, _, _ => None
      end
  | _ => None
  end.

(** [a > b] on strings: the order of the bytes. *)
Definition string_gt (a b : string) : bool := String.ltb b a.

Definition isNewer (latest current : string) : bool :=
  match parse latest, parse current with
  | Some (lMaj, lMin, lPat), Some (cMaj, cMin, cPat) =>
      let lVal := Sprintf_09d lMaj +:+ Sprintf_09d lMin +:+ Sprintf_09d lPat in
      let cVal := Sprintf_09d cMaj +:+ Sprintf_09d cMin +:+ Sprintf_09d cPat in
      string_gt lVal cVal
  | _, _ => false
  end.

Record UpdateInfo := mkUpdateInfo {
  CurrentVersion : string;
  LatestVersion : string;
  UpdateAvailable : bool;
  ReleaseURL : string
}.

(** The anonymous struct [release] of [CheckForUpdate]. *)
Record Release := mkRelease {
  TagName : string;
  HTMLURL : string
}.

(** One call of [json.NewDecoder(resp.Body).Decode(&release)]: the
    struct it fills, [None] for an error, and the time the reading of
    the body takes (nanoseconds). *)
Record Decoded := mkDecoded {
  dec_result : option Release;
  dec_elapsed : Z
}.

Definition json_Decode (decode : HttpResponse → Decoded) (resp : HttpResponse)
  : M (option Release) :=
  λ w, (dec_result (decode resp),
        mkWorld (clock w + dec_elapsed (decode resp)) (sent w)).

Definition releases_latest : string :=
  "https://api.github.com/repos/mortensieker/dispatch-http/releases/latest".

Definition StatusOK : Z := 200.

(** [CheckForUpdate], with the package variable [version] and the
    JSON decoder as parameters. *)
Definition CheckForUpdate (net : Net) (decode : HttpResponse → Decoded)
    (version : string) : M UpdateInfo :=
  let info := mkUpdateInfo version EmptyString false EmptyString in
  if String.eqb version "dev" then mret info
  else
    match http_NewRequest net "GET" releases_latest None with
    | inl _ => mret info
    | inr req =>
        let req := Header_Set net "Accept" "application/vnd.github+json" req in
        r ← client_Do net req;
        match r with
        | inl _ => mret info
        | inr resp =>
            if negb (StatusCode resp =? StatusOK) then mret info
            else
              d ← json_Decode decode resp;
              match d with
              | None => mret info
              | Some release =>
                  mret (mkUpdateInfo version (TagName release)
                          (isNewer (TagName release) version)
                          (HTMLURL release))
              end
        end
    end.

(** [GetVersion] *)
Definition GetVersion (version : string) : string := version.

End Update.

Module UpdateSpec.
Import Str Executor Update.

(** The [k] last decimal digits of [n], the first one first. *)
Fixpoint digits_of (k : nat) (n : Z) : string :=
  match k with
  | O => EmptyString
  | S k' => digits_of k' (n / 10) +:+ String (digit_char (n mod 10)) EmptyString
  end.

(** The order of version triples. *)
Definition triple_lt (x y : Z * Z * Z) : Prop :=
  let '(a, b, c) := x in
  let '(d, e, f) := y in
  a < d ∨ (a = d ∧ (b < e ∨ (b = e ∧ c < f))).

Definition small (x : Z * Z * Z) : Prop :=
  let '(a, b, c) := x in
  0 ≤ a < 10 ^ 9 ∧ 0 ≤ b < 10 ^ 9 ∧ 0 ≤ c < 10 ^ 9.

(** A version as it is written: an optional [v] and three decimal
    numbers with dots between them. *)
Definition version_text (v : bool) (a b c : Z) : string :=
  (if v then "v" else EmptyString) +:+ itoa a +:+ "." +:+ itoa b +:+ "." +:+ itoa c.

Fixpoint all_digits (s : string) : bool :=
  match s with
  | EmptyString => true
  | String c r => is_digit c && all_digits r
  end.

(** The request of the update check. *)
Definition release_request (net : Net) : Request :=
  Header_Set net "Accept" "application/vnd.github+json"
    (mkRequest "GET" releases_latest None ∅).

(** A server that answers every request with the release [tag]. *)
Definition release_net (status : Z) : Net :=
  mkNet (λ k, k) (λ _ _, None)
        (λ _, mkRoundTrip (inr (mkHttpResponse status ∅ "{}" None 1000)) 5000).

Definition release_decode (tag : string) : HttpResponse → Decoded :=
  λ _, mkDecoded (Some (mkRelease tag "https://example.test/release")) 1000.

End UpdateSpec.

(** ** From the editor to the network: [runRequest] of [App.svelte] *)

Module Run.
Import Str Parser Executor.

(** The call of the backend in [runRequest]:
    [Execute(block.method, block.url, block.body)]. *)
Definition runRequest_Execute (net : Net) (block : RequestBlock) : M Response :=
  Execute net (method block) (url block) (body block).

End Run.


(** ** Facts about the string primitives *)

Module StrFacts.
Import Str.

Lemma is_empty_true s : is_empty s = true ↔ s = EmptyString.
Proof. destruct s; simpl; split; congruence. Qed.

Lemma is_empty_false s : is_empty s = false ↔ s ≠ EmptyString.
Proof. destruct s; simpl; split; congruence. Qed.

Lemma app_nil_l s : EmptyString +:+ s = s.
Proof. reflexivity. Qed.

Lemma app_cons c s t : String c s +:+ t = String c (s +:+ t).
Proof. reflexivity. Qed.

(** [trimEnd] removes a suffix of white space and nothing else. *)
Lemma trimEnd_split s :
  ∃ ws, s = trimEnd s +:+ ws ∧ all_space ws = true.
Proof.
  induction s as [|c r [ws [Hr Hws]]]; simpl.
  - exists EmptyString. done.
  - destruct (is_space c) eqn:Hc; simpl.
    + destruct (is_empty (trimEnd r)) eqn:He.
      * apply is_empty_true in He. rewrite He, app_nil_l in Hr. subst r.
        exists (String c ws). rewrite app_nil_l. simpl. by rewrite Hc, Hws.
      * exists ws. split; [|done]. rewrite app_cons. by f_equal.
    + exists ws. split; [|done]. rewrite app_cons. by f_equal.
Qed.

(** What [trimEnd] returns does not end in white space. *)
Lemma trimEnd_last s c : last_char (trimEnd s) = Some c → is_space c = false.
Proof.
  induction s as [|d r IH]; simpl; [done|].
  destruct (is_space d) eqn:Hd; simpl.
  - destruct (trimEnd r) as [|e r'] eqn:Hr; simpl; [done|].
    intros H. apply IH. exact H.
  - destruct (trimEnd r) as [|e r'] eqn:Hr; simpl.
    + intros [= <-]. done.
    + intros H. apply IH. exact H.
Qed.

Lemma trimEnd_all_space s : all_space s = true → trimEnd s = EmptyString.
Proof.
  induction s as [|c r IH]; simpl; [done|].
  intros [Hc Hr]%andb_true_iff. by rewrite IH, Hc.
Qed.

Lemma trimStart_all_space s : all_space s = true → trimStart s = EmptyString.
Proof.
  induction s as [|c r IH]; simpl; [done|].
  intros [Hc Hr]%andb_true_iff. rewrite Hc. auto.
Qed.

(** A string is blank for [trim] exactly when it is all white space. *)
Lemma trim_empty_iff s : is_empty (trim s) = true ↔ all_space s = true.
Proof.
  unfold trim. split.
  - induction s as [|c r IH]; simpl; [done|].
    destruct (is_space c) eqn:Hc; simpl; [exact IH|].
    rewrite Hc. simpl. done.
  - intros H. by rewrite trimStart_all_space.
Qed.

Lemma prefix_cons a p b s :
  String.prefix (String a p) (String b s) = true ↔ a = b ∧ String.prefix p s = true.
Proof.
  simpl. destruct (ascii_dec a b) as [->|Hne]; split; try tauto; try congruence.
Qed.

(** Case analysis on the next character of a line, closing the cases
    that compute. *)
Ltac next_char s :=
  destruct s as [|[[] [] [] [] [] [] [] []] s]; try reflexivity.

(** The regular expression [/^https?:\/\//] and the two [startsWith]
    tests of [parseMethodUrl] accept the same lines. *)
Lemma re_http_prefix_startsWith s :
  re_http_prefix s = startsWith "http://" s || startsWith "https://" s.
Proof. unfold re_http_prefix, startsWith. do 9 (try next_char s). Qed.

Lemma prefix_empty s : String.prefix EmptyString s = true.
Proof. by destruct s. Qed.

Lemma prefix_split p t : String.prefix p t = true → ∃ r, t = p +:+ r.
Proof.
  revert t. induction p as [|a p IH]; intros t H.
  - by exists t.
  - destruct t as [|b t]; [done|]. apply prefix_cons in H as [-> H].
    destruct (IH t H) as [r ->]. by exists r.
Qed.

Lemma prefix_app p r : String.prefix p (p +:+ r) = true.
Proof.
  induction p as [|a p IH]; [apply prefix_empty|].
  rewrite app_cons. by apply prefix_cons.
Qed.

(** [startsWith] in words: the text is the prefix and a rest. *)
Lemma startsWith_iff p t : startsWith p t = true ↔ ∃ r, t = p +:+ r.
Proof.
  unfold startsWith. split; [apply prefix_split|].
  intros [r ->]. apply prefix_app.
Qed.

End StrFacts.

(** ** Facts about the parser *)

Module ParserFacts.
Import Str StrFacts Parser ParserSpec.

Lemma line_at_Some lines i l :
  line_at lines i = Some l ↔ 0 ≤ i ∧ lines !! Z.to_nat i = Some l.
Proof.
  unfold line_at. destruct (Z.ltb_spec i 0); split; try done; try tauto.
  intros [? ?]. lia.
Qed.

Lemma line_at_lt lines i l :
  line_at lines i = Some l → 0 ≤ i < Z.of_nat (List.length lines).
Proof.
  intros [? H]%line_at_Some. apply lookup_lt_Some in H. lia.
Qed.

Lemma line_at_in_range lines i :
  0 ≤ i < Z.of_nat (List.length lines) → ∃ l, line_at lines i = Some l.
Proof.
  intros [? ?]. destruct (lookup_lt_is_Some_2 lines (Z.to_nat i)) as [l Hl]; [lia|].
  exists l. apply line_at_Some. done.
Qed.

(** A line that starts with ### is not a method line. *)
Lemma sep_not_method t :
  startsWith "###" t = true → looksLikeMethodLine t = false.
Proof.
  unfold startsWith. intros H.
  destruct t as [|c t]; [done|]. apply prefix_cons in H as [<- H].
  reflexivity.
Qed.

Lemma method_not_sep t :
  looksLikeMethodLine t = true → startsWith "###" t = false.
Proof.
  intros H. destruct (startsWith "###" t) eqn:E; [|done].
  apply sep_not_method in E. congruence.
Qed.

(** A line accepted by [looksLikeMethodLine] gets a method from
    [parseMethodUrl], so that [buildBlock] does not return [null]. *)
Lemma method_line_has_method t :
  looksLikeMethodLine t = true → is_empty (fst (parseMethodUrl t)) = false.
Proof.
  unfold looksLikeMethodLine, parseMethodUrl, HTTP_METHODS. simpl.
  do 7 (destruct (startsWith _ t); simpl; [done|]).
  rewrite re_http_prefix_startsWith. intros ->. done.
Qed.

Lemma method_line_not_blank l : is_method l = true → is_blank l = false.
Proof.
  unfold is_method, is_blank. destruct (trim l); [done|done].
Qed.

Section Invariant.
Variable lines : list string.

Lemma trim_trailing_ok n cml e0 :
  0 ≤ cml ≤ e0 → e0 < Z.of_nat (List.length lines) →
  ∃ e, trim_trailing lines n cml e0 = Some e ∧ cml ≤ e ≤ e0 ∧
       (e0 - cml ≤ Z.of_nat n → e = cml ∨ nonblank_at lines e).
Proof.
  revert e0. induction n as [|n IH]; intros e0 Hc He; simpl.
  - exists e0. split; [done|]. split; [lia|]. intros ?. left. lia.
  - destruct (Z.ltb_spec cml e0) as [Hlt|Hge].
    + destruct (line_at_in_range lines e0) as [l Hl]; [lia|].
      rewrite Hl. simpl. destruct (is_blank l) eqn:Hb.
      * destruct (IH (e0 - 1)) as (e & -> & ? & Hn); [lia|lia|].
        exists e. split; [done|]. split; [lia|]. intros ?. apply Hn. lia.
      * exists e0. split; [done|]. split; [lia|]. intros _. right. by exists l.
    + exists e0. split; [done|]. split; [lia|]. intros _. left. lia.
Qed.

Lemma scan_headers_total n i hs :
  0 ≤ i → i + Z.of_nat n ≤ Z.of_nat (List.length lines) → is_Some (scan_headers lines n i hs).
Proof.
  revert i hs. induction n as [|n IH]; intros i hs Hi Hn; simpl; [done|].
  destruct (line_at_in_range lines i) as [l ->]; [lia|]. simpl.
  destruct (is_blank l); [done|]. apply IH; lia.
Qed.

Lemma buildBlock_total s e m :
  method_at lines m → m ≤ e < Z.of_nat (List.length lines) →
  ∃ b, buildBlock lines s e m = Some (Some b) ∧
       startLine b = s ∧ endLine b = e ∧ methodLine b = m.
Proof.
  intros (l & Hl & Hm) He. unfold buildBlock. rewrite Hl. simpl.
  pose proof (line_at_lt _ _ _ Hl) as Hr.
  apply method_line_has_method in Hm.
  destruct (parseMethodUrl (trim l)) as [mm u]. simpl in Hm. rewrite Hm.
  destruct (scan_headers_total (Z.to_nat (e - m)) (m + 1) ∅) as [[hs bs] ->];
    [lia|lia|].
  simpl. eexists. split; [reflexivity|]. done.
Qed.

Lemma flush_none st e0 :
  currentMethodLine st < 0 → flush lines st e0 = Some st.
Proof.
  intros H. unfold flush. destruct (Z.ltb_spec (currentMethodLine st) 0); [done|lia].
Qed.

Lemma flush_push st e0 :
  0 ≤ blockStart st ≤ currentMethodLine st →
  currentMethodLine st ≤ e0 < Z.of_nat (List.length lines) →
  method_at lines (currentMethodLine st) →
  (∀ j, currentMethodLine st < j ≤ e0 → inert lines j) →
  ∃ b, flush lines st e0
         = Some (mkState (blocks st ++ [b]) (blockStart st) (-1)) ∧
       block_ok lines b ∧ startLine b = blockStart st ∧
       methodLine b = currentMethodLine st ∧ endLine b ≤ e0.
Proof.
  intros Hs He Hm Hin. unfold flush.
  destruct (Z.ltb_spec (currentMethodLine st) 0); [lia|].
  destruct (trim_trailing_ok (Z.to_nat (e0 - currentMethodLine st))
              (currentMethodLine st) e0) as (e & -> & Hr & Hlast); [lia|lia|].
  simpl.
  destruct (buildBlock_total (blockStart st) e (currentMethodLine st))
    as (b & Hb & Hbs & Hbe & Hbm); [done|lia|].
  rewrite Hb. simpl. exists b. split; [done|].
  split; [|repeat split; lia].
  split.
  - by rewrite Hbs, Hbe, Hbm.
  - lia.
  - lia.
  - by rewrite Hbm.
  - intros j Hj. apply Hin. lia.
  - rewrite Hbe. destruct Hlast as [->|Hn]; [lia| |done].
    destruct Hm as (l & Hl & Hml). exists l. split; [done|].
    by apply method_line_not_blank.
Qed.

Lemma Inv_init : Inv lines 0 init.
Proof.
  split; simpl; try lia.
  - constructor.
  - constructor.
Qed.

(** Flushing at the end of the lines seen so far keeps what the
    invariant says of the blocks, and pushes the open block. *)
Lemma flush_Inv i st bound :
  Inv lines i st → i ≤ bound →
  ∃ st', flush lines st (i - 1) = Some st' ∧
         currentMethodLine st' = -1 ∧ blockStart st' = blockStart st ∧
         Forall (λ b, block_ok lines b ∧ endLine b < bound) (blocks st') ∧
         StronglySorted (λ a b, endLine a < startLine b) (blocks st') ∧
         (∀ j, 0 ≤ j < i → method_at lines j → ∃ b, b ∈ blocks st' ∧ methodLine b = j).
Proof.
  intros [Hi Hc Hs Hcur Hbl Hso Hco] Hb.
  destruct (Z.lt_ge_cases (currentMethodLine st) 0) as [Hneg|Hpos].
  - exists st. rewrite flush_none by done.
    split; [done|]. split; [lia|]. split; [done|].
    split; [|split; [done|]].
    + eapply Forall_impl; [exact Hbl|]. simpl. intros b [? ?]. split; [done|lia].
    + intros j Hj Hm. destruct (Hco j Hj Hm) as [?|?]; [lia|done].
  - destruct (Hcur Hpos) as (Hle & Hm & Hin).
    destruct (flush_push st (i - 1)) as (b & -> & Hok & Hbs & Hbm & Hbe);
      [lia|lia|done|intros; apply Hin; lia|].
    eexists. split; [reflexivity|]. simpl.
    split; [done|]. split; [done|]. split; [|split].
    + apply Forall_app. split.
      * eapply Forall_impl; [exact Hbl|]. simpl. intros b' [? ?]. split; [done|lia].
      * constructor; [|constructor]. split; [done|lia].
    + apply StronglySorted_app_2.
      * intros x1 x2 Hx1 ->%list_elem_of_singleton.
        rewrite Forall_forall in Hbl. destruct (Hbl x1 Hx1). lia.
      * done.
      * repeat constructor.
    + intros j Hj Hmj. destruct (Hco j Hj Hmj) as [Heq|(b' & Hb' & Hmb)].
      * exists b. split; [|lia]. apply elem_of_app. right. by apply list_elem_of_singleton.
      * exists b'. split; [|done]. apply elem_of_app. by left.
Qed.

Lemma step_Inv i st :
  Inv lines i st → i < Z.of_nat (List.length lines) → ∃ st', step lines st i = Some st' ∧ Inv lines (i + 1) st'.
Proof.
  intros HI Hlt. pose proof HI as [Hi Hc Hs Hcur Hbl Hso Hco].
  destruct (line_at_in_range lines i) as [l Hl]; [lia|].
  unfold step. rewrite Hl. simpl.
  destruct (startsWith "###" (trim l)) eqn:Hsep.
  - (* separator *)
    destruct (flush_Inv i st i HI) as (st' & -> & Hc' & Hs' & Hbl' & Hso' & Hco');
      [lia|].
    simpl. eexists. split; [reflexivity|].
    split; simpl; try lia.
    + eapply Forall_impl; [exact Hbl'|]. simpl. tauto.
    + done.
    + intros j Hj Hm. right.
      destruct (Z.eq_dec j i) as [->|Hne].
      * destruct Hm as (l' & Hl' & Hm). rewrite Hl in Hl'. injection Hl' as <-.
        unfold is_method in Hm. rewrite (sep_not_method _ Hsep) in Hm. done.
      * apply Hco'; [lia|done].
  - destruct (looksLikeMethodLine (trim l)) eqn:Hmeth.
    + (* method line *)
      assert (method_at lines i) as Hmi by (by exists l).
      destruct (Z.leb_spec 0 (currentMethodLine st)) as [Hpos|Hneg].
      * destruct (flush_Inv i st i HI) as (st' & -> & Hc' & Hs' & Hbl' & Hso' & Hco');
          [lia|].
        simpl. rewrite Hc'. simpl. rewrite Z.ltb_irrefl. simpl.
        eexists. split; [reflexivity|].
        split; simpl; try lia.
        -- intros _. split; [lia|]. split; [done|]. intros; lia.
        -- eapply Forall_impl; [exact Hbl'|]. simpl. tauto.
        -- done.
        -- intros j Hj Hm. destruct (Z.eq_dec j i) as [->|Hne]; [by left|].
           right. apply Hco'; [lia|done].
      * simpl.
        destruct (Z.ltb_spec (currentMethodLine st) 0); [|lia].
        destruct (Z.ltb_spec i (blockStart st)); [lia|]. simpl.
        eexists. split; [reflexivity|].
        split; simpl; try lia.
        -- intros _. split; [lia|]. split; [done|]. intros; lia.
        -- done.
        -- done.
        -- intros j Hj Hm. destruct (Z.eq_dec j i) as [->|Hne]; [by left|].
           right. destruct (Hco j) as [?|?]; [lia|done|lia|done].
    + (* any other line *)
      exists st. split; [done|].
      split; try lia.
      * intros Hpos. destruct (Hcur Hpos) as (? & ? & Hin).
        split; [done|]. split; [done|].
        intros j Hj. destruct (Z.eq_dec j i) as [->|Hne]; [|apply Hin; lia].
        intros l' Hl'. rewrite Hl in Hl'. injection Hl' as <-. done.
      * done.
      * done.
      * intros j Hj Hm. destruct (Z.eq_dec j i) as [->|Hne]; [|apply Hco; [lia|done]].
        destruct Hm as (l' & Hl' & Hm). rewrite Hl in Hl'. injection Hl' as <-.
        unfold is_method in Hm. congruence.
Qed.

Lemma run_Inv n i st :
  Inv lines i st → i + Z.of_nat n = Z.of_nat (List.length lines) →
  ∃ st', run lines n i st = Some st' ∧ Inv lines (Z.of_nat (List.length lines)) st'.
Proof.
  revert i st. induction n as [|n IH]; intros i st HI Hn; simpl.
  - exists st. split; [done|]. replace (Z.of_nat (List.length lines)) with i by lia. done.
  - destruct (step_Inv i st HI) as (st' & -> & HI'); [lia|]. simpl.
    apply IH; [done|lia].
Qed.

Lemma parse_lines_parsed : ∃ bs, parse_lines lines = Some bs ∧ parsed lines bs.
Proof.
  unfold parse_lines.
  destruct (run_Inv (List.length lines) 0 init Inv_init) as (st & -> & HI);
    [lia|].
  simpl.
  destruct (flush_Inv (Z.of_nat (List.length lines)) st (Z.of_nat (List.length lines)) HI) as (st' & Hf & _ & _ & Hbl & Hso & Hco); [lia|].
  rewrite Hf. simpl. exists (blocks st'). split; [done|].
  split.
  - eapply Forall_impl; [exact Hbl|]. simpl. tauto.
  - done.
  - intros j (l & Hl & Hm). apply Hco; [|by exists l].
    apply line_at_lt in Hl. lia.
Qed.


(** *** What [buildBlock] computes, by regions of lines *)

Lemma take_nonblank_length ls : (List.length (take_nonblank ls) ≤ List.length ls)%nat.
Proof. induction ls as [|l r IH]; simpl; [done|]. destruct (is_blank l); simpl; lia. Qed.

Lemma scan_headers_spec n i hs :
  0 ≤ i → i + Z.of_nat n ≤ Z.of_nat (List.length lines) →
  let region := take_nonblank (take n (drop (Z.to_nat i) lines)) in
  scan_headers lines n i hs
  = Some (foldl (λ hs l, add_header l hs) hs region,
          if decide (List.length region = n) then -1
          else i + Z.of_nat (List.length region) + 1).
Proof.
  revert i hs. induction n as [|n IH]; intros i hs Hi Hn; simpl.
  - done.
  - destruct (line_at_in_range lines i) as [l Hl]; [lia|].
    rewrite Hl. simpl. apply line_at_Some in Hl as [_ Hl].
    rewrite (drop_S _ _ _ Hl). simpl.
    destruct (is_blank l) eqn:Hb; simpl.
    + do 2 f_equal. lia.
    + rewrite IH by lia. replace (Z.to_nat (i + 1)) with (S (Z.to_nat i)) by lia.
      f_equal. f_equal.
      repeat case_decide; lia.
Qed.

Lemma after_method_length b :
  methodLine b ≤ endLine b < Z.of_nat (List.length lines) → 0 ≤ methodLine b →
  List.length (after_method lines b) = Z.to_nat (endLine b - methodLine b).
Proof.
  intros ? ?. unfold after_method, slice. rewrite length_take, length_drop.
  lia.
Qed.

Lemma after_method_take_drop b :
  0 ≤ methodLine b ≤ endLine b →
  after_method lines b
  = take (Z.to_nat (endLine b - methodLine b))
         (drop (Z.to_nat (methodLine b + 1)) lines).
Proof. intros ?. unfold after_method, slice. f_equal. lia. Qed.

(** The fields of a block, from the lines of its range. *)
Lemma buildBlock_fields b :
  block_ok lines b →
  (∃ l, line_at lines (methodLine b) = Some l ∧
        parseMethodUrl (trim l) = (method b, url b)) ∧
  headers b = headers_of (header_region lines b) ∧
  body b = trimEnd (join_lines (body_region lines b)).
Proof.
  intros [Hb Hs He (l & Hl & Hm) _ _].
  pose proof (after_method_length b He ltac:(lia)) as Hlen.
  unfold body_region, header_region, headers_of.
  rewrite after_method_take_drop in * by lia.
  unfold buildBlock in Hb. rewrite Hl in Hb. simpl in Hb.
  destruct (parseMethodUrl (trim l)) as [mm u] eqn:Hp.
  destruct (is_empty mm); [done|].
  rewrite scan_headers_spec in Hb by (lia). simpl in Hb.
  set (tail := take _ (drop (Z.to_nat (methodLine b + 1)) lines)) in *.
  set (region := take_nonblank tail) in *.
  pose proof (take_nonblank_length tail) as Hk. fold region in Hk.
  injection Hb as Hb. rewrite <- Hb. simpl.
  split; [by exists l|]. split; [done|].
  case_decide as Hfull.
  - simpl. rewrite drop_ge by lia. done.
  - destruct (Z.ltb_spec 0 (methodLine b + 1 + Z.of_nat (List.length region) + 1));
      [|lia]. simpl.
    destruct (Z.leb_spec (methodLine b + 1 + Z.of_nat (List.length region) + 1)
                (endLine b)) as [Hin|Hout].
    + f_equal. f_equal. unfold slice, tail.
      rewrite skipn_firstn_comm, drop_drop. f_equal; [lia|]. f_equal. lia.
    + rewrite drop_ge by lia. done.
Qed.

End Invariant.

Lemma parseHttpFile_parsed text :
  ∃ bs, parseHttpFile text = Some bs ∧ parsed (split_lines text) bs.
Proof. apply parse_lines_parsed. Qed.

Lemma parsed_block_ok lines bs b : parsed lines bs → b ∈ bs → block_ok lines b.
Proof.
  intros [Hok _ _] Hb. rewrite Forall_forall in Hok. by apply Hok.
Qed.

Lemma sorted_lookup {A} (R : relation A) (l : list A) i j a b :
  StronglySorted R l → (i < j)%nat → l !! i = Some a → l !! j = Some b → R a b.
Proof.
  intros Hs. revert i j. induction Hs as [|x l Hs IH Hx]; intros i j Hij Hi Hj.
  - done.
  - destruct j as [|j]; [lia|]. simpl in Hj. destruct i as [|i]; simpl in Hi.
    + injection Hi as ->. rewrite Forall_forall in Hx. apply Hx.
      by eapply list_elem_of_lookup_2.
    + eapply IH; [|done..]. lia.
Qed.

(** Two blocks at different positions of the result: the earlier one
    ends before the later one starts. *)
Lemma parsed_apart lines bs i j bi bj :
  parsed lines bs → (i < j)%nat → bs !! i = Some bi → bs !! j = Some bj →
  endLine bi < startLine bj.
Proof.
  intros [_ Hs _] Hij Hi Hj. exact (sorted_lookup _ _ _ _ _ _ Hs Hij Hi Hj).
Qed.

(** *** [findRequestAtLine] and the order of the blocks *)

(** C2: every returned block has [startLine <= methodLine <= endLine],
    inside the document; the ranges of two blocks at different
    positions share no line; the blocks come by ascending
    [startLine]. *)
Theorem blocks_ordered text :
  ∃ bs, parseHttpFile text = Some bs ∧
    Forall (λ b, 0 ≤ startLine b ∧ startLine b ≤ methodLine b ∧
                 methodLine b ≤ endLine b ∧
                 endLine b < Z.of_nat (List.length (split_lines text))) bs ∧
    (∀ i j bi bj line, i ≠ j → bs !! i = Some bi → bs !! j = Some bj →
       ¬ (in_range bi line ∧ in_range bj line)) ∧
    (∀ i j bi bj, (i < j)%nat → bs !! i = Some bi → bs !! j = Some bj →
       startLine bi < startLine bj).
Proof.
  destruct (parseHttpFile_parsed text) as (bs & Hp & Hbs).
  exists bs. split; [done|]. split; [|split].
  - apply Forall_forall. intros b Hb.
    destruct (parsed_block_ok _ _ _ Hbs Hb) as [_ ? ? _ _ _]. lia.
  - intros i j bi bj line Hne Hi Hj [[? ?] [? ?]].
    destruct (Nat.lt_total i j) as [Hlt|[?|Hlt]]; [|done|].
    + pose proof (parsed_apart _ _ _ _ _ _ Hbs Hlt Hi Hj). lia.
    + pose proof (parsed_apart _ _ _ _ _ _ Hbs Hlt Hj Hi). lia.
  - intros i j bi bj Hlt Hi Hj.
    pose proof (parsed_apart _ _ _ _ _ _ Hbs Hlt Hi Hj).
    destruct (parsed_block_ok _ _ _ Hbs (list_elem_of_lookup_2 _ _ _ Hi))
      as [_ ? ? _ _ _]. lia.
Qed.

Lemma covers_in_range b line : covers b line = true ↔ in_range b line.
Proof. unfold covers, in_range. rewrite andb_true_iff, !Z.leb_le. done. Qed.

Lemma find_Some bs line b :
  findRequestAtLine bs line = Some b ↔ first_covering bs line b.
Proof.
  induction bs as [|x bs IH]; simpl.
  - split; [done|]. intros (i & Hi & _). done.
  - fold (covers x line). destruct (covers x line) eqn:Hc.
    + apply covers_in_range in Hc. split.
      * intros [= <-]. exists 0%nat. split; [done|]. split; [done|]. intros; lia.
      * intros (i & Hi & Hr & Hfirst). destruct i as [|i].
        -- simpl in Hi. congruence.
        -- exfalso. apply (Hfirst 0%nat x); [lia|done|done].
    + assert (¬ in_range x line) as Hn.
      { rewrite <- covers_in_range. congruence. }
      rewrite IH. split.
      * intros (i & Hi & Hr & Hfirst). exists (S i).
        split; [done|]. split; [done|].
        intros [|j] b' Hj Hb'; simpl in Hb'.
        -- by injection Hb' as <-.
        -- apply (Hfirst j); [lia|done].
      * intros (i & Hi & Hr & Hfirst). destruct i as [|i]; simpl in Hi.
        -- injection Hi as ->. done.
        -- exists i. split; [done|]. split; [done|].
           intros j b' Hj Hb'. apply (Hfirst (S j)); [lia|done].
Qed.

Lemma find_None bs line :
  findRequestAtLine bs line = None ↔ ∀ b, b ∈ bs → ¬ in_range b line.
Proof.
  induction bs as [|x bs IH]; simpl.
  - split; [|done]. intros _ b Hb. inversion Hb.
  - fold (covers x line). destruct (covers x line) eqn:Hc.
    + split; [done|]. intros H. exfalso. apply (H x); [by left|].
      by apply covers_in_range.
    + rewrite IH. split.
      * intros H b [->|Hb]%elem_of_cons; [|by apply H].
        rewrite <- covers_in_range. congruence.
      * intros H b Hb. apply H. by right.
Qed.

(** C9: [findRequestAtLine] returns the first block, in the order of
    the sequence, whose range contains the line, and nothing when no
    range contains it.  On the blocks of a parse, any line of a block's
    range gives that block: its first line (the separator that starts
    it, when there is one) as the others.  A line beyond all the
    ranges gives nothing. *)
Theorem findRequestAtLine_first text :
  ∃ bs, parseHttpFile text = Some bs ∧
    (∀ line b, findRequestAtLine bs line = Some b ↔ first_covering bs line b) ∧
    (∀ line, findRequestAtLine bs line = None ↔
             ∀ b, b ∈ bs → ¬ in_range b line) ∧
    (∀ b line, b ∈ bs → in_range b line → findRequestAtLine bs line = Some b) ∧
    (∀ b, b ∈ bs → findRequestAtLine bs (startLine b) = Some b) ∧
    (∀ line, (∀ b, b ∈ bs → endLine b < line) →
             findRequestAtLine bs line = None).
Proof.
  destruct (parseHttpFile_parsed text) as (bs & Hp & Hbs).
  exists bs. split; [done|].
  assert (∀ b line, b ∈ bs → in_range b line →
                    findRequestAtLine bs line = Some b) as Hin.
  { intros b line [i Hi]%list_elem_of_lookup_1 Hr. apply find_Some.
    exists i. split; [done|]. split; [done|].
    intros j b' Hj Hb' Hr'.
    pose proof (parsed_apart _ _ _ _ _ _ Hbs Hj Hb' Hi).
    unfold in_range in *. lia. }
  split; [|split; [|split; [|split]]].
  - intros line b. apply find_Some.
  - intros line. apply find_None.
  - exact Hin.
  - intros b Hb. apply Hin; [done|].
    destruct (parsed_block_ok _ _ _ Hbs Hb) as [_ ? ? _ _ _].
    unfold in_range. lia.
  - intros line Hbeyond. apply find_None. intros b Hb [_ ?].
    specialize (Hbeyond b Hb). lia.
Qed.


(** *** Bare URLs *)

Ltac use_no_verb H :=
  unfold no_verb, HTTP_METHODS in H;
  repeat match type of H with
         | Forall _ (_ :: _) =>
             let E := fresh "E" in
             apply Forall_cons in H as [E H]; rewrite E
         end.

Lemma looksLikeMethodLine_no_verb t :
  no_verb t → looksLikeMethodLine t = re_http_prefix t.
Proof.
  intros H. unfold looksLikeMethodLine, HTTP_METHODS. simpl. by use_no_verb H.
Qed.

Lemma parseMethodUrl_no_verb t :
  no_verb t →
  parseMethodUrl t = if re_http_prefix t then ("GET", t) else ("", "").
Proof.
  intros H. unfold parseMethodUrl, HTTP_METHODS. simpl. use_no_verb H.
  by rewrite re_http_prefix_startsWith.
Qed.

Lemma re_http_prefix_bare_url t : re_http_prefix t = true ↔ bare_url t.
Proof.
  rewrite re_http_prefix_startsWith, orb_true_iff, !startsWith_iff.
  unfold bare_url. split.
  - intros [[r ->]|[r ->]]; exists r; auto.
  - intros [r [->| ->]]; [left|right]; by exists r.
Qed.

(** C3: a line that starts with no verb passes [looksLikeMethodLine]
    exactly when its trimmed text is [http://] or [https://] and a
    rest; the parse then has a block with this method line, method
    [GET] and the whole trimmed line as URL; otherwise no block has
    this method line. *)
Theorem bare_url_is_get text i l :
  split_lines text !! i = Some l →
  no_verb (trim l) →
  (looksLikeMethodLine (trim l) = true ↔ bare_url (trim l)) ∧
  ∃ bs, parseHttpFile text = Some bs ∧
    (bare_url (trim l) →
       ∃ b, b ∈ bs ∧ methodLine b = Z.of_nat i ∧
            method b = "GET" ∧ url b = trim l) ∧
    (¬ bare_url (trim l) →
       ∀ b, b ∈ bs → methodLine b ≠ Z.of_nat i).
Proof.
  intros Hl Hnv. pose proof (looksLikeMethodLine_no_verb _ Hnv) as Hlook.
  split; [by rewrite Hlook, re_http_prefix_bare_url|].
  destruct (parseHttpFile_parsed text) as (bs & Hp & Hbs).
  exists bs. split; [done|].
  assert (line_at (split_lines text) (Z.of_nat i) = Some l) as Hat.
  { apply line_at_Some. split; [lia|]. by rewrite Nat2Z.id. }
  split.
  - intros Hre%re_http_prefix_bare_url.
    destruct (parsed_complete _ _ Hbs (Z.of_nat i)) as (b & Hb & Hm).
    { exists l. split; [done|]. unfold is_method. congruence. }
    exists b. split; [done|]. split; [done|].
    destruct (buildBlock_fields _ _ (parsed_block_ok _ _ _ Hbs Hb))
      as ((l' & Hl' & Hpm) & _ & _).
    rewrite Hm, Hat in Hl'. injection Hl' as <-.
    rewrite parseMethodUrl_no_verb, Hre in Hpm by done.
    by injection Hpm as <- <-.
  - intros Hre b Hb Hm. apply Hre, re_http_prefix_bare_url.
    destruct (parsed_block_ok _ _ _ Hbs Hb) as [_ _ _ (l' & Hl' & Hml) _ _].
    rewrite Hm, Hat in Hl'. injection Hl' as <-.
    unfold is_method in Hml. congruence.
Qed.

Lemma bare_url_is_get_witness :
  looksLikeMethodLine (trim "  https://httpbin.org/get") = true ∧
  ∃ bs, parseHttpFile "  https://httpbin.org/get" = Some bs ∧
    ∃ b, b ∈ bs ∧ methodLine b = 0 ∧
         method b = "GET" ∧ url b = "https://httpbin.org/get".
Proof.
  destruct (bare_url_is_get "  https://httpbin.org/get" 0
              "  https://httpbin.org/get" eq_refl
              ltac:(repeat constructor))
    as (Hlook & bs & Hp & Hyes & _).
  assert (bare_url (trim "  https://httpbin.org/get")) as Hbare.
  { exists "httpbin.org/get". right. reflexivity. }
  split; [by apply Hlook|].
  exists bs. split; [exact Hp|]. exact (Hyes Hbare).
Defined.


(** *** Header lines *)

Lemma add_header_entry l hs :
  add_header l hs
  = match header_entry l with
    | Some (k, v) => if String.eqb k "__proto__" then hs else <[k := v]> hs
    | None => hs
    end.
Proof. unfold add_header, header_entry. by destruct (0 <? _). Qed.

Lemma add_header_other l hs k :
  ¬ names k l → add_header l hs !! k = hs !! k.
Proof.
  intros Hn. rewrite add_header_entry.
  destruct (header_entry l) as [[k' v]|] eqn:He; [|done].
  destruct (String.eqb k' "__proto__"); [done|].
  apply lookup_insert_ne. intros ->. apply Hn. by exists v.
Qed.

Lemma add_header_proto l hs : add_header l hs !! "__proto__" = hs !! "__proto__".
Proof.
  rewrite add_header_entry.
  destruct (header_entry l) as [[k v]|]; [|done].
  destruct (String.eqb_spec k "__proto__") as [->|Hne]; [done|].
  by apply lookup_insert_ne.
Qed.

Lemma foldl_add_header_other ls hs k :
  Forall (λ l, ¬ names k l) ls →
  foldl (λ hs l, add_header l hs) hs ls !! k = hs !! k.
Proof.
  revert hs. induction ls as [|l ls IH]; intros hs Hf; simpl; [done|].
  apply Forall_cons in Hf as [Hl Hf]. rewrite IH by done.
  by apply add_header_other.
Qed.

Lemma headers_of_last pre l post k v :
  header_entry l = Some (k, v) → String.eqb k "__proto__" = false →
  Forall (λ l', ¬ names k l') post →
  headers_of (pre ++ l :: post) !! k = Some v.
Proof.
  intros He Hk Hpost. unfold headers_of. rewrite foldl_app. simpl.
  rewrite foldl_add_header_other by done.
  rewrite add_header_entry, He, Hk. apply lookup_insert_eq.
Qed.

Lemma headers_of_skip pre l post :
  header_entry l = None → headers_of (pre ++ l :: post) = headers_of (pre ++ post).
Proof.
  intros He. unfold headers_of. rewrite !foldl_app. simpl.
  by rewrite add_header_entry, He.
Qed.

(** No line stores a header named [__proto__]. *)
Lemma headers_of_proto ls : headers_of ls !! "__proto__" = None.
Proof.
  unfold headers_of. generalize (∅ : gmap string string) (lookup_empty (M:=gmap string) (A:=string) "__proto__").
  induction ls as [|l ls IH]; intros hs Hhs; simpl; [done|].
  apply IH. by rewrite add_header_proto.
Qed.

(** The last line wins: in the header region of a returned block, a
    line whose first colon is at an index > 0 gives the header named by
    the trimmed text before the colon the trimmed text after it, unless
    a later line of the region names the same header.  This holds of
    every name but [__proto__]. *)
Lemma headers_last_wins text bs b pre l post k v :
  parseHttpFile text = Some bs → b ∈ bs →
  header_region (split_lines text) b = pre ++ l :: post →
  0 < indexOf ":"%char l →
  k = trim (substring_to (Z.to_nat (indexOf ":"%char l)) l) →
  v = trim (substring_from (Z.to_nat (indexOf ":"%char l + 1)) l) →
  String.eqb k "__proto__" = false →
  Forall (λ l', ¬ names k l') post →
  headers b !! k = Some v.
Proof.
  intros Hp Hb Hreg Hc -> -> Hk Hpost.
  destruct (parseHttpFile_parsed text) as (bs' & Hp' & Hbs).
  rewrite Hp in Hp'. injection Hp' as <-.
  destruct (buildBlock_fields _ _ (parsed_block_ok _ _ _ Hbs Hb)) as (_ & -> & _).
  rewrite Hreg. apply headers_of_last; [|done|done].
  unfold header_entry. apply Z.ltb_lt in Hc. by rewrite Hc.
Qed.

Lemma headers_last_wins_A :
  parseHttpFile doc_A = Some [block_A] ∧ headers block_A !! "A" = Some "2".
Proof.
  assert (parseHttpFile doc_A = Some [block_A]) as Hp by (vm_compute; reflexivity).
  split; [exact Hp|].
  apply (headers_last_wins doc_A [block_A] block_A ["A: 1"] "A: 2" [] "A" "2").
  - exact Hp.
  - apply list_elem_of_singleton. reflexivity.
  - vm_compute. reflexivity.
  - vm_compute. reflexivity.
  - vm_compute. reflexivity.
  - vm_compute. reflexivity.
  - reflexivity.
  - constructor.
Defined.

(** C7, at a document with the header line [__proto__: x] followed by
    [A: 1]: the line is in the header region of the one block, its
    first colon is at index 9 and the trimmed text before it is
    [__proto__], and the block has the header [A] but no header named
    [__proto__]. *)
Theorem proto_header_dropped :
  parseHttpFile doc_proto
  = Some [mkBlock "GET" "http://a.b/" {[ "A" := "1" ]} "" 0 2 0] ∧
  header_region (split_lines doc_proto) block_proto
  = ["__proto__: x"; "A: 1"] ∧
  indexOf ":"%char "__proto__: x" = 9 ∧
  trim (substring_to 9 "__proto__: x") = "__proto__" ∧
  headers block_proto !! "__proto__" = None ∧
  headers block_proto !! "A" = Some "1".
Proof. repeat split; vm_compute; reflexivity. Qed.

(** So the rule that every line with a colon at an index > 0 is stored
    under its name does not hold of all names. *)
Lemma proto_header_not_captured :
  ¬ (∀ text bs b pre l post k v,
       parseHttpFile text = Some bs → b ∈ bs →
       header_region (split_lines text) b = pre ++ l :: post →
       0 < indexOf ":"%char l →
       k = trim (substring_to (Z.to_nat (indexOf ":"%char l)) l) →
       v = trim (substring_from (Z.to_nat (indexOf ":"%char l + 1)) l) →
       Forall (λ l', ¬ names k l') post →
       headers b !! k = Some v).
Proof.
  intros H.
  assert (parseHttpFile doc_proto = Some [block_proto]) as Hp
    by (vm_compute; reflexivity).
  specialize (H doc_proto [block_proto] block_proto [] "__proto__: x"
                ["A: 1"] "__proto__" "x" Hp).
  assert (headers block_proto !! "__proto__" = Some "x") as Hx.
  { apply H.
    - apply list_elem_of_singleton. reflexivity.
    - vm_compute. reflexivity.
    - vm_compute. reflexivity.
    - vm_compute. reflexivity.
    - vm_compute. reflexivity.
    - constructor; [|constructor]. intros [v Hv]. vm_compute in Hv. discriminate. }
  vm_compute in Hx. discriminate.
Qed.

(** *** Regions of a block *)

Lemma take_nonblank_Forall ls :
  Forall (λ l, is_blank l = false) (take_nonblank ls).
Proof.
  induction ls as [|l ls IH]; simpl; [constructor|].
  destruct (is_blank l) eqn:Hb; constructor; done.
Qed.

Lemma take_nonblank_split ls : ∃ rest, ls = take_nonblank ls ++ rest.
Proof.
  induction ls as [|l ls [rest IH]]; simpl.
  - by exists [].
  - destruct (is_blank l).
    + by exists (l :: ls).
    + exists rest. simpl. by f_equal.
Qed.

(** The lines after the method line split into the header region and
    the rest, and the body region is the rest without its first line
    (the blank one). *)
Lemma regions_split lines b :
  ∃ rest, after_method lines b = header_region lines b ++ rest ∧
          body_region lines b = drop 1 rest.
Proof.
  unfold body_region, header_region.
  destruct (take_nonblank_split (after_method lines b)) as [rest Hrest].
  exists rest. split; [done|].
  rewrite Hrest at 2.
  replace (S (List.length (take_nonblank (after_method lines b))))
    with (List.length (take_nonblank (after_method lines b)) + 1)%nat by lia.
  by rewrite drop_app_add.
Qed.

Lemma after_method_lookup lines b k l :
  0 ≤ methodLine b →
  after_method lines b !! k = Some l →
  line_at lines (methodLine b + 1 + Z.of_nat k) = Some l ∧
  methodLine b + 1 + Z.of_nat k ≤ endLine b.
Proof.
  intros Hm. unfold after_method, slice.
  intros [Hl Hk]%lookup_take_Some. rewrite lookup_drop in Hl.
  split; [|lia]. apply line_at_Some. split; [lia|].
  rewrite <- Hl. f_equal. lia.
Qed.

(** C10: in the header region of a returned block, a line without a
    colon, or with its first colon at index 0, adds no header; it is
    not blank, not a separator and not a method line, so the lines
    after it still belong to the region and to the block; the body is
    made of lines after the region only. *)
Theorem colonless_line_ignored text bs b pre l post :
  parseHttpFile text = Some bs → b ∈ bs →
  header_region (split_lines text) b = pre ++ l :: post →
  indexOf ":"%char l ≤ 0 →
  headers b = headers_of (pre ++ post) ∧
  is_blank l = false ∧ is_sep l = false ∧ is_method l = false ∧
  ∃ rest, after_method (split_lines text) b = pre ++ l :: post ++ rest ∧
          body b = trimEnd (join_lines (drop 1 rest)).
Proof.
  intros Hp Hb Hreg Hc.
  destruct (parseHttpFile_parsed text) as (bs' & Hp' & Hbs).
  rewrite Hp in Hp'. injection Hp' as <-.
  pose proof (parsed_block_ok _ _ _ Hbs Hb) as Hok.
  destruct (buildBlock_fields _ _ Hok) as (_ & Hh & Hbody).
  destruct (regions_split (split_lines text) b) as (rest & Hafter & Hbr).
  rewrite Hreg, <- app_assoc in Hafter. simpl in Hafter.
  assert (line_at (split_lines text)
            (methodLine b + 1 + Z.of_nat (List.length pre)) = Some l ∧
          methodLine b + 1 + Z.of_nat (List.length pre) ≤ endLine b)
    as [Hl Hle].
  { apply after_method_lookup; [destruct Hok as [_ ? _ _ _ _]; lia|].
    rewrite Hafter. by apply list_lookup_middle. }
  split; [|split; [|split; [|split]]].
  - rewrite Hh, Hreg. apply headers_of_skip.
    unfold header_entry. destruct (Z.ltb_spec 0 (indexOf ":"%char l)); [lia|done].
  - pose proof (take_nonblank_Forall (after_method (split_lines text) b)) as Hnb.
    fold (header_region (split_lines text) b) in Hnb. rewrite Hreg in Hnb.
    apply Forall_app in Hnb as [_ Hnb]. by apply Forall_cons in Hnb as [? _].
  - apply (ok_inert _ _ Hok (methodLine b + 1 + Z.of_nat (List.length pre)));
      [lia|done].
  - apply (ok_inert _ _ Hok (methodLine b + 1 + Z.of_nat (List.length pre)));
      [lia|done].
  - exists rest. split; [done|]. by rewrite Hbody, Hbr.
Qed.

Lemma colonless_line_ignored_witness :
  parseHttpFile doc_plain = Some [block_plain] ∧
  headers block_plain = headers_of ([] ++ [":x"; "A: 1"]) ∧
  is_blank "no colon here" = false ∧ is_sep "no colon here" = false ∧
  is_method "no colon here" = false ∧
  ∃ rest, after_method (split_lines doc_plain) block_plain
          = [] ++ "no colon here" :: [":x"; "A: 1"] ++ rest ∧
          body block_plain = trimEnd (join_lines (drop 1 rest)).
Proof.
  assert (parseHttpFile doc_plain = Some [block_plain]) as Hp
    by (vm_compute; reflexivity).
  split; [exact Hp|].
  apply (colonless_line_ignored doc_plain [block_plain] block_plain
           [] "no colon here" [":x"; "A: 1"]).
  - exact Hp.
  - apply list_elem_of_singleton. reflexivity.
  - vm_compute. reflexivity.
  - vm_compute. discriminate.
Defined.


(** *** The body *)

Lemma last_char_Some s : s ≠ EmptyString → ∃ c, last_char s = Some c.
Proof.
  induction s as [|d r IH]; [done|]. intros _. simpl.
  destruct r as [|e r']; [by exists d|]. by apply IH.
Qed.

Lemma all_space_last s c :
  all_space s = true → last_char s = Some c → is_space c = true.
Proof.
  induction s as [|d r IH]; simpl; [done|].
  intros [Hd Hr]%andb_true_iff. destruct r as [|e r'].
  - by intros [= <-].
  - by apply IH.
Qed.

Lemma split_lines_nonempty s : split_lines s ≠ [].
Proof.
  destruct s as [|c r]; simpl; [done|].
  destruct (Ascii.eqb c LF); [done|]. by destruct (split_lines r).
Qed.

Lemma split_lines_cons c r :
  split_lines (String c r)
  = if Ascii.eqb c LF then EmptyString :: split_lines r
    else match split_lines r with
         | l :: ls => String c l :: ls
         | [] => [String c EmptyString]
         end.
Proof. reflexivity. Qed.

(** The last line of a text that ends in a character other than white
    space ends in that character. *)
Lemma split_lines_last s c l :
  last (split_lines s) = Some l → last_char s = Some c → is_space c = false →
  last_char l = Some c.
Proof.
  revert l. induction s as [|d r IH]; intros l Hl Hc Hsp; [done|].
  rewrite split_lines_cons in Hl. destruct r as [|e r'].
  - simpl in Hc. injection Hc as ->. simpl in Hl.
    destruct (Ascii.eqb c LF) eqn:E.
    + apply Ascii.eqb_eq in E. subst c. done.
    + simpl in Hl. by injection Hl as <-.
  - change (last_char (String d (String e r'))) with (last_char (String e r')) in Hc.
    pose proof (split_lines_nonempty (String e r')) as Hne.
    destruct (split_lines (String e r')) as [|x xs]; [done|].
    destruct (Ascii.eqb d LF).
    + apply IH; done.
    + destruct xs as [|y xs].
      * simpl in Hl. injection Hl as <-.
        specialize (IH x eq_refl Hc Hsp). simpl.
        destruct x; [done|exact IH].
      * apply IH; done.
Qed.

Lemma last_nonspace_not_blank l c :
  last_char l = Some c → is_space c = false → is_blank l = false.
Proof.
  intros Hl Hc. unfold is_blank. destruct (is_empty (trim l)) eqn:E; [|done].
  apply trim_empty_iff in E. rewrite (all_space_last _ _ E Hl) in Hc. done.
Qed.

(** *** Comment lines *)

Lemma comment_not_method t :
  is_comment t = true →
  looksLikeMethodLine t = false ∧ startsWith "###" t = false.
Proof.
  unfold is_comment, startsWith.
  destruct t as [|[[] [] [] [] [] [] [] []] t]; try done;
    intros H; (split; [reflexivity|]); try reflexivity.
  apply orb_true_iff in H as [H|H]; [|done].
  apply andb_true_iff in H as [_ H]. by apply negb_true_iff in H.
Qed.

(** A comment line leaves the state of the parser as it is: it starts
    no block and ends none. *)
Lemma comment_step lines st i l :
  line_at lines i = Some l → is_comment (trim l) = true →
  step lines st i = Some st.
Proof.
  intros Hl [Hm Hs]%comment_not_method. unfold step. rewrite Hl. simpl.
  by rewrite Hs, Hm.
Qed.

(** C1, at a document with two comment lines in the header region:
    [buildBlock] takes both for header lines. *)
Theorem comment_lines_captured :
  parseHttpFile doc_comment
  = Some [mkBlock "GET" "http://a.b/"
            {[ "# note" := "x"; "// see" := "y"; "B" := "2" ]} "" 0 3 0].
Proof. vm_compute. reflexivity. Qed.

(** *** The scenarios of the test suite *)

Example parse_simple_get :
  parseHttpFile "GET https://example.com/api"
  = Some [mkBlock "GET" "https://example.com/api" ∅ "" 0 0 0].
Proof. vm_compute. reflexivity. Qed.

Example parse_empty : parseHttpFile "" = Some [].
Proof. reflexivity. Qed.

Example parse_two_blocks :
  parseHttpFile doc_two
  = Some [mkBlock "GET" "https://example.com/one" ∅ "" 0 1 1;
          mkBlock "POST" "https://example.com/two"
            {[ "Content-Type" := "application/json" ]} "{key: value}" 3 7 4].
Proof. vm_compute. reflexivity. Qed.

Example find_in_two_blocks :
  ∃ bs, parseHttpFile doc_two = Some bs ∧
    method <$> findRequestAtLine bs 0 = Some "GET" ∧
    method <$> findRequestAtLine bs 1 = Some "GET" ∧
    method <$> findRequestAtLine bs 3 = Some "POST" ∧
    method <$> findRequestAtLine bs 7 = Some "POST" ∧
    findRequestAtLine bs 2 = None ∧
    findRequestAtLine bs 99 = None.
Proof. eexists. split; [vm_compute; reflexivity|]. repeat split. Qed.

End ParserFacts.

(** ** Facts about the executor *)

Module ExecutorFacts.
Import Str StrFacts Executor ExecutorSpec.

Lemma flatten_lookup net h k :
  flatten net h !! k = (λ _, Header_Get net h k) <$> h !! k.
Proof.
  unfold flatten. generalize (Header_Get net h). intros f.
  apply (map_fold_weak_ind (λ r m, r !! k = (λ _, f k) <$> m !! k)).
  - by rewrite !lookup_empty.
  - intros i x m r Hi IH. rewrite !lookup_insert.
    destruct (decide (i = k)) as [->|]; simpl; [done|exact IH].
Qed.

Lemma Execute_rejected net method url body w err :
  new_request_error net method url = Some err →
  Execute net method url body w = (mkResponse 0 None EmptyString 0 err, w).
Proof.
  intros H. unfold Execute, http_NewRequest, mbind, M_bind, time_Now. simpl.
  rewrite H. done.
Qed.

Lemma Execute_unfold net method url body w :
  new_request_error net method url = None →
  Execute net method url body w
  = let req := outgoing net method url body in
    let w1 := mkWorld (clock w + rt_elapsed (round_trip net req)) (sent w ++ [req]) in
    match rt_result (round_trip net req) with
    | inl err => (mkResponse 0 None EmptyString (Milliseconds (elapsed w w1)) err, w1)
    | inr resp =>
        let w2 := mkWorld (clock w1 + body_elapsed resp) (sent w1) in
        (mkResponse (StatusCode resp) (Some (flatten net (Header resp)))
           (body_read resp) (Milliseconds (elapsed w w2)) EmptyString, w2)
    end.
Proof.
  intros H. unfold Execute, http_NewRequest, outgoing, mbind, M_bind, time_Now.
  simpl. rewrite H.
  destruct (is_empty body); simpl;
    unfold client_Do; simpl;
    match goal with |- context [rt_result ?x] => destruct (rt_result x) as [?|resp] end;
    try reflexivity;
    unfold io_ReadAll, body_read; destruct (body_fail resp) as [[? ?]|];
    reflexivity.
Qed.

Lemma Milliseconds_nonneg d : 0 ≤ d → 0 ≤ Milliseconds d.
Proof. intros. unfold Milliseconds. apply Z.quot_pos; lia. Qed.

Lemma elapsed_nonneg w w' : clock w ≤ clock w' → 0 ≤ elapsed w w'.
Proof. unfold elapsed, minDuration, maxDuration. lia. Qed.

(** The duration in numbers: the nanoseconds between the two worlds,
    at most [2 ^ 63 - 1], in whole milliseconds. *)
Lemma Milliseconds_elapsed w w' :
  clock w ≤ clock w' →
  Milliseconds (elapsed w w') = Z.min (clock w' - clock w) (2 ^ 63 - 1) / 1000000.
Proof.
  intros H. unfold Milliseconds, elapsed, minDuration, maxDuration.
  rewrite Z.quot_div_nonneg by lia. f_equal. lia.
Qed.

(** C4: a request with a non-empty body goes out with the header
    [Content-Type: application/json] and the body as payload, whatever
    the body is; a request with an empty body goes out with no payload
    and no header at all.  [Execute] hands the client at most one
    request, and exactly this one when the method and the URL are
    accepted. *)
Theorem Execute_content_type net method url body w :
  canonicalMIMEHeaderKey net "Content-Type" = "Content-Type" →
  ∃ out,
    sent (Execute net method url body w).2 = sent w ++ out ∧
    (new_request_error net method url = None → ∃ req, out = [req]) ∧
    ∀ req, req ∈ out →
      req_method req = (if is_empty method then "GET" else method) ∧
      req_url req = url ∧
      (body ≠ EmptyString →
         req_header req !! "Content-Type" = Some ["application/json"] ∧
         req_body req = Some body) ∧
      (body = EmptyString →
         req_body req = None ∧ req_header req = ∅).
Proof.
  intros Hct.
  destruct (new_request_error net method url) as [err|] eqn:Hnew.
  - exists []. rewrite (Execute_rejected _ _ _ _ _ _ Hnew). simpl.
    split; [by rewrite app_nil_r|]. split; [done|]. intros req Hin. inversion Hin.
  - exists [outgoing net method url body]. rewrite Execute_unfold by done. simpl.
    split; [|split].
    + destruct (rt_result _); done.
    + intros _. by eexists.
    + intros req ->%list_elem_of_singleton. unfold outgoing.
      destruct body as [|c body]; simpl.
      * repeat split; try done.
      * rewrite Hct. split; [done|]. split; [done|]. split; [|done].
        intros _. split; [apply lookup_insert_eq|done].
Qed.

Lemma Execute_content_type_witness :
  ∃ out,
    sent (Execute demo_net "POST" "http://up.test" "not json" (mkWorld 7 [])).2
      = [] ++ out ∧
    (new_request_error demo_net "POST" "http://up.test" = None → ∃ req, out = [req]) ∧
    ∀ req, req ∈ out →
      req_method req = "POST" ∧ req_url req = "http://up.test" ∧
      ("not json" ≠ EmptyString →
         req_header req !! "Content-Type" = Some ["application/json"] ∧
         req_body req = Some "not json") ∧
      ("not json" = EmptyString →
         req_body req = None ∧ req_header req = ∅).
Proof.
  apply (Execute_content_type demo_net "POST" "http://up.test" "not json"
           (mkWorld 7 [])).
  reflexivity.
Defined.


(** C5: when [http.NewRequest] refuses the method or the URL, the
    result carries its message as error, no status and a zero
    duration, and the client is not called.  When the client fails,
    the result carries its message, no status, and as duration the
    time the call took, the nanoseconds the clock advanced (at most
    [2 ^ 63 - 1]) in whole milliseconds, which are not negative; the
    client has been called exactly once. *)
Theorem Execute_failure net method url body w :
  net_ok net →
  let r := (Execute net method url body w).1 in
  let w' := (Execute net method url body w).2 in
  (∀ err, new_request_error net method url = Some err →
     Error r = err ∧ Error r ≠ EmptyString ∧ Status r = 0 ∧ Duration r = 0 ∧
     sent w' = sent w) ∧
  (∀ err, new_request_error net method url = None →
     rt_result (round_trip net (outgoing net method url body)) = inl err →
     Error r = err ∧ Error r ≠ EmptyString ∧ Status r = 0 ∧
     clock w' - clock w
     = rt_elapsed (round_trip net (outgoing net method url body)) ∧
     Duration r = Z.min (clock w' - clock w) (2 ^ 63 - 1) / 1000000 ∧
     0 ≤ Duration r ∧
     sent w' = sent w ++ [outgoing net method url body]).
Proof.
  intros Hok r w'. subst r w'. split.
  - intros err Hnew. rewrite (Execute_rejected _ _ _ _ _ _ Hnew). simpl.
    split; [done|]. split; [|done]. eapply ok_new_request_msg; eauto.
  - intros err Hnew Hrt. rewrite Execute_unfold by done. simpl.
    rewrite Hrt. simpl.
    pose proof (ok_elapsed net Hok (outgoing net method url body)) as Hel.
    split; [done|]. split; [eapply ok_transport_msg; eauto|].
    split; [done|]. split; [lia|]. split; [|split; [|done]].
    + rewrite Milliseconds_elapsed by (simpl; lia). done.
    + apply Milliseconds_nonneg, elapsed_nonneg. simpl. lia.
Qed.

Lemma demo_net_ok : net_ok demo_net.
Proof.
  split; simpl.
  - intros req. destruct (String.eqb _ _); simpl; lia.
  - intros req resp. destruct (String.eqb _ _); simpl; [done|].
    intros [= <-]. simpl. lia.
  - intros m u err. destruct (is_empty u); [|done]. by intros [= <-].
  - intros req err. destruct (String.eqb _ _); simpl; [|done]. by intros [= <-].
  - done.
Defined.

Lemma Execute_failure_witness :
  let r := (Execute demo_net "GET" "http://down.test" "" (mkWorld 7 [])).1 in
  let w' := (Execute demo_net "GET" "http://down.test" "" (mkWorld 7 [])).2 in
  Error r = "connection refused" ∧ Error r ≠ EmptyString ∧ Status r = 0 ∧
  clock w' - 7 = 5000000 ∧
  Duration r = 5 ∧
  0 ≤ Duration r ∧
  sent w' = [mkRequest "GET" "http://down.test" None ∅].
Proof.
  exact (proj2 (Execute_failure demo_net "GET" "http://down.test" ""
                  (mkWorld 7 []) demo_net_ok)
           "connection refused" eq_refl eq_refl).
Defined.

(** C6, as amended: when the client returns a response, whatever its
    status code, the result has no error and the status code of the
    response.  It has one value per header name of the response, the
    one [Header.Get] gives: the first value of a name in canonical
    form.  Its body is what [io.ReadAll] read: the whole payload when
    the read succeeds, the bytes before the failure when it fails,
    and no error is reported then.  Its duration is the time up to
    the end of the read, the nanoseconds the clock advanced (at most
    [2 ^ 63 - 1]) in whole milliseconds. *)
Theorem Execute_response net method url body w resp :
  net_ok net →
  new_request_error net method url = None →
  rt_result (round_trip net (outgoing net method url body)) = inr resp →
  let r := (Execute net method url body w).1 in
  let w' := (Execute net method url body w).2 in
  Error r = EmptyString ∧
  Status r = StatusCode resp ∧
  (∃ hs, Headers r = Some hs ∧ dom hs = dom (Header resp) ∧
         (∀ k, k ∈ dom (Header resp) →
            hs !! k
            = Some match Header resp !! canonicalMIMEHeaderKey net k with
                   | Some (v :: _) => v
                   | _ => EmptyString
                   end) ∧
         (∀ k v vs, Header resp !! k = Some (v :: vs) →
            canonicalMIMEHeaderKey net k = k → hs !! k = Some v)) ∧
  (body_fail resp = None → Body r = body_payload resp) ∧
  (∀ n msg, body_fail resp = Some (n, msg) →
     Body r = substring_to n (body_payload resp)) ∧
  clock w' - clock w
  = rt_elapsed (round_trip net (outgoing net method url body))
    + body_elapsed resp ∧
  Duration r = Z.min (clock w' - clock w) (2 ^ 63 - 1) / 1000000 ∧
  sent w' = sent w ++ [outgoing net method url body].
Proof.
  intros Hok Hnew Hrt r w'. subst r w'. rewrite Execute_unfold by done. simpl.
  rewrite Hrt. simpl.
  pose proof (ok_elapsed net Hok (outgoing net method url body)) as Hel.
  pose proof (ok_body_elapsed net Hok _ _ Hrt) as Hbl.
  split; [done|]. split; [done|]. split; [|split; [|split; [|split; [|split]]]].
  - exists (flatten net (Header resp)). split; [done|].
    assert (∀ k, k ∈ dom (Header resp) →
              flatten net (Header resp) !! k
              = Some match Header resp !! canonicalMIMEHeaderKey net k with
                     | Some (v :: _) => v
                     | _ => EmptyString
                     end) as Hget.
    { intros k [vs Hk]%elem_of_dom. rewrite flatten_lookup, Hk. done. }
    split; [|split; [exact Hget|]].
    + apply set_eq. intros k. rewrite !elem_of_dom, flatten_lookup.
      by rewrite fmap_is_Some.
    + intros k v vs Hk Hcan. rewrite Hget by (apply elem_of_dom; eauto).
      by rewrite Hcan, Hk.
  - unfold body_read. by intros ->.
  - unfold body_read. by intros n msg ->.
  - lia.
  - rewrite Milliseconds_elapsed by (simpl; lia). done.
  - done.
Qed.

Lemma Execute_response_witness :
  let resp := mkHttpResponse 404 {[ "Content-Length" := ["0"; "1"] ]}
                "not here" None 2000000 in
  let r := (Execute demo_net "GET" "http://up.test" "" (mkWorld 7 [])).1 in
  let w' := (Execute demo_net "GET" "http://up.test" "" (mkWorld 7 [])).2 in
  Error r = EmptyString ∧
  Status r = 404 ∧
  (∃ hs, Headers r = Some hs ∧ dom hs = dom (Header resp) ∧
         (∀ k, k ∈ dom (Header resp) →
            hs !! k
            = Some match Header resp !! k with
                   | Some (v :: _) => v
                   | _ => EmptyString
                   end) ∧
         (∀ k v vs, Header resp !! k = Some (v :: vs) →
            k = k → hs !! k = Some v)) ∧
  (body_fail resp = None → Body r = "not here") ∧
  (∀ n msg, body_fail resp = Some (n, msg) →
     Body r = substring_to n "not here") ∧
  clock w' - 7 = 40000000 + 2000000 ∧
  Duration r = Z.min (clock w' - 7) (2 ^ 63 - 1) / 1000000 ∧
  sent w' = [mkRequest "GET" "http://up.test" None ∅].
Proof.
  intros resp.
  apply (Execute_response demo_net "GET" "http://up.test" "" (mkWorld 7 []) resp
           demo_net_ok); reflexivity.
Defined.

(** C6 as it is stated fails on a response with two values for a
    header and on a body whose read fails: the result keeps the first
    value, not the joined ones, and the bytes before the failure as
    body, with no error. *)
Lemma Execute_first_value_partial_body :
  let r := (Execute cookie_net "GET" "http://up.test" "" (mkWorld 0 [])).1 in
  rt_result (round_trip cookie_net (outgoing cookie_net "GET" "http://up.test" ""))
  = inr cookie_response ∧
  Error r = EmptyString ∧
  (∃ hs, Headers r = Some hs ∧ hs !! "Set-Cookie" = Some "a=1" ∧
         ∀ sep, hs !! "Set-Cookie" ≠ Some (join_values sep ["a=1"; "b=2"])) ∧
  Body r = "not" ∧ Body r ≠ body_payload cookie_response.
Proof.
  split; [reflexivity|]. split; [reflexivity|]. split; [|split; [reflexivity|]].
  - eexists. split; [vm_compute; reflexivity|]. split; [reflexivity|].
    intros sep H. cbn [join_values] in H.
    rewrite !app_cons, app_nil_l in H. injection H as H.
    destruct sep; discriminate.
  - simpl. discriminate.
Qed.

Example Execute_refused :
  Execute demo_net "GET" "http://down.test" "" (mkWorld 7 [])
  = (mkResponse 0 None "" 5 "connection refused",
     mkWorld 5000007 [mkRequest "GET" "http://down.test" None ∅]).
Proof. vm_compute. reflexivity. Qed.

Example Execute_malformed :
  Execute demo_net "GET" "" "ignored" (mkWorld 7 [])
  = (mkResponse 0 None "" 0 "empty url", mkWorld 7 []).
Proof. vm_compute. reflexivity. Qed.

Example Execute_404 :
  (Execute demo_net "GET" "http://up.test" "" (mkWorld 7 [])).1
  = mkResponse 404 (Some {[ "Content-Length" := "0" ]}) "not here" 42 "".
Proof. vm_compute. reflexivity. Qed.

End ExecutorFacts.

(** ** More facts about strings *)

Module StrMore.
Import Str StrFacts.

Lemma append_assoc a b c : (a +:+ b) +:+ c = a +:+ (b +:+ c).
Proof.
  induction a as [|d a IH]; [done|]. by rewrite !app_cons, IH.
Qed.

End StrMore.

(** ** More about the blocks of a parse *)

Module ParserMore.
Import Str StrFacts Parser ParserSpec ParserFacts Editor.

(** *** Blocks and method lines *)

(** Two blocks of a parse with a line in common are the same block. *)
Lemma parsed_overlap_eq lines bs b1 b2 line :
  parsed lines bs → b1 ∈ bs → b2 ∈ bs →
  in_range b1 line → in_range b2 line → b1 = b2.
Proof.
  intros Hbs [i Hi]%list_elem_of_lookup_1 [j Hj]%list_elem_of_lookup_1 [? ?] [? ?].
  destruct (Nat.lt_total i j) as [Hlt|[->|Hlt]].
  - pose proof (parsed_apart _ _ _ _ _ _ Hbs Hlt Hi Hj). lia.
  - congruence.
  - pose proof (parsed_apart _ _ _ _ _ _ Hbs Hlt Hj Hi). lia.
Qed.

Lemma block_method_in_range lines b :
  block_ok lines b → in_range b (methodLine b).
Proof. intros [_ ? ? _ _ _]. unfold in_range. lia. Qed.

(** X1: the blocks of a parse are the method lines of the document: a
    line is a method line exactly when a block has it as its
    [methodLine], no two blocks share a method line, and a document
    without a method line gives no block. *)
Theorem blocks_are_method_lines text :
  ∃ bs, parseHttpFile text = Some bs ∧
    (∀ i, method_at (split_lines text) i ↔ ∃ b, b ∈ bs ∧ methodLine b = i) ∧
    (∀ b1 b2, b1 ∈ bs → b2 ∈ bs → methodLine b1 = methodLine b2 → b1 = b2) ∧
    ((∀ i, ¬ method_at (split_lines text) i) → bs = []).
Proof.
  destruct (parseHttpFile_parsed text) as (bs & Hp & Hbs).
  exists bs. split; [done|].
  assert (∀ b, b ∈ bs → method_at (split_lines text) (methodLine b)) as Hsound.
  { intros b Hb. by destruct (parsed_block_ok _ _ _ Hbs Hb). }
  split; [|split].
  - intros i. split.
    + apply (parsed_complete _ _ Hbs).
    + intros (b & Hb & <-). by apply Hsound.
  - intros b1 b2 H1 H2 Hm.
    apply (parsed_overlap_eq _ _ _ _ (methodLine b1) Hbs H1 H2).
    + eapply block_method_in_range, parsed_block_ok; eauto.
    + rewrite Hm. eapply block_method_in_range, parsed_block_ok; eauto.
  - intros Hnone. destruct bs as [|b bs']; [done|].
    exfalso. apply (Hnone (methodLine b)), Hsound. by left.
Qed.

(** *** Method and URL of a block *)

(** Two prefixes of one string: one is a prefix of the other. *)
Lemma prefix_comparable p q t :
  String.prefix p t = true → String.prefix q t = true →
  String.prefix p q = true ∨ String.prefix q p = true.
Proof.
  revert q t. induction p as [|a p IH]; intros q t Hp Hq.
  - left. by destruct q.
  - destruct q as [|b q]; [right; done|].
    destruct t as [|c t]; [done|].
    apply prefix_cons in Hp as [-> Hp]. apply prefix_cons in Hq as [-> Hq].
    destruct (IH q t Hp Hq) as [H|H]; [left|right]; by apply prefix_cons.
Qed.

(** Prefixes of which none is a prefix of the other never both start
    a line. *)
Lemma startsWith_exclusive p q t :
  String.prefix p q = false → String.prefix q p = false →
  startsWith p t = true → startsWith q t = false.
Proof.
  intros Hpq Hqp Hp. destruct (startsWith q t) eqn:Hq; [|done].
  destruct (prefix_comparable p q t Hp Hq); congruence.
Qed.

Ltac exclusive H :=
  match type of H with
  | startsWith ?p ?t = true =>
      repeat match goal with
             | |- context [startsWith ?q t] =>
                 rewrite (startsWith_exclusive p q t eq_refl eq_refl H)
             end
  end.

(** On a line [looksLikeMethodLine] accepts, [parseMethodUrl] returns
    one of the verbs of [HTTP_METHODS] and a URL of the accepted
    shape. *)
Lemma method_line_fields t m u :
  looksLikeMethodLine t = true → parseMethodUrl t = (m, u) →
  m ∈ HTTP_METHODS ∧ re_url_shape u = true.
Proof.
  unfold looksLikeMethodLine, parseMethodUrl, HTTP_METHODS.
  cbn [looksLikeMethodLine_from parseMethodUrl_from].
  rewrite re_http_prefix_startsWith.
  repeat match goal with
  | |- context [startsWith (?v +:+ " ") t] =>
      let E := fresh "E" in
      destruct (startsWith (v +:+ " ") t) eqn:E;
      [ exclusive E; cbn [andb orb];
        match goal with
        | |- context [re_url_shape ?x] => destruct (re_url_shape x) eqn:?
        end; [intros _ [= <- <-]; split; [set_solver|done] | done]
      | cbn [andb] ]
  end.
  intros H. rewrite H. intros [= <- <-]. split; [set_solver|].
  unfold re_url_shape. rewrite re_http_prefix_startsWith, H. done.
Qed.

Lemma after_word_run_split r :
  ∃ w, r = w +:+ after_word_run r ∧ all_word w = true.
Proof.
  induction r as [|c r (w & Hr & Hw)]; [by exists EmptyString|].
  cbn [after_word_run]. destruct (is_word c) eqn:Hc.
  - exists (String c w). rewrite app_cons, <- Hr. split; [done|].
    simpl. by rewrite Hc.
  - by exists EmptyString.
Qed.

Lemma word_dot_word_shape u :
  word_dot_word u = true →
  ∃ w c r, u = w +:+ String "." (String c r) ∧ w ≠ EmptyString ∧
           all_word w = true ∧ is_word c = true.
Proof.
  destruct u as [|c0 r0]; [done|]. cbn [word_dot_word].
  intros [Hc0 H]%andb_true_iff.
  destruct (after_word_run_split r0) as (w & Hr & Hw).
  destruct (after_word_run r0) as [|e [|d rest]] eqn:Ha.
  - done.
  - by destruct e as [[] [] [] [] [] [] [] []].
  - assert (e = "."%char) as ->.
    { by destruct e as [[] [] [] [] [] [] [] []]. }
    exists (String c0 w), d, rest. rewrite app_cons, <- Hr.
    split; [done|]. split; [done|]. split; [|done].
    simpl. by rewrite Hc0.
Qed.

(** What the regular expression of [looksLikeMethodLine] accepts, in
    words. *)
Lemma re_url_shape_literal u : re_url_shape u = true → url_shape u.
Proof.
  unfold re_url_shape, url_shape.
  rewrite re_http_prefix_startsWith, !orb_true_iff, !startsWith_iff.
  intros [[[[H|H]|H]|H]|H]; auto 6.
  right. right. right. right. by apply word_dot_word_shape.
Qed.

(** X2: every block of a parse has one of the seven verbs as method
    and a URL that starts with [http://], [https://], [/] or [{{], or
    with a word, a dot and a word character; the URL is never
    empty. *)
Theorem block_method_and_url text :
  ∃ bs, parseHttpFile text = Some bs ∧
    ∀ b, b ∈ bs →
      method b ∈ HTTP_METHODS ∧ url_shape (url b) ∧
      url b ≠ EmptyString.
Proof.
  destruct (parseHttpFile_parsed text) as (bs & Hp & Hbs).
  exists bs. split; [done|]. intros b Hb.
  pose proof (parsed_block_ok _ _ _ Hbs Hb) as Hok.
  destruct (buildBlock_fields _ _ Hok) as ((l & Hl & Hpm) & _ & _).
  destruct (ok_method _ _ Hok) as (l' & Hl' & Hm).
  rewrite Hl in Hl'. injection Hl' as <-.
  destruct (method_line_fields _ _ _ Hm Hpm) as [? Hu].
  split; [done|]. split; [by apply re_url_shape_literal|].
  intros E. rewrite E in Hu. done.
Qed.


(** *** Where the headers come from *)

Lemma foldl_add_header_is_Some ls hs k :
  is_Some (foldl (λ hs l, add_header l hs) hs ls !! k) ↔
  is_Some (hs !! k) ∨ (k ≠ "__proto__" ∧ ∃ l, l ∈ ls ∧ names k l).
Proof.
  revert hs. induction ls as [|l ls IH]; intros hs; simpl.
  - split; [by left|]. intros [?|(_ & l & Hl & _)]; [done|]. inversion Hl.
  - rewrite IH, add_header_entry. split.
    + intros [H|(Hk & l' & Hl' & Hn)].
      * destruct (header_entry l) as [[k' v]|] eqn:He; [|by left].
        destruct (String.eqb_spec k' "__proto__") as [->|Hp]; [by left|].
        destruct (decide (k' = k)) as [->|Hne].
        -- right. split; [done|]. exists l. split; [by left|]. by exists v.
        -- rewrite lookup_insert_ne in H by done. by left.
      * right. split; [done|]. exists l'. split; [by right|done].
    + intros [H|(Hk & l' & [->|Hl']%elem_of_cons & Hn)].
      * left. destruct (header_entry l) as [[k' v]|]; [|done].
        destruct (String.eqb k' "__proto__"); [done|].
        destruct (decide (k' = k)) as [->|Hne].
        -- rewrite lookup_insert_eq. by eexists.
        -- by rewrite lookup_insert_ne.
      * left. destruct Hn as [v ->].
        destruct (String.eqb_spec k "__proto__") as [?|_]; [done|].
        rewrite lookup_insert_eq. by eexists.
      * right. split; [done|]. by exists l'.
Qed.

(** X3: a block of a parse has a header named [k] exactly when [k]
    is not [__proto__] and a line of its header region names [k]:
    nothing of the method line, of the body or of another block gets
    into the headers, and a line named [__proto__] gives no header. *)
Theorem headers_from_region text :
  ∃ bs, parseHttpFile text = Some bs ∧
    ∀ b k, b ∈ bs →
      (is_Some (headers b !! k) ↔
       k ≠ "__proto__" ∧
       ∃ l, l ∈ header_region (split_lines text) b ∧ names k l).
Proof.
  destruct (parseHttpFile_parsed text) as (bs & Hp & Hbs).
  exists bs. split; [done|]. intros b k Hb.
  destruct (buildBlock_fields _ _ (parsed_block_ok _ _ _ Hbs Hb)) as (_ & -> & _).
  unfold headers_of. rewrite foldl_add_header_is_Some, lookup_empty.
  split; [|by right]. intros [[? ?]|?]; done.
Qed.

(** *** When the body is empty *)

Lemma all_space_app s t :
  all_space (s +:+ t) = all_space s && all_space t.
Proof.
  induction s as [|c s IH]; [done|].
  rewrite app_cons. simpl. rewrite IH. by rewrite andb_assoc.
Qed.

Lemma all_space_join ls :
  all_space (join_lines ls) = true → Forall (λ l, is_blank l = true) ls.
Proof.
  induction ls as [|l ls IH]; [constructor|].
  destruct ls as [|l' ls'].
  - simpl. intros H. constructor; [|constructor]. by apply trim_empty_iff.
  - change (join_lines (l :: l' :: ls'))
      with (l +:+ String LF (join_lines (l' :: ls'))).
    rewrite all_space_app. intros [Hl Hr]%andb_true_iff.
    simpl in Hr. constructor; [by apply trim_empty_iff|]. by apply IH.
Qed.

Lemma trimEnd_empty s : trimEnd s = EmptyString → all_space s = true.
Proof.
  intros H. destruct (trimEnd_split s) as (ws & Hs & Hws).
  rewrite H in Hs. by rewrite Hs.
Qed.

Lemma take_nonblank_all ls :
  Forall (λ l, is_blank l = false) ls → take_nonblank ls = ls.
Proof.
  induction 1 as [|l ls Hl _ IH]; simpl; [done|]. by rewrite Hl, IH.
Qed.

(** The last line of a block that is longer than its method line is
    the last of [after_method]. *)
Lemma after_method_last lines b :
  block_ok lines b → methodLine b < endLine b →
  ∃ l, last (after_method lines b) = Some l ∧ is_blank l = false.
Proof.
  intros Hok Hlt. destruct (ok_last _ _ Hok) as (l & Hl & Hnb).
  exists l. split; [|done].
  pose proof (ok_start _ _ Hok). pose proof (ok_end _ _ Hok).
  rewrite last_lookup, after_method_length by lia.
  unfold after_method, slice. apply lookup_take_Some. split; [|lia].
  rewrite lookup_drop. apply line_at_Some in Hl as [_ Hl].
  rewrite <- Hl. f_equal. lia.
Qed.

(** What follows the header region starts with a blank line. *)
Lemma take_nonblank_rest ls rest :
  ls = take_nonblank ls ++ rest → ∀ l, head rest = Some l → is_blank l = true.
Proof.
  revert rest. induction ls as [|x ls IH]; intros rest; simpl.
  - intros <-. done.
  - destruct (is_blank x) eqn:Hx; simpl.
    + intros <- l [= <-]. done.
    + intros [= H]. by apply IH.
Qed.

(** X4: the body of a block of a parse is empty exactly when no line
    of the block after its method line is blank.  (The block ends on a
    line that is not blank, so a blank line inside it is followed by
    text.) *)
Theorem body_empty_iff text :
  ∃ bs, parseHttpFile text = Some bs ∧
    ∀ b, b ∈ bs →
      (body b = EmptyString ↔
       Forall (λ l, is_blank l = false) (after_method (split_lines text) b)).
Proof.
  destruct (parseHttpFile_parsed text) as (bs & Hp & Hbs).
  exists bs. split; [done|]. intros b Hb.
  pose proof (parsed_block_ok _ _ _ Hbs Hb) as Hok.
  destruct (buildBlock_fields _ _ Hok) as (_ & _ & Hbody).
  destruct (regions_split (split_lines text) b) as (rest & Hafter & Hbr).
  rewrite Hbody, Hbr. split.
  - intros He%trimEnd_empty%all_space_join.
    rewrite Hafter. apply Forall_app. split; [apply take_nonblank_Forall|].
    destruct rest as [|l0 rest]; [constructor|]. exfalso.
    assert (methodLine b < endLine b) as Hlt.
    { pose proof (ok_start _ _ Hok). pose proof (ok_end _ _ Hok).
      pose proof (after_method_length (split_lines text) b
                    ltac:(lia) ltac:(lia)) as Hlen.
      rewrite Hafter, length_app in Hlen. simpl in Hlen. lia. }
    destruct (after_method_last _ _ Hok Hlt) as (l & Hl & Hnb).
    assert (Forall (λ l, is_blank l = true) (l0 :: rest)) as Hall.
    { constructor; [|exact He].
      by apply (take_nonblank_rest _ _ Hafter). }
    rewrite Hafter, last_app_cons in Hl.
    apply last_Some_elem_of in Hl. rewrite Forall_forall in Hall.
    rewrite (Hall l Hl) in Hnb. done.
  - intros Hall. unfold header_region in Hafter.
    rewrite (take_nonblank_all _ Hall) in Hafter.
    rewrite <- (app_nil_r (after_method _ _)) in Hafter at 1.
    apply app_inv_head in Hafter. by subst rest.
Qed.

(** *** The gutter *)

Lemma find_by_methodLine_Some bs i b :
  find_by_methodLine bs i = Some b → b ∈ bs ∧ methodLine b = i.
Proof.
  induction bs as [|x bs IH]; simpl; [done|].
  destruct (Z.eqb_spec (methodLine x) i).
  - intros [= <-]. split; [by left|done].
  - intros [? ?]%IH. split; [by right|done].
Qed.

Lemma find_by_methodLine_None bs i :
  find_by_methodLine bs i = None → ∀ b, b ∈ bs → methodLine b ≠ i.
Proof.
  induction bs as [|x bs IH]; simpl; [intros _ b Hb; inversion Hb|].
  destruct (Z.eqb_spec (methodLine x) i); [done|].
  intros H b [->|Hb]%elem_of_cons; [done|by apply IH].
Qed.

(** X5: on the blocks of a parse, the gutter shows a run button on a
    line exactly when the line is a method line; the block behind the
    button is the one with this method line, and it is the block
    [findRequestAtLine] gives for the same line. *)
Theorem gutter_button text :
  ∃ bs, parseHttpFile text = Some bs ∧
    ∀ i,
      (is_Some (find_by_methodLine bs i) ↔ method_at (split_lines text) i) ∧
      (∀ b, find_by_methodLine bs i = Some b ↔ b ∈ bs ∧ methodLine b = i) ∧
      (∀ b, find_by_methodLine bs i = Some b → findRequestAtLine bs i = Some b).
Proof.
  destruct (parseHttpFile_parsed text) as (bs & Hp & Hbs).
  exists bs. split; [done|]. intros i.
  assert (∀ b, b ∈ bs ∧ methodLine b = i → find_by_methodLine bs i = Some b)
    as Hfind.
  { intros b [Hb Hm].
    destruct (find_by_methodLine bs i) as [b'|] eqn:Hf.
    - apply find_by_methodLine_Some in Hf as [Hb' Hm']. f_equal.
      apply (parsed_overlap_eq _ _ _ _ i Hbs Hb' Hb).
      + rewrite <- Hm'. eapply block_method_in_range, parsed_block_ok; eauto.
      + rewrite <- Hm. eapply block_method_in_range, parsed_block_ok; eauto.
    - exfalso. by apply (find_by_methodLine_None _ _ Hf b). }
  split; [|split].
  - split.
    + intros [b [Hb <-]%find_by_methodLine_Some].
      by destruct (parsed_block_ok _ _ _ Hbs Hb).
    + intros Hm. destruct (parsed_complete _ _ Hbs i Hm) as (b & Hb & Hmb).
      exists b. by apply Hfind.
  - intros b. split; [apply find_by_methodLine_Some|apply Hfind].
  - intros b [Hb Hm]%find_by_methodLine_Some.
    apply find_Some. destruct (list_elem_of_lookup_1 _ _ Hb) as [j Hj].
    assert (in_range b i) as Hr.
    { rewrite <- Hm. eapply block_method_in_range, parsed_block_ok; eauto. }
    exists j. split; [done|]. split; [done|].
    intros j' b' Hlt Hj' Hr'.
    pose proof (parsed_apart _ _ _ _ _ _ Hbs Hlt Hj' Hj).
    unfold in_range in *. lia.
Qed.

End ParserMore.

Module ParserStart.
Import Str StrFacts Parser ParserSpec ParserFacts ParserStartSpec.

Section Start.
Variable lines : list string.

Lemma Inv_start_init : Inv_start lines 0 init.
Proof.
  split; simpl; [by left|]. split; [intros; lia|]. split; [intros; lia|].
  constructor.
Qed.

Lemma flush_Inv_start i st :
  Inv lines i st → Inv_start lines i st →
  ∃ st', flush lines st (i - 1) = Some st' ∧
         Forall (λ b, start_ok lines (startLine b) (methodLine b)) (blocks st').
Proof.
  intros HI (Hs0 & Hsm & Hss & Hbl). pose proof HI as [Hi Hc Hst Hcur _ _ _].
  destruct (Z.lt_ge_cases (currentMethodLine st) 0) as [Hneg|Hpos].
  - exists st. by rewrite flush_none.
  - destruct (Hcur Hpos) as (Hle & Hm & Hin).
    destruct (flush_push lines st (i - 1)) as (b & -> & Hok & Hbs & Hbm & Hbe);
      [lia|lia|done|intros; apply Hin; lia|].
    eexists. split; [reflexivity|]. simpl.
    apply Forall_app. split; [done|]. constructor; [|constructor].
    rewrite Hbs, Hbm.
    destruct (Z.leb_spec 0 (currentMethodLine st)); [|lia].
    split; [|done]. destruct Hs0 as [?|[?|[_ ?]]]; auto.
Qed.

Lemma step_Inv_start i st :
  Inv lines i st → Inv_start lines i st → i < Z.of_nat (List.length lines) →
  ∃ st', step lines st i = Some st' ∧ Inv_start lines (i + 1) st'.
Proof.
  intros HI HS Hlt. pose proof HI as [Hi Hc Hst Hcur _ _ _].
  destruct (line_at_in_range lines i) as [l Hl]; [lia|].
  destruct (flush_Inv_start i st HI HS) as (st' & Hf & Hbl').
  destruct (flush_Inv lines i st i HI) as (st'' & Hf' & Hc' & Hs' & _); [lia|].
  rewrite Hf in Hf'. injection Hf' as <-.
  destruct HS as (Hs0 & Hsm & Hss & Hbl).
  unfold step. rewrite Hl. simpl.
  destruct (startsWith "###" (trim l)) eqn:Hsep.
  - rewrite Hf. simpl. eexists. split; [reflexivity|].
    unfold Inv_start. simpl. rewrite Hc'. simpl.
    split; [right; left; by exists l|]. split; [|split; [intros; lia|done]].
    intros j l' Hj Hl'. assert (j = i) as -> by lia.
    rewrite Hl in Hl'. injection Hl' as <-.
    unfold is_method. by apply sep_not_method.
  - destruct (Z.leb_spec 0 (currentMethodLine st)) as [Hpos|Hneg].
    + destruct (looksLikeMethodLine (trim l)) eqn:Hmeth.
      * rewrite Hf. simpl. rewrite Hc'. simpl. rewrite Z.ltb_irrefl. simpl.
        eexists. split; [reflexivity|]. unfold Inv_start. simpl.
        destruct (Z.leb_spec 0 i); [|lia].
        split; [right; right; lia|]. split; [intros; lia|].
        split; [intros; lia|done].
      * exists st. split; [done|]. unfold Inv_start.
        destruct (Z.leb_spec 0 (currentMethodLine st)); [done|lia].
    + destruct (looksLikeMethodLine (trim l)) eqn:Hmeth.
      * simpl. destruct (Z.ltb_spec (currentMethodLine st) 0); [|lia].
        destruct (Z.ltb_spec i (blockStart st)); [lia|]. simpl.
        eexists. split; [reflexivity|]. unfold Inv_start. simpl.
        destruct (Z.leb_spec 0 i); [|lia].
        split; [|done]. destruct Hs0 as [?|[?|[? ?]]]; [by left|by right; left|lia].
      * exists st. split; [done|]. unfold Inv_start.
        destruct (Z.leb_spec 0 (currentMethodLine st)); [lia|].
        split; [done|]. split; [|split; [|done]].
        -- intros j l' Hj Hl'. destruct (Z.eq_dec j i) as [->|Hne].
           ++ rewrite Hl in Hl'. injection Hl' as <-. done.
           ++ apply (Hsm j); [lia|done].
        -- intros j l' Hj Hl'. destruct (Z.eq_dec j i) as [->|Hne].
           ++ rewrite Hl in Hl'. injection Hl' as <-. done.
           ++ apply (Hss j); [lia|done].
Qed.

Lemma run_Inv_start n i st :
  Inv lines i st → Inv_start lines i st →
  i + Z.of_nat n = Z.of_nat (List.length lines) →
  ∃ st', run lines n i st = Some st' ∧
         Inv lines (Z.of_nat (List.length lines)) st' ∧
         Inv_start lines (Z.of_nat (List.length lines)) st'.
Proof.
  revert i st. induction n as [|n IH]; intros i st HI HS Hn; simpl.
  - exists st. split; [done|].
    replace (Z.of_nat (List.length lines)) with i by lia. done.
  - destruct (step_Inv lines i st HI) as (st' & Hst & HI'); [lia|].
    destruct (step_Inv_start i st HI HS) as (st'' & Hst' & HS'); [lia|].
    rewrite Hst in Hst'. injection Hst' as <-.
    rewrite Hst. simpl. apply IH; [done|done|lia].
Qed.

Lemma parse_lines_start :
  ∃ bs, parse_lines lines = Some bs ∧
        Forall (λ b, start_ok lines (startLine b) (methodLine b)) bs.
Proof.
  unfold parse_lines.
  destruct (run_Inv_start (List.length lines) 0 init (Inv_init lines)
              Inv_start_init) as (st & -> & HI & HS); [lia|].
  simpl.
  destruct (flush_Inv_start _ st HI HS) as (st' & -> & Hbl).
  simpl. by exists (blocks st').
Qed.

End Start.

(** X6: the shape of a block of a parse.  It starts on the first line
    of the document, on a separator line or on its method line; its
    method line is its only method line, a separator is found on its
    first line only, and its last line is not blank. *)
Theorem block_shape text :
  ∃ bs, parseHttpFile text = Some bs ∧
    ∀ b, b ∈ bs →
      (startLine b = 0 ∨
       (∃ l, line_at (split_lines text) (startLine b) = Some l ∧
             is_sep l = true) ∨
       startLine b = methodLine b) ∧
      (∀ j l, startLine b ≤ j ≤ endLine b → j ≠ methodLine b →
              line_at (split_lines text) j = Some l → is_method l = false) ∧
      (∀ j l, startLine b < j ≤ endLine b →
              line_at (split_lines text) j = Some l → is_sep l = false) ∧
      (∃ l, line_at (split_lines text) (endLine b) = Some l ∧
            is_blank l = false).
Proof.
  destruct (parse_lines_start (split_lines text)) as (bs & Hp & Hbs).
  destruct (parseHttpFile_parsed text) as (bs' & Hp' & Hparsed).
  unfold parseHttpFile in Hp'. rewrite Hp in Hp'. injection Hp' as <-.
  exists bs. split; [done|]. intros b Hb.
  rewrite Forall_forall in Hbs. destruct (Hbs b Hb) as (Hs & Hm & Hsep).
  pose proof (parsed_block_ok _ _ _ Hparsed Hb) as Hok.
  destruct (ok_method _ _ Hok) as (lm & Hlm & Hmm).
  split; [done|]. split; [|split].
  - intros j l Hj Hne Hl.
    destruct (Z.lt_ge_cases j (methodLine b)) as [Hlt|Hge].
    + apply (Hm j); [lia|done].
    + by apply (ok_inert _ _ Hok j ltac:(lia)).
  - intros j l Hj Hl.
    destruct (Z.lt_trichotomy j (methodLine b)) as [Hlt|[->|Hgt]].
    + apply (Hsep j); [lia|done].
    + rewrite Hlm in Hl. injection Hl as <-. by apply method_not_sep.
    + by apply (ok_inert _ _ Hok j ltac:(lia)).
  - exact (ok_last _ _ Hok).
Qed.

End ParserStart.

(** ** Where a block ends, and its body *)

Module ParserEnd.
Import Str StrFacts Parser ParserSpec ParserFacts ParserMore.

Section End_.
Variable lines : list string.

(** The lines [flush] steps back over are blank. *)
Lemma trim_trailing_blank n cml e0 e :
  trim_trailing lines n cml e0 = Some e →
  ∀ j l, e < j ≤ e0 → line_at lines j = Some l → is_blank l = true.
Proof.
  revert e0. induction n as [|n IH]; intros e0; simpl.
  - intros [= <-] j l Hj. lia.
  - destruct (Z.ltb_spec cml e0); [|intros [= <-] j l Hj; lia].
    destruct (line_at lines e0) as [l0|] eqn:Hl0; [|done]. simpl.
    destruct (is_blank l0) eqn:Hb; [|intros [= <-] j l Hj; lia].
    intros He j l Hj Hl. destruct (Z.eq_dec j e0) as [->|Hne].
    + congruence.
    + apply (IH _ He j); [lia|done].
Qed.

(** [flush], called before a separator, before a method line or at
    the end of the document, pushes a block that ends where [end_ok]
    says. *)
Lemma flush_end i st :
  Inv lines i st →
  Forall (λ b, end_ok lines (methodLine b) (endLine b)) (blocks st) →
  (∀ l, line_at lines i = Some l → is_sep l = true ∨ is_method l = true) →
  ∃ st', flush lines st (i - 1) = Some st' ∧
         Forall (λ b, end_ok lines (methodLine b) (endLine b)) (blocks st').
Proof.
  intros HI HE Hbound. pose proof HI as [Hi Hc Hst Hcur _ _ _].
  destruct (Z.lt_ge_cases (currentMethodLine st) 0) as [Hneg|Hpos].
  { exists st. by rewrite flush_none. }
  destruct (Hcur Hpos) as (Hle & Hm & Hin).
  unfold flush. destruct (Z.ltb_spec (currentMethodLine st) 0); [lia|].
  destruct (trim_trailing_ok lines (Z.to_nat (i - 1 - currentMethodLine st))
              (currentMethodLine st) (i - 1)) as (e & He & Hr & _); [lia|lia|].
  rewrite He. simpl.
  destruct (buildBlock_total lines (blockStart st) e (currentMethodLine st))
    as (b & Hb & _ & Hbe & Hbm); [done|lia|].
  rewrite Hb. simpl. eexists. split; [reflexivity|]. simpl.
  apply Forall_app. split; [done|]. constructor; [|constructor].
  rewrite Hbm, Hbe. intros j l Hj Hl Hrun.
  destruct (Z.le_gt_cases j (i - 1)) as [Hji|Hji].
  - apply (trim_trailing_blank _ _ _ _ He j); [lia|done].
  - exfalso. pose proof (line_at_lt _ _ _ Hl) as Hlt.
    destruct (line_at_in_range lines i) as [li Hli]; [lia|].
    destruct (Hrun i ltac:(lia) li Hli) as [Hs' Hm'].
    destruct (Hbound li Hli); congruence.
Qed.

Lemma step_end i st :
  Inv lines i st →
  Forall (λ b, end_ok lines (methodLine b) (endLine b)) (blocks st) →
  i < Z.of_nat (List.length lines) →
  ∃ st', step lines st i = Some st' ∧
         Forall (λ b, end_ok lines (methodLine b) (endLine b)) (blocks st').
Proof.
  intros HI HE Hlt. pose proof HI as [Hi _ _ _ _ _ _].
  destruct (line_at_in_range lines i) as [l Hl]; [lia|].
  unfold step. rewrite Hl. simpl.
  destruct (startsWith "###" (trim l)) eqn:Hsep.
  - destruct (flush_end i st HI HE) as (st' & -> & HE').
    { intros l' Hl'. rewrite Hl in Hl'. injection Hl' as <-. by left. }
    simpl. by eexists.
  - destruct (looksLikeMethodLine (trim l)) eqn:Hmeth; [|by exists st].
    destruct (0 <=? currentMethodLine st).
    + destruct (flush_end i st HI HE) as (st' & -> & HE').
      { intros l' Hl'. rewrite Hl in Hl'. injection Hl' as <-. by right. }
      simpl. eexists. split; [reflexivity|]. simpl.
      by destruct (_ && _).
    + simpl. eexists. split; [reflexivity|]. simpl. by destruct (_ && _).
Qed.

Lemma run_end n i st :
  Inv lines i st →
  Forall (λ b, end_ok lines (methodLine b) (endLine b)) (blocks st) →
  i + Z.of_nat n = Z.of_nat (List.length lines) →
  ∃ st', run lines n i st = Some st' ∧
         Inv lines (Z.of_nat (List.length lines)) st' ∧
         Forall (λ b, end_ok lines (methodLine b) (endLine b)) (blocks st').
Proof.
  revert i st. induction n as [|n IH]; intros i st HI HE Hn; simpl.
  - exists st. split; [done|].
    replace (Z.of_nat (List.length lines)) with i by lia. done.
  - destruct (step_Inv lines i st HI) as (st' & Hst & HI'); [lia|].
    destruct (step_end i st HI HE) as (st'' & Hst' & HE'); [lia|].
    rewrite Hst in Hst'. injection Hst' as <-.
    rewrite Hst. simpl. apply IH; [done|done|lia].
Qed.

Lemma parse_lines_end :
  ∃ bs, parse_lines lines = Some bs ∧
        Forall (λ b, end_ok lines (methodLine b) (endLine b)) bs.
Proof.
  unfold parse_lines.
  destruct (run_end (List.length lines) 0 init (Inv_init lines))
    as (st & -> & HI & HE); [constructor|lia|].
  simpl. destruct (flush_end _ st HI HE) as (st' & -> & HE').
  { intros l Hl. apply line_at_lt in Hl. lia. }
  simpl. by exists (blocks st').
Qed.

End End_.

(** *** Lines and line feeds *)

Lemma split_lines_no_LF s : Forall (λ l, no_LF l = true) (split_lines s).
Proof.
  induction s as [|c r IH]; [by repeat constructor|].
  rewrite split_lines_cons. destruct (Ascii.eqb c LF) eqn:Hc.
  - by constructor.
  - destruct (split_lines r) as [|l ls].
    + constructor; [|constructor]. simpl. by rewrite Hc.
    + apply Forall_cons in IH as [Hl Hls]. constructor; [|done].
      simpl. by rewrite Hc, Hl.
Qed.

Lemma split_lines_one x : no_LF x = true → split_lines x = [x].
Proof.
  induction x as [|c x IH]; [done|]. simpl.
  intros [Hc Hx]%andb_true_iff. apply negb_true_iff in Hc.
  by rewrite Hc, IH.
Qed.

Lemma split_lines_app_LF x t :
  no_LF x = true → split_lines (x +:+ String LF t) = x :: split_lines t.
Proof.
  induction x as [|c x IH].
  - intros _. rewrite app_nil_l, split_lines_cons. by rewrite Ascii.eqb_refl.
  - cbn [no_LF]. intros [Hc Hx]%andb_true_iff. apply negb_true_iff in Hc.
    rewrite app_cons, split_lines_cons, Hc, IH by done. done.
Qed.

(** Lines without line feeds are read back from their joined text. *)
Lemma split_lines_join ls :
  ls ≠ [] → Forall (λ l, no_LF l = true) ls →
  split_lines (join_lines ls) = ls.
Proof.
  induction ls as [|x ls IH]; [done|]. intros _ [Hx Hls]%Forall_cons.
  destruct ls as [|y ls]; [by apply split_lines_one|].
  change (join_lines (x :: y :: ls))
    with (x +:+ String LF (join_lines (y :: ls))).
  rewrite split_lines_app_LF by done. f_equal. by apply IH.
Qed.

Lemma no_LF_trimEnd l : no_LF l = true → no_LF (trimEnd l) = true.
Proof.
  induction l as [|c l IH]; [done|]. cbn [no_LF trimEnd].
  intros [Hc Hl]%andb_true_iff.
  destruct (is_space c && is_empty (trimEnd l)); [done|].
  cbn [no_LF]. by rewrite Hc, IH.
Qed.

(** *** [trimEnd] on joined lines *)

Lemma trimEnd_not_blank l : is_blank l = false → is_empty (trimEnd l) = false.
Proof.
  intros Hb. destruct (is_empty (trimEnd l)) eqn:E; [|done].
  apply is_empty_true, trimEnd_empty, trim_empty_iff in E.
  unfold is_blank in Hb. congruence.
Qed.

Lemma trimEnd_app_text a t :
  is_empty (trimEnd t) = false → trimEnd (a +:+ t) = a +:+ trimEnd t.
Proof.
  intros Ht. induction a as [|c a IH]; [by rewrite !app_nil_l|].
  rewrite !app_cons. cbn [trimEnd]. rewrite IH.
  assert (is_empty (a +:+ trimEnd t) = false) as ->.
  { destruct a; [by rewrite app_nil_l|by rewrite app_cons]. }
  by rewrite andb_false_r.
Qed.

Lemma join_lines_snoc_text init z :
  is_empty z = false → is_empty (join_lines (init ++ [z])) = false.
Proof.
  intros Hz. destruct init as [|x init]; [done|].
  destruct (init ++ [z]) as [|y r] eqn:E; [by destruct init|].
  change (join_lines ((x :: init) ++ [z])) with (join_lines (x :: init ++ [z])).
  rewrite E.
  change (join_lines (x :: y :: r)) with (x +:+ String LF (join_lines (y :: r))).
  destruct x; [by rewrite app_nil_l|by rewrite app_cons].
Qed.

(** When the last line has text, [trimEnd] of the joined lines only
    takes the white space at the end of the last line. *)
Lemma trimEnd_join_last init lst :
  is_blank lst = false →
  trimEnd (join_lines (init ++ [lst])) = join_lines (init ++ [trimEnd lst]).
Proof.
  intros Hb. pose proof (trimEnd_not_blank _ Hb) as Hne.
  induction init as [|x init IH]; [done|].
  change ((x :: init) ++ [lst]) with (x :: init ++ [lst]).
  change ((x :: init) ++ [trimEnd lst]) with (x :: init ++ [trimEnd lst]).
  destruct (init ++ [lst]) as [|y r] eqn:E; [by destruct init|].
  destruct (init ++ [trimEnd lst]) as [|y' r'] eqn:E'; [by destruct init|].
  change (join_lines (x :: y :: r)) with (x +:+ String LF (join_lines (y :: r))).
  change (join_lines (x :: y' :: r'))
    with (x +:+ String LF (join_lines (y' :: r'))).
  assert (is_empty (join_lines (y' :: r')) = false) as Hj.
  { rewrite <- E'. by apply join_lines_snoc_text. }
  rewrite trimEnd_app_text.
  - cbn [trimEnd]. rewrite IH, Hj. by rewrite andb_false_r.
  - cbn [trimEnd]. rewrite IH, Hj. by rewrite andb_false_r.
Qed.

(** C8: the body of a returned block has no trailing blank line, and
    nothing but trailing blank lines is taken off.  The block ends on
    a line with text, and every line after it, up to the next
    separator, the next method line or the end of the document, is
    blank.  The body region is what follows the first blank line after
    the method line, up to that end.  The body is the lines of this
    region joined, the last one without the white space at its end:
    the lines before it, blank ones included, are kept as they are. *)
Theorem body_no_trailing_blank text :
  ∃ bs, parseHttpFile text = Some bs ∧
    ∀ b, b ∈ bs →
      nonblank_at (split_lines text) (endLine b) ∧
      (∀ j l, endLine b < j → line_at (split_lines text) j = Some l →
              (∀ i, methodLine b < i ≤ j → inert (split_lines text) i) →
              is_blank l = true) ∧
      (∃ hdr rest,
         after_method (split_lines text) b = hdr ++ rest ∧
         Forall (λ l, is_blank l = false) hdr ∧
         (∀ l, head rest = Some l → is_blank l = true) ∧
         body_region (split_lines text) b = drop 1 rest) ∧
      (body_region (split_lines text) b = [] → body b = EmptyString) ∧
      (∀ init lst, body_region (split_lines text) b = init ++ [lst] →
         is_blank lst = false ∧
         body b = join_lines (init ++ [trimEnd lst]) ∧
         split_lines (body b) = init ++ [trimEnd lst]) ∧
      (body b ≠ EmptyString →
         ∀ l, last (split_lines (body b)) = Some l → is_blank l = false).
Proof.
  destruct (parse_lines_end (split_lines text)) as (bs & Hp & Hend).
  destruct (parseHttpFile_parsed text) as (bs' & Hp' & Hbs).
  unfold parseHttpFile in Hp'. rewrite Hp in Hp'. injection Hp' as <-.
  exists bs. split; [done|]. intros b Hb.
  pose proof (parsed_block_ok _ _ _ Hbs Hb) as Hok.
  destruct (buildBlock_fields _ _ Hok) as (_ & _ & Hbody).
  destruct (regions_split (split_lines text) b) as (rest & Hafter & Hbr).
  rewrite Forall_forall in Hend.
  assert (∀ init lst, body_region (split_lines text) b = init ++ [lst] →
            is_blank lst = false) as Hlst.
  { intros init lst Hreg. rewrite Hbr in Hreg.
    destruct rest as [|r0 rest]; [by destruct init|]. simpl in Hreg.
    rewrite drop_0 in Hreg. subst rest.
    assert (methodLine b < endLine b) as Hlt.
    { pose proof (ok_start _ _ Hok). pose proof (ok_end _ _ Hok).
      pose proof (after_method_length (split_lines text) b
                    ltac:(lia) ltac:(lia)) as Hlen.
      rewrite Hafter, length_app in Hlen. simpl in Hlen. lia. }
    destruct (after_method_last _ _ Hok Hlt) as (l & Hl & Hnb).
    rewrite Hafter in Hl.
    change (r0 :: init ++ [lst]) with ((r0 :: init) ++ [lst]) in Hl.
    rewrite app_assoc, last_snoc in Hl. by injection Hl as ->. }
  split; [exact (ok_last _ _ Hok)|]. split; [exact (Hend b Hb)|].
  split; [|split; [|split]].
  - exists (header_region (split_lines text) b), rest.
    split; [done|]. split; [apply take_nonblank_Forall|].
    split; [|done]. by apply (take_nonblank_rest _ _ Hafter).
  - intros E. by rewrite Hbody, E.
  - intros init lst Hreg. pose proof (Hlst _ _ Hreg) as Hnb.
    split; [done|]. rewrite Hbody, Hreg.
    rewrite trimEnd_join_last by done. split; [done|].
    apply split_lines_join; [by destruct init|].
    assert (Forall (λ l, no_LF l = true) (init ++ [lst])) as Hno.
    { rewrite <- Hreg. unfold body_region, after_method, slice.
      apply Forall_drop, Forall_take, Forall_drop, split_lines_no_LF. }
    apply Forall_app in Hno as [Hi Hl]. apply Forall_app. split; [done|].
    apply Forall_cons in Hl as [Hl _]. constructor; [|constructor].
    by apply no_LF_trimEnd.
  - intros Hne l Hl. destruct (last_char_Some _ Hne) as [c Hc].
    apply (last_nonspace_not_blank l c).
    + eapply split_lines_last; eauto. rewrite Hbody in Hc.
      by apply trimEnd_last in Hc.
    + rewrite Hbody in Hc. by apply trimEnd_last in Hc.
Qed.

End ParserEnd.

(** ** The line of the cursor *)

Module EditorFacts.
Import Str StrFacts StrMore Parser ParserFacts Editor.

(** The lines of the text before a position are lines of the whole
    text, but for the last one, which is the start of a line. *)
Lemma split_lines_before s pos :
  ∃ before p l after,
    split_lines (substring_to pos s) = before ++ [p] ∧
    split_lines s = before ++ l :: after ∧
    String.prefix p l = true.
Proof.
  revert pos. induction s as [|c r IH]; intros pos.
  { exists [], EmptyString, EmptyString, []. by destruct pos. }
  destruct pos as [|n].
  { pose proof (split_lines_nonempty (String c r)) as Hne.
    destruct (split_lines (String c r)) as [|l after] eqn:E; [done|].
    exists [], EmptyString, l, after. cbn [substring_to].
    split; [done|]. split; [done|]. apply prefix_empty. }
  destruct (IH n) as (before & p & l & after & H1 & H2 & Hp).
  cbn [substring_to]. rewrite !split_lines_cons, H1, H2.
  destruct (Ascii.eqb c LF).
  { by exists (EmptyString :: before), p, l, after. }
  destruct before as [|b bs].
  - exists [], (String c p), (String c l), after. cbn [app].
    split; [done|]. split; [done|]. by apply prefix_cons.
  - by exists (String c b :: bs), p, l, after.
Qed.

(** X7: the cursor line is a line of the text, whatever the position:
    the text before the cursor ends in the start of this line, and the
    lines before it are the lines of the whole text before it. *)
Theorem updateCursorLine_spec editorContent pos :
  let cursorLine := updateCursorLine editorContent pos in
  let textBefore := substring_to pos editorContent in
  0 ≤ cursorLine < lineCount editorContent ∧
  ∃ p l,
    line_at (split_lines editorContent) cursorLine = Some l ∧
    line_at (split_lines textBefore) cursorLine = Some p ∧
    last (split_lines textBefore) = Some p ∧
    startsWith p l = true ∧
    take (Z.to_nat cursorLine) (split_lines editorContent)
    = take (Z.to_nat cursorLine) (split_lines textBefore).
Proof.
  cbn zeta. unfold updateCursorLine, lineCount, line_at, startsWith.
  destruct (split_lines_before editorContent pos)
    as (before & p & l & after & -> & -> & Hp).
  rewrite !length_app. cbn [List.length].
  replace (Z.of_nat (List.length before + 1) - 1)
    with (Z.of_nat (List.length before)) by lia.
  rewrite Nat2Z.id.
  split; [lia|]. exists p, l.
  assert ((Z.of_nat (List.length before) <? 0) = false) as ->
    by (apply Z.ltb_ge; lia).
  rewrite !lookup_app_r, Nat.sub_diag by lia.
  rewrite last_snoc, !take_app_length. done.
Qed.

End EditorFacts.

(** ** The escaping *)

Module HighlightFacts.
Import Str StrFacts StrMore Highlight HighlightSpec.

Lemma replace_all_app c rep a b :
  replace_all c rep (a +:+ b) = replace_all c rep a +:+ replace_all c rep b.
Proof.
  induction a as [|d a IH]; [done|].
  rewrite app_cons. simpl. rewrite IH.
  destruct (Ascii.eqb d c); [|by rewrite app_cons].
  by rewrite append_assoc.
Qed.

(** [escapeHtml] works character by character: the four passes do not
    touch what an earlier pass has written. *)
Lemma escapeHtml_cons c s :
  escapeHtml (String c s) = escape_char c +:+ escapeHtml s.
Proof.
  unfold escapeHtml, escape_char. cbn [replace_all].
  destruct (Ascii.eqb c "&") eqn:E1.
  { rewrite !replace_all_app. reflexivity. }
  cbn [replace_all]. destruct (Ascii.eqb c "<") eqn:E2.
  { rewrite !replace_all_app. reflexivity. }
  cbn [replace_all]. destruct (Ascii.eqb c ">") eqn:E3.
  { rewrite !replace_all_app. reflexivity. }
  cbn [replace_all]. destruct (Ascii.eqb c dquote) eqn:E4; reflexivity.
Qed.

Lemma escapeHtml_app a b :
  escapeHtml (a +:+ b) = escapeHtml a +:+ escapeHtml b.
Proof.
  induction a as [|c a IH]; [done|].
  rewrite app_cons, !escapeHtml_cons, IH. by rewrite append_assoc.
Qed.

Lemma occurs_app c a b : occurs c (a +:+ b) = occurs c a || occurs c b.
Proof.
  induction a as [|d a IH]; [done|].
  rewrite app_cons. simpl. rewrite IH. by rewrite orb_assoc.
Qed.

Lemma escape_char_safe c d :
  d = "<"%char ∨ d = ">"%char ∨ d = dquote → occurs d (escape_char c) = false.
Proof.
  intros Hd. unfold escape_char.
  destruct (Ascii.eqb c "&") eqn:E1.
  { destruct Hd as [-> | [-> | ->]]; reflexivity. }
  destruct (Ascii.eqb c "<") eqn:E2.
  { destruct Hd as [-> | [-> | ->]]; reflexivity. }
  destruct (Ascii.eqb c ">") eqn:E3.
  { destruct Hd as [-> | [-> | ->]]; reflexivity. }
  destruct (Ascii.eqb c dquote) eqn:E4.
  { destruct Hd as [-> | [-> | ->]]; reflexivity. }
  simpl. rewrite orb_false_r. destruct Hd as [-> | [-> | ->]]; done.
Qed.

Lemma escapeHtml_no_special s :
  occurs "<" (escapeHtml s) = false ∧
  occurs ">" (escapeHtml s) = false ∧
  occurs dquote (escapeHtml s) = false.
Proof.
  induction s as [|c s (IH1 & IH2 & IH3)]; [done|].
  rewrite escapeHtml_cons, !occurs_app, IH1, IH2, IH3.
  rewrite !escape_char_safe; auto.
Qed.

(** X8: what [escapeHtml] returns holds no [<], no [>] and no double
    quote, whatever the text. *)
Theorem escapeHtml_safe s :
  occurs "<" (escapeHtml s) = false ∧
  occurs ">" (escapeHtml s) = false ∧
  occurs dquote (escapeHtml s) = false.
Proof.
  induction s as [|c s (IH1 & IH2 & IH3)]; [done|].
  rewrite escapeHtml_cons, !occurs_app, IH1, IH2, IH3.
  rewrite !escape_char_safe; auto.
Qed.

Lemma unescape_escape_cons c s :
  unescapeHtml (escape_char c +:+ s) = String c (unescapeHtml s).
Proof.
  unfold escape_char.
  destruct (Ascii.eqb c "&") eqn:E1.
  { apply Ascii.eqb_eq in E1. subst c. reflexivity. }
  destruct (Ascii.eqb c "<") eqn:E2.
  { apply Ascii.eqb_eq in E2. subst c. reflexivity. }
  destruct (Ascii.eqb c ">") eqn:E3.
  { apply Ascii.eqb_eq in E3. subst c. reflexivity. }
  destruct (Ascii.eqb c dquote) eqn:E4.
  { apply Ascii.eqb_eq in E4. subst c. reflexivity. }
  rewrite app_cons, app_nil_l. simpl. by rewrite E1.
Qed.

Lemma unescape_escape s : unescapeHtml (escapeHtml s) = s.
Proof.
  induction s as [|c s IH]; [done|].
  by rewrite escapeHtml_cons, unescape_escape_cons, IH.
Qed.

(** X9: [escapeHtml] loses nothing: two texts with the same escaped
    form are the same text. *)
Theorem escapeHtml_inj a b : escapeHtml a = escapeHtml b → a = b.
Proof.
  intros H. rewrite <- (unescape_escape a), <- (unescape_escape b). by rewrite H.
Qed.

Lemma escapeHtml_inj_witness : "a<b" = "a<b".
Proof. apply (escapeHtml_inj "a<b" "a<b"). reflexivity. Defined.

(** X10: the four passes of [escapeHtml] act as one pass over the
    characters: the escaped form of a text is the escaped forms of its
    parts one after the other, and a character becomes its own entity,
    so that the [&] of an entity written by the first pass is not
    escaped again. *)
Theorem escapeHtml_char_by_char a b c :
  escapeHtml (a +:+ b) = escapeHtml a +:+ escapeHtml b ∧
  escapeHtml (String c a) = escape_char c +:+ escapeHtml a ∧
  escapeHtml (String c EmptyString) = escape_char c.
Proof.
  split; [apply escapeHtml_app|]. split; [apply escapeHtml_cons|].
  rewrite escapeHtml_cons. unfold escape_char.
  by repeat (destruct (Ascii.eqb c _)).
Qed.

(** X11: a text without [&], [<], [>] and double quote is left as it
    is. *)
Theorem escapeHtml_plain a :
  occurs "&" a = false → occurs "<" a = false → occurs ">" a = false →
  occurs dquote a = false → escapeHtml a = a.
Proof.
  induction a as [|c a IH]; [done|]. simpl.
  intros [E1 H1]%orb_false_iff [E2 H2]%orb_false_iff
         [E3 H3]%orb_false_iff [E4 H4]%orb_false_iff.
  rewrite escapeHtml_cons, IH by done.
  unfold escape_char. by rewrite E1, E2, E3, E4.
Qed.

Lemma escapeHtml_plain_witness : escapeHtml "GET /a?b=1" = "GET /a?b=1".
Proof. apply (escapeHtml_plain "GET /a?b=1"); reflexivity. Defined.

End HighlightFacts.

(** ** The markup of one line *)

Module MarkupFacts.
Import Str StrFacts StrMore Parser ParserSpec ParserFacts ParserMore Highlight
  HighlightSpec HighlightFacts Markup.

(** *** Header lines *)




(** *** Method lines *)

Lemma prefix_app_r p t w :
  String.prefix p t = true → String.prefix p (t +:+ w) = true.
Proof.
  revert t. induction p as [|a p IH]; intros t H.
  - apply prefix_empty.
  - destruct t as [|b t]; [done|]. apply prefix_cons in H as [-> H].
    rewrite app_cons. apply prefix_cons. split; [done|]. by apply IH.
Qed.

Lemma trimStart_split s : ∃ ws, s = ws +:+ trimStart s ∧ all_space ws = true.
Proof.
  induction s as [|c r (ws & Hr & Hws)]; [by exists EmptyString|].
  cbn [trimStart]. destruct (is_space c) eqn:Hc.
  - exists (String c ws). rewrite app_cons, <- Hr. split; [done|].
    simpl. by rewrite Hc.
  - by exists EmptyString.
Qed.

Lemma substring_to_app a b : substring_to (String.length a) (a +:+ b) = a.
Proof.
  induction a as [|c a IH]; [by destruct b|].
  rewrite app_cons. cbn [String.length].
  change (substring_to (S (String.length a)) (String c (a +:+ b)))
    with (String c (substring_to (String.length a) (a +:+ b))).
  by rewrite IH.
Qed.

Lemma substring_from_app a b : substring_from (String.length a) (a +:+ b) = b.
Proof.
  induction a as [|c a IH]; [done|].
  rewrite app_cons. cbn [String.length].
  change (substring_from (S (String.length a)) (String c (a +:+ b)))
    with (substring_from (String.length a) (a +:+ b)).
  exact IH.
Qed.

Lemma length_append a b :
  String.length (a +:+ b) = (String.length a + String.length b)%nat.
Proof.
  induction a as [|c a IH]; [done|]. rewrite app_cons. simpl. by rewrite IH.
Qed.

Lemma indexOf_str_cons p c r :
  indexOf_str p (String c r)
  = if String.prefix p (String c r) then 0
    else let k := indexOf_str p r in if k <? 0 then -1 else k + 1.
Proof. reflexivity. Qed.

Lemma indexOf_str_prefix p t : String.prefix p t = true → indexOf_str p t = 0.
Proof.
  intros H. destruct t as [|c r].
  - change (indexOf_str p EmptyString)
      with (if String.prefix p EmptyString then 0 else -1).
    by rewrite H.
  - by rewrite indexOf_str_cons, H.
Qed.

(** The first occurrence of a text that starts with a character other
    than white space is not in the white space before it. *)
Lemma indexOf_str_skip ws c m t :
  all_space ws = true → is_space c = false →
  String.prefix (String c m) t = true →
  indexOf_str (String c m) (ws +:+ t) = Z.of_nat (String.length ws).
Proof.
  intros Hws Hc Ht. induction ws as [|w ws IH].
  - rewrite app_nil_l. by apply indexOf_str_prefix.
  - cbn [all_space] in Hws. apply andb_true_iff in Hws as [Hw Hws].
    rewrite app_cons, indexOf_str_cons.
    destruct (String.prefix (String c m) (String w (ws +:+ t))) eqn:E.
    { apply prefix_cons in E as [-> _]. congruence. }
    rewrite (IH Hws). cbn [String.length].
    destruct (Z.of_nat (String.length ws) <? 0) eqn:E'; lia.
Qed.

Lemma trimEnd_app_space s ws :
  all_space ws = true → trimEnd (s +:+ ws) = trimEnd s.
Proof.
  intros Hws. induction s as [|c s IH].
  - rewrite app_nil_l. by apply trimEnd_all_space.
  - rewrite app_cons. cbn [trimEnd]. by rewrite IH.
Qed.

Lemma trimStart_app_space s ws :
  all_space ws = true → trimEnd (trimStart (s +:+ ws)) = trimEnd (trimStart s).
Proof.
  intros Hws. induction s as [|c s IH].
  - rewrite app_nil_l, trimStart_all_space by done. done.
  - rewrite app_cons. cbn [trimStart]. destruct (is_space c); [done|].
    rewrite <- app_cons. by apply trimEnd_app_space.
Qed.

Lemma verb_head v :
  v ∈ HTTP_METHODS → ∃ c m, v = String c m ∧ is_space c = false.
Proof.
  unfold HTTP_METHODS. rewrite !elem_of_cons, elem_of_nil.
  intros [->|[->|[->|[->|[->|[->|[->|[]]]]]]]]; by eexists _, _.
Qed.

(** The verb the loop of [hlMethodLine] stops at. *)
Lemma hlMethodLine_pick v line :
  v ∈ HTTP_METHODS → startsWith (v +:+ " ") (trimStart line) = true →
  hlMethodLine line
  = escapeHtml (substring_to (Z.to_nat (indexOf_str v line)) line)
    +:+ span "hl-method" v +:+ " "
    +:+ span "hl-url"
          (escapeHtml
             (substring_from
                (Z.to_nat (indexOf_str v line + Z.of_nat (String.length v) + 1))
                line)).
Proof.
  unfold HTTP_METHODS at 1. rewrite !elem_of_cons, elem_of_nil.
  intros [->|[->|[->|[->|[->|[->|[->|[]]]]]]]] H;
    unfold hlMethodLine, HTTP_METHODS; cbn [hlMethodLine_from];
    exclusive H; rewrite H; reflexivity.
Qed.

Lemma hlMethodLine_bare line :
  re_http_prefix (trim line) = true → hlMethodLine line = escapeHtml line.
Proof.
  rewrite re_http_prefix_startsWith. unfold trim.
  destruct (trimEnd_split (trimStart line)) as (ws & Hts & _).
  intros [H|H]%orb_true_iff;
    apply (prefix_app_r _ _ ws) in H; rewrite <- Hts in H;
    fold (startsWith "http://" (trimStart line)) in H;
    fold (startsWith "https://" (trimStart line)) in H;
    unfold hlMethodLine, HTTP_METHODS; cbn [hlMethodLine_from];
    exclusive H; reflexivity.
Qed.

(** On a line with a verb: the parts [hlMethodLine] shows. *)
Lemma hlMethodLine_verb v line :
  v ∈ HTTP_METHODS → startsWith (v +:+ " ") (trim line) = true →
  ∃ pre url,
    line = pre +:+ v +:+ " " +:+ url ∧ all_space pre = true ∧
    trim (substring_from (String.length v + 1) (trim line)) = trim url ∧
    hlMethodLine line
    = escapeHtml pre +:+ span "hl-method" v +:+ " "
      +:+ span "hl-url" (escapeHtml url).
Proof.
  intros Hv H.
  destruct (trimStart_split line) as (pre & Hline & Hpre).
  destruct (trimEnd_split (trimStart line)) as (ws & Hts & Hws).
  fold (trim line) in Hts.
  destruct (prefix_split _ _ H) as [r2 Hr2].
  assert (trimStart line = (v +:+ " ") +:+ (r2 +:+ ws)) as Hstart.
  { rewrite Hts, Hr2. by rewrite append_assoc. }
  assert (startsWith (v +:+ " ") (trimStart line) = true) as H'.
  { rewrite Hts. by apply prefix_app_r. }
  exists pre, (r2 +:+ ws).
  assert (line = pre +:+ v +:+ " " +:+ r2 +:+ ws) as Hl.
  { rewrite Hline at 1. rewrite Hstart. by rewrite append_assoc. }
  split; [done|]. split; [done|]. split.
  - rewrite Hr2.
    replace (String.length v + 1)%nat with (String.length (v +:+ " "))
      by (rewrite length_append; done).
    rewrite substring_from_app. unfold trim.
    by rewrite trimStart_app_space.
  - rewrite (hlMethodLine_pick v line Hv H').
    destruct (verb_head v Hv) as (c & m & Hvm & Hc).
    assert (indexOf_str v line = Z.of_nat (String.length pre)) as ->.
    { rewrite Hl at 1. rewrite Hvm. apply indexOf_str_skip; [done|done|].
      apply prefix_app. }
    rewrite Nat2Z.id.
    replace (Z.to_nat (Z.of_nat (String.length pre)
                       + Z.of_nat (String.length v) + 1))
      with (String.length (pre +:+ v +:+ " "))
      by (rewrite !length_append; simpl; lia).
    assert (line = (pre +:+ v +:+ " ") +:+ r2 +:+ ws) as Hl2.
    { rewrite Hl at 1. by rewrite !append_assoc. }
    rewrite Hl2 at 2. rewrite substring_from_app.
    rewrite Hl at 1. by rewrite substring_to_app.
Qed.

(** What [looksLikeMethodLine] accepts: a verb and a URL, or a bare
    URL. *)
Lemma method_line_cases t :
  looksLikeMethodLine t = true →
  (∃ v, v ∈ HTTP_METHODS ∧ startsWith (v +:+ " ") t = true ∧
        parseMethodUrl t = (v, trim (substring_from (String.length v + 1) t)))
  ∨ (re_http_prefix t = true ∧ parseMethodUrl t = ("GET", t)).
Proof.
  unfold looksLikeMethodLine, parseMethodUrl, HTTP_METHODS.
  cbn [looksLikeMethodLine_from parseMethodUrl_from].
  rewrite re_http_prefix_startsWith.
  repeat match goal with
  | |- context [startsWith (?v +:+ " ") t] =>
      let E := fresh "E" in
      destruct (startsWith (v +:+ " ") t) eqn:E;
      [ intros _; left; exists v; split; [set_solver|]; split; [exact E|];
        reflexivity
      | cbn [andb] ]
  end.
  intros H. right. by rewrite H.
Qed.

(** X13: on a method line, [hlMethodLine] shows what [parseMethodUrl]
    reads.  With a verb, the line is white space, the verb, a space
    and a rest; the verb is marked as method and is the method of the
    block, the rest is marked as URL and its trimmed form is the URL
    of the block.  A bare URL is shown without marks. *)
Theorem hlMethodLine_parts line :
  looksLikeMethodLine (trim line) = true →
  let '(m, u) := parseMethodUrl (trim line) in
  (re_http_prefix (trim line) = true ∧ m = "GET" ∧ u = trim line ∧
   hlMethodLine line = escapeHtml line)
  ∨ (∃ pre url,
       line = pre +:+ m +:+ " " +:+ url ∧ all_space pre = true ∧
       m ∈ HTTP_METHODS ∧ u = trim url ∧
       hlMethodLine line
       = escapeHtml pre +:+ span "hl-method" m +:+ " "
         +:+ span "hl-url" (escapeHtml url)).
Proof.
  intros [(v & Hv & Hs & ->)|[Hb ->]]%method_line_cases.
  - right. destruct (hlMethodLine_verb v line Hv Hs)
      as (pre & url & Hl & Hpre & Hu & Hhl).
    by exists pre, url.
  - left. split; [done|]. split; [done|]. split; [done|].
    by apply hlMethodLine_bare.
Qed.

Lemma hlMethodLine_parts_witness :
  let '(m, u) := parseMethodUrl (trim "  GET http://a.b/x ") in
  (re_http_prefix (trim "  GET http://a.b/x ") = true ∧ m = "GET" ∧
   u = trim "  GET http://a.b/x " ∧
   hlMethodLine "  GET http://a.b/x " = escapeHtml "  GET http://a.b/x ")
  ∨ (∃ pre url,
       "  GET http://a.b/x " = pre +:+ m +:+ " " +:+ url ∧
       all_space pre = true ∧ m ∈ HTTP_METHODS ∧ u = trim url ∧
       hlMethodLine "  GET http://a.b/x "
       = escapeHtml pre +:+ span "hl-method" m +:+ " "
         +:+ span "hl-url" (escapeHtml url)).
Proof. apply (hlMethodLine_parts "  GET http://a.b/x "). reflexivity. Defined.

End MarkupFacts.

(** ** The line classifier *)

Module ClassifyFacts.
Import Str StrFacts StrMore Parser ParserSpec ParserFacts ParserMore Classify ClassifySpec.

Lemma array_get_nat {A} (a : list (option A)) (i : nat) :
  array_get a (Z.of_nat i) = mjoin (a !! i).
Proof.
  unfold array_get. destruct (Z.ltb_spec (Z.of_nat i) 0); [lia|].
  by rewrite Nat2Z.id.
Qed.

Lemma array_set_nat {A} (a : list (option A)) (i : nat) v :
  (i < List.length a)%nat → array_set a (Z.of_nat i) v = <[i := Some v]> a.
Proof.
  intros Hi. unfold array_set.
  destruct (Z.ltb_spec (Z.of_nat i) 0); [lia|].
  destruct (Z.ltb_spec (Z.of_nat i) (Z.of_nat (List.length a))); [|lia].
  by rewrite Nat2Z.id.
Qed.

Lemma line_at_nat lines (i : nat) : line_at lines (Z.of_nat i) = lines !! i.
Proof.
  unfold line_at. destruct (Z.ltb_spec (Z.of_nat i) 0); [lia|].
  by rewrite Nat2Z.id.
Qed.

(** The inner loop, on a run of lines still as the first loop left
    them, replaces the kinds of the run by [kinds_of]. *)
Lemma classify_block_loop_spec lines k (i : nat) pb K :
  (i + k ≤ List.length lines)%nat → List.length K = List.length lines →
  (∀ p l, (p < k)%nat → lines !! (i + p)%nat = Some l →
          K !! (i + p)%nat = Some (Some (line_kind l))) →
  classify_block_loop lines k (Z.of_nat i) pb K
  = Some (take i K ++ (Some <$> kinds_of pb (take k (drop i lines)))
          ++ drop (i + k) K).
Proof.
  revert i pb K. induction k as [|k IH]; intros i pb K Hik HK Hun.
  - simpl. rewrite Nat.add_0_r, take_drop. done.
  - destruct (lookup_lt_is_Some_2 lines i) as [l Hl]; [lia|].
    pose proof (Hun 0%nat l ltac:(lia)) as HKi.
    rewrite Nat.add_0_r in HKi. specialize (HKi Hl).
    rewrite (drop_S _ _ _ Hl). cbn [take kinds_of classify_block_loop].
    rewrite array_get_nat, HKi. cbn [mjoin option_join].
    replace (Z.of_nat i + 1) with (Z.of_nat (S i)) by lia.
    replace (i + S k)%nat with (S i + k)%nat by lia.
    assert (∀ K' : list (option LineKind), (∀ j : nat, (i < j)%nat → K' !! j = K !! j) →
              ∀ p l0, (p < k)%nat → lines !! (S i + p)%nat = Some l0 →
                      K' !! (S i + p)%nat = Some (Some (line_kind l0))) as Hnext.
    { intros K' HK' p l0 Hp Hl0. rewrite HK' by lia.
      replace (S i + p)%nat with (i + S p)%nat in * by lia.
      apply Hun; [lia|done]. }
    destruct (is_sep_or_comment (Some (line_kind l))) eqn:Hsc.
    + rewrite IH; [|lia|done|by apply Hnext].
      f_equal. rewrite (take_S_r _ _ _ HKi), <- app_assoc. done.
    + rewrite line_at_nat, Hl. cbn [mbind option_bind].
      assert (∀ (v : LineKind) (j : nat), (i < j)%nat → <[i := Some v]> K !! j = K !! j) as Hins.
      { intros v j Hj. apply list_lookup_insert_ne. lia. }
      assert (∀ v pb',
        classify_block_loop lines k (Z.of_nat (S i)) pb'
          (array_set K (Z.of_nat i) v)
        = Some (take i K ++ (Some v :: (Some <$> kinds_of pb' (take k (drop (S i) lines))))
                ++ drop (S i + k) K)) as Hstep.
      { intros v pb'. rewrite array_set_nat by lia.
        rewrite IH; [|lia|by rewrite length_insert|by apply Hnext, Hins].
        f_equal.
        rewrite (take_S_r _ _ (Some v)) by (apply list_lookup_insert_eq; lia).
        rewrite take_insert_ge by lia. rewrite drop_insert_lt by lia.
        rewrite <- app_assoc. done. }
      destruct (is_blank l); rewrite Hstep; done.
Qed.


(** Replacing a run of a list: the elements, one by one. *)
Lemma splice_lookup {A} (K X : list A) (i j : nat) :
  (i + List.length X ≤ List.length K)%nat →
  (take i K ++ X ++ drop (i + List.length X) K) !! j
  = if decide (j < i)%nat then K !! j
    else if decide (j < i + List.length X)%nat then X !! (j - i)%nat
    else K !! j.
Proof.
  intros Hlen.
  assert (List.length (take i K) = i) as Hti by (rewrite length_take; lia).
  case_decide as H1.
  - rewrite lookup_app_l by lia. by rewrite lookup_take_lt.
  - rewrite lookup_app_r by lia. rewrite Hti.
    case_decide as H2.
    + by rewrite lookup_app_l by lia.
    + rewrite lookup_app_r by lia. rewrite lookup_drop. f_equal. lia.
Qed.

Lemma splice_length {A} (K X : list A) (i : nat) :
  (i + List.length X ≤ List.length K)%nat →
  List.length (take i K ++ X ++ drop (i + List.length X) K) = List.length K.
Proof.
  intros. rewrite !length_app, length_take, length_drop. lia.
Qed.

Lemma kinds_of_length pb ls : List.length (kinds_of pb ls) = List.length ls.
Proof.
  revert pb. induction ls as [|l ls IH]; intros pb; [done|]. cbn [kinds_of].
  destruct (is_sep_or_comment (Some (line_kind l))); [simpl; by rewrite IH|].
  destruct (is_blank l); simpl; by rewrite IH.
Qed.

Lemma blank_trimStart l : is_blank l = is_empty (trimStart l).
Proof.
  unfold is_blank. destruct (is_empty (trimStart l)) eqn:E.
  - unfold trim. apply is_empty_true in E. by rewrite E.
  - destruct (is_empty (trim l)) eqn:E'; [|done].
    apply trim_empty_iff, trimStart_all_space in E'. by rewrite E' in E.
Qed.

Lemma blank_line_kind l : is_blank l = true → line_kind l = k_blank.
Proof.
  rewrite blank_trimStart. intros E. unfold line_kind.
  apply is_empty_true in E. by rewrite E.
Qed.

Lemma kinds_of_lookup pb ls p l :
  ls !! p = Some l →
  kinds_of pb ls !! p
  = Some (if pb then
            (if is_sep_or_comment (Some (line_kind l)) then line_kind l
             else if is_blank l then k_blank else k_body)
          else kind_in_block ls p l).
Proof.
  revert pb p. induction ls as [|x ls IH]; intros pb p Hp; [done|].
  assert (is_blank x = true → is_sep_or_comment (Some (line_kind x)) = false)
    as Hbx.
  { intros Hx. by rewrite (blank_line_kind _ Hx). }
  destruct p as [|p]; simpl in Hp.
  - injection Hp as ->. unfold kind_in_block. cbn [kinds_of].
    destruct (is_sep_or_comment (Some (line_kind l))) eqn:Hsc; [by destruct pb|].
    cbn [take_nonblank].
    destruct (is_blank l) eqn:Hb; [by destruct pb|]. by destruct pb.
  - cbn [kinds_of].
    destruct (is_sep_or_comment (Some (line_kind x))) eqn:Hsc.
    + cbn [lookup list_lookup]. rewrite (IH _ _ Hp).
      destruct pb; [done|]. unfold kind_in_block. cbn [take_nonblank].
      destruct (is_blank x) eqn:Hx; [by specialize (Hbx eq_refl)|]. done.
    + destruct (is_blank x) eqn:Hx.
      * change ((k_blank :: kinds_of true ls) !! S p) with (kinds_of true ls !! p).
        rewrite (IH _ _ Hp). unfold kind_in_block. cbn [take_nonblank].
        rewrite Hx. by destruct pb.
      * change ((?k :: kinds_of pb ls) !! S p) with (kinds_of pb ls !! p).
        rewrite (IH _ _ Hp). destruct pb; [done|].
        unfold kind_in_block. cbn [take_nonblank]. by rewrite Hx.
Qed.


Section Blocks.
Variable lines : list string.

(** One round of the loop over the blocks, on a block of a parse whose
    lines no earlier round has touched. *)
Lemma classify_block_step b K :
  block_ok lines b → List.length K = List.length lines →
  (∀ j l, (Z.to_nat (methodLine b) ≤ j ≤ Z.to_nat (endLine b))%nat →
          lines !! j = Some l → K !! j = Some (Some (line_kind l))) →
  ∃ K',
    classify_block_loop lines (Z.to_nat (endLine b - methodLine b))
      (methodLine b + 1) false (array_set K (methodLine b) k_method) = Some K' ∧
    List.length K' = List.length lines ∧
    ∀ j l, lines !! j = Some l →
      K' !! j
      = if decide (Z.to_nat (methodLine b) ≤ j ≤ Z.to_nat (endLine b))%nat
        then Some (Some (if decide (j = Z.to_nat (methodLine b)) then k_method
                         else kind_in_block (after_method lines b)
                                (j - S (Z.to_nat (methodLine b))) l))
        else K !! j.
Proof.
  intros Hok HK Hun.
  pose proof (ok_start _ _ Hok) as Hs. pose proof (ok_end _ _ Hok) as He.
  set (m := Z.to_nat (methodLine b)) in *.
  set (e := Z.to_nat (endLine b)) in *.
  assert (methodLine b = Z.of_nat m) as Hm by lia.
  assert (Z.to_nat (endLine b - methodLine b) = (e - m)%nat) as -> by lia.
  assert (methodLine b + 1 = Z.of_nat (S m)) as -> by lia.
  assert (m ≤ e ∧ e < List.length lines)%nat as [Hme Hen] by lia.
  rewrite Hm, array_set_nat by lia.
  assert (after_method lines b = take (e - m) (drop (S m) lines)) as Hafter.
  { rewrite after_method_take_drop by lia. f_equal; [lia|]. f_equal. lia. }
  rewrite classify_block_loop_spec; [|lia|by rewrite length_insert|].
  2:{ intros p l Hp Hl. rewrite list_lookup_insert_ne by lia.
      apply Hun; [lia|done]. }
  rewrite <- Hafter.
  set (X := Some <$> kinds_of false (after_method lines b)).
  assert (List.length X = (e - m)%nat) as HX.
  { unfold X. rewrite length_fmap, kinds_of_length, Hafter, length_take,
      length_drop. lia. }
  rewrite <- HX. eexists. split; [reflexivity|]. split.
  - rewrite splice_length; rewrite length_insert; lia.
  - intros j l Hl. rewrite splice_lookup by (rewrite length_insert; lia).
    rewrite HX. repeat case_decide; try lia.
    + (* j <= m *)
      destruct (decide (j = m)) as [->|Hne].
      * rewrite list_lookup_insert_eq by lia. done.
      * lia.
    + rewrite list_lookup_insert_ne by lia. done.
    + (* m < j <= e *)
      unfold X. rewrite list_lookup_fmap.
      rewrite (kinds_of_lookup false _ _ l).
      * done.
      * rewrite Hafter. rewrite lookup_take_lt by lia. rewrite lookup_drop.
        rewrite <- Hl. f_equal. lia.
    + rewrite list_lookup_insert_ne by lia. done.
Qed.

(** The loop over the blocks, on blocks as a parse returns them. *)
Lemma classify_blocks_spec bs :
  Forall (block_ok lines) bs →
  StronglySorted (λ a b, endLine a < startLine b) bs →
  ∀ K, List.length K = List.length lines →
  (∀ b j l, b ∈ bs → covered b j → lines !! j = Some l →
            K !! j = Some (Some (line_kind l))) →
  ∃ K', classify_blocks lines bs K = Some K' ∧
        List.length K' = List.length lines ∧
        ∀ j l, lines !! j = Some l →
          (∀ b, b ∈ bs → covered b j →
             K' !! j
             = Some (Some (if decide (j = Z.to_nat (methodLine b)) then k_method
                           else kind_in_block (after_method lines b)
                                  (j - S (Z.to_nat (methodLine b))) l))) ∧
          ((∀ b, b ∈ bs → ¬ covered b j) → K' !! j = K !! j).
Proof.
  intros Hok Hso. induction Hso as [|b bs Hso IH Hb]; intros K HK Hun.
  - exists K. split; [done|]. split; [done|]. intros j l Hl.
    split; [intros b Hb; inversion Hb|done].
  - apply Forall_cons in Hok as [Hokb Hok].
    destruct (classify_block_step b K Hokb HK) as (K1 & HK1 & Hlen1 & Hlook1).
    { intros j l Hj Hl. apply (Hun b); [by left|done|done]. }
    assert (∀ b' j, b' ∈ bs → covered b' j → ¬ covered b j) as Hapart.
    { intros b' j Hb' Hj' Hj. rewrite Forall_forall in Hb, Hok.
      specialize (Hb b' Hb'). pose proof (ok_start _ _ (Hok b' Hb')).
      pose proof (ok_start _ _ Hokb). pose proof (ok_end _ _ Hokb).
      unfold covered in *. lia. }
    destruct (IH Hok K1 Hlen1) as (K' & HK' & Hlen' & Hlook').
    { intros b' j l Hb' Hj Hl. rewrite (Hlook1 j l Hl).
      rewrite decide_False by (by apply (Hapart b')).
      apply (Hun b'); [by right|done|done]. }
    exists K'. cbn [classify_blocks]. rewrite HK1. cbn [mbind option_bind].
    split; [done|]. split; [done|]. intros j l Hl.
    destruct (Hlook' j l Hl) as [Hin Hout]. split.
    + intros b' [->|Hb']%elem_of_cons Hj.
      * rewrite Hout by (intros b' Hb' Hj'; by apply (Hapart b' j)).
        rewrite (Hlook1 j l Hl). by rewrite decide_True.
      * by apply Hin.
    + intros Hnone. rewrite Hout by (intros b' Hb'; apply Hnone; by right).
      rewrite (Hlook1 j l Hl). rewrite decide_False; [done|].
      apply Hnone. by left.
Qed.

End Blocks.

(** On the blocks of a parse, any line of a block's range gives the
    block. *)
Lemma find_in_parsed lines bs b line :
  parsed lines bs → b ∈ bs → in_range b line →
  findRequestAtLine bs line = Some b.
Proof.
  intros Hbs [i Hi]%list_elem_of_lookup_1 Hr. apply find_Some.
  exists i. split; [done|]. split; [done|].
  intros j b' Hj Hb' Hr'.
  pose proof (parsed_apart _ _ _ _ _ _ Hbs Hj Hb' Hi).
  unfold in_range in *. lia.
Qed.

(** [classifyLines] on the blocks of the parse of the same text: it
    returns, and the kind of every line is [kind_at]. *)
Lemma classify_parsed text :
  ∃ bs K, parseHttpFile text = Some bs ∧ parsed (split_lines text) bs ∧
    classifyLines text bs = Some K ∧
    List.length K = List.length (split_lines text) ∧
    ∀ i l, split_lines text !! i = Some l →
           K !! i = Some (Some (kind_at (split_lines text) bs i l)).
Proof.
  destruct (parseHttpFile_parsed text) as (bs & Hp & Hbs).
  set (lines := split_lines text) in *.
  set (K0 := Some <$> (line_kind <$> lines)).
  assert (∀ j l, lines !! j = Some l → K0 !! j = Some (Some (line_kind l)))
    as HK0.
  { intros j l Hl. unfold K0. by rewrite !list_lookup_fmap, Hl. }
  destruct (classify_blocks_spec lines bs (parsed_ok _ _ Hbs)
              (parsed_sorted _ _ Hbs) K0) as (K & HK & Hlen & Hlook).
  { unfold K0. by rewrite !length_fmap. }
  { intros b j l _ _ Hl. by apply HK0. }
  exists bs, K. split; [done|]. split; [done|]. split; [exact HK|].
  split; [done|]. intros i l Hl.
  destruct (Hlook i l Hl) as [Hin Hout]. unfold kind_at.
  destruct (findRequestAtLine bs (Z.of_nat i)) as [b|] eqn:Hf.
  - apply find_Some in Hf as (k & Hk & [Hr1 Hr2] & _).
    pose proof (list_elem_of_lookup_2 _ _ _ Hk) as Hb.
    pose proof (parsed_block_ok _ _ _ Hbs Hb) as Hok.
    pose proof (ok_start _ _ Hok) as Hs.
    destruct (Z.ltb_spec (Z.of_nat i) (methodLine b)) as [Hlt|Hge].
    + rewrite Hout; [by apply HK0|].
      intros b' Hb' Hc.
      pose proof (parsed_block_ok _ _ _ Hbs Hb') as Hok'.
      pose proof (ok_start _ _ Hok'). pose proof (ok_end _ _ Hok').
      assert (b' = b) as ->.
      { apply (parsed_overlap_eq _ _ _ _ (Z.of_nat i) Hbs Hb' Hb).
        - unfold in_range, covered in *. lia.
        - by split. }
      unfold covered in Hc. lia.
    + rewrite (Hin b Hb) by (unfold covered; lia).
      destruct (Z.eqb_spec (Z.of_nat i) (methodLine b)) as [He|Hne].
      * rewrite decide_True by lia. done.
      * rewrite decide_False by lia. done.
  - rewrite Hout; [by apply HK0|].
    intros b Hb Hc.
    pose proof (parsed_block_ok _ _ _ Hbs Hb) as Hok.
    pose proof (ok_start _ _ Hok). pose proof (ok_end _ _ Hok).
    rewrite (find_in_parsed _ _ b _ Hbs Hb) in Hf; [done|].
    unfold in_range, covered in *. lia.
Qed.


(** *** The first loop and the tests of the parser *)

Lemma prefix_cons_eq a p b s :
  String.prefix (String a p) (String b s)
  = Ascii.eqb a b && String.prefix p s.
Proof.
  simpl. destruct (ascii_dec a b) as [->|Hne].
  - by rewrite Ascii.eqb_refl.
  - apply Ascii.eqb_neq in Hne. by rewrite Hne.
Qed.

(** A prefix without white space starts a text exactly when it starts
    the text without its trailing white space. *)
Lemma startsWith_trimEnd p t :
  no_space p = true → startsWith p (trimEnd t) = startsWith p t.
Proof.
  unfold startsWith. revert t. induction p as [|c p IH]; intros t Hp.
  - by rewrite !prefix_empty.
  - simpl in Hp. apply andb_true_iff in Hp as [Hc Hp].
    apply negb_true_iff in Hc.
    destruct t as [|d t]; [done|]. cbn [trimEnd].
    destruct (is_space d && is_empty (trimEnd t)) eqn:E.
    + apply andb_true_iff in E as [Hd _].
      rewrite prefix_cons_eq.
      destruct (Ascii.eqb c d) eqn:Hcd; [|done].
      apply Ascii.eqb_eq in Hcd. congruence.
    + rewrite !prefix_cons_eq, IH by done. done.
Qed.

Lemma startsWith_trim p l :
  no_space p = true → startsWith p (trimStart l) = startsWith p (trim l).
Proof. intros Hp. unfold trim. by rewrite startsWith_trimEnd. Qed.

Lemma line_kind_tests l :
  line_kind l
  = if is_sep l then k_separator
    else if is_blank l then k_blank
    else if is_comment (trim l) then k_comment
    else k_text.
Proof.
  unfold line_kind, is_sep, is_comment.
  rewrite !startsWith_trim by done. rewrite <- blank_trimStart.
  destruct (startsWith "###" (trim l)) eqn:E3; [done|].
  destruct (is_blank l); [done|].
  simpl. by rewrite andb_true_r.
Qed.

Lemma line_kind_method l : is_method l = true → line_kind l = k_text.
Proof.
  intros Hm. rewrite line_kind_tests.
  unfold is_sep. rewrite (method_not_sep _ Hm).
  rewrite (method_line_not_blank _ Hm).
  destruct (is_comment (trim l)) eqn:Hc; [|done].
  apply comment_not_method in Hc as [Hc _]. unfold is_method in Hm. congruence.
Qed.


Lemma kind_in_block_cases ls p l :
  kind_in_block ls p l
  = if is_sep l then k_separator
    else if is_blank l then k_blank
    else if is_comment (trim l) then k_comment
    else if (p <? List.length (take_nonblank ls))%nat then k_header
    else k_body.
Proof.
  unfold kind_in_block. rewrite line_kind_tests.
  destruct (is_sep l); [done|]. destruct (is_blank l); [done|].
  by destruct (is_comment (trim l)).
Qed.

(** The kind of a line of a parsed document, by cases. *)
Lemma kind_at_cases text bs i l :
  parsed (split_lines text) bs → split_lines text !! i = Some l →
  kind_at (split_lines text) bs i l
  = if is_method l then k_method
    else if is_sep l then k_separator
    else if is_blank l then k_blank
    else if is_comment (trim l) then k_comment
    else match findRequestAtLine bs (Z.of_nat i) with
         | Some b =>
             if Z.of_nat i <? methodLine b then k_text
             else if (i - S (Z.to_nat (methodLine b))
                      <? List.length (header_region (split_lines text) b))%nat
                  then k_header else k_body
         | None => k_text
         end.
Proof.
  intros Hbs Hl.
  assert (line_at (split_lines text) (Z.of_nat i) = Some l) as Hat
    by (by rewrite line_at_nat).
  unfold kind_at. destruct (is_method l) eqn:Hm.
  - destruct (parsed_complete _ _ Hbs (Z.of_nat i)) as (b & Hb & Hmb);
      [by exists l|].
    rewrite (find_in_parsed _ _ b _ Hbs Hb).
    + rewrite <- Hmb, Z.ltb_irrefl, Z.eqb_refl. done.
    + rewrite <- Hmb. eapply block_method_in_range, parsed_block_ok; eauto.
  - destruct (findRequestAtLine bs (Z.of_nat i)) as [b|] eqn:Hf.
    + apply find_Some in Hf as (k & Hk & _ & _).
      pose proof (list_elem_of_lookup_2 _ _ _ Hk) as Hb.
      pose proof (parsed_block_ok _ _ _ Hbs Hb) as Hok.
      destruct (Z.ltb_spec (Z.of_nat i) (methodLine b)).
      * rewrite line_kind_tests. repeat (destruct (_ : bool); try done).
      * destruct (Z.eqb_spec (Z.of_nat i) (methodLine b)) as [He|Hne].
        -- destruct (ok_method _ _ Hok) as (l' & Hl' & Hm').
           rewrite <- He, Hat in Hl'. injection Hl' as <-. congruence.
        -- rewrite kind_in_block_cases. done.
    + rewrite line_kind_tests. repeat (destruct (_ : bool); try done).
Qed.

(** X14: on the blocks of the parse of the same text [classifyLines]
    returns (no line is read outside the document), with one kind for
    every line of the document and nothing more. *)
Theorem classifyLines_total text :
  ∃ bs K, parseHttpFile text = Some bs ∧ classifyLines text bs = Some K ∧
    List.length K = List.length (split_lines text) ∧
    ∀ i, (i < List.length (split_lines text))%nat →
         ∃ k, K !! i = Some (Some k).
Proof.
  destruct (classify_parsed text) as (bs & K & Hp & _ & HK & Hlen & Hlook).
  exists bs, K. split; [done|]. split; [done|]. split; [done|].
  intros i Hi. destruct (lookup_lt_is_Some_2 _ _ Hi) as [l Hl].
  eexists. by apply Hlook.
Qed.

(** X15: [classifyLines] and the parser agree on what a line is: a
    line is shown as method line, separator, blank line or comment
    exactly when it is a method line for [looksLikeMethodLine], a
    separator for the parser, blank, or a comment line that is none of
    these. *)
Theorem classifyLines_line_tests text :
  ∃ bs K, parseHttpFile text = Some bs ∧ classifyLines text bs = Some K ∧
    ∀ i l, split_lines text !! i = Some l →
      (K !! i = Some (Some k_method) ↔ is_method l = true) ∧
      (K !! i = Some (Some k_separator) ↔ is_sep l = true) ∧
      (K !! i = Some (Some k_blank) ↔ is_blank l = true) ∧
      (K !! i = Some (Some k_comment) ↔ is_comment (trim l) = true).
Proof.
  destruct (classify_parsed text) as (bs & K & Hp & Hbs & HK & Hlen & Hlook).
  exists bs, K. split; [done|]. split; [done|]. intros i l Hl.
  rewrite (Hlook i l Hl), (kind_at_cases _ _ _ _ Hbs Hl).
  destruct (is_method l) eqn:Hm.
  { pose proof (method_not_sep _ Hm) as Hs. fold (is_sep l) in Hs.
    pose proof (method_line_not_blank _ Hm) as Hb.
    assert (is_comment (trim l) = false) as Hc.
    { destruct (is_comment (trim l)) eqn:Hc; [|done].
      apply comment_not_method in Hc as [Hc _]. unfold is_method in Hm.
      congruence. }
    rewrite Hs, Hb, Hc. repeat split; congruence. }
  destruct (is_sep l) eqn:Hs.
  { assert (is_blank l = false ∧ is_comment (trim l) = false) as [Hb Hc].
    { unfold is_sep in Hs. unfold is_blank, is_comment.
      destruct (trim l) as [|c t]; [done|]. rewrite Hs. simpl.
      split; [done|]. rewrite andb_false_r. simpl.
      destruct (startsWith "//" (String c t)) eqn:E; [|done].
      rewrite (startsWith_exclusive "###" "//" _ eq_refl eq_refl Hs) in E.
      done. }
    rewrite Hb, Hc. repeat split; congruence. }
  destruct (is_blank l) eqn:Hb.
  { assert (is_comment (trim l) = false) as Hc.
    { unfold is_blank in Hb. apply is_empty_true in Hb. by rewrite Hb. }
    rewrite Hc. repeat split; congruence. }
  destruct (is_comment (trim l)) eqn:Hc; [repeat split; congruence|].
  destruct (findRequestAtLine bs (Z.of_nat i)) as [b|];
    repeat (destruct (_ <? _)%Z || destruct (_ <? _)%nat);
    repeat split; congruence.
Qed.


(** A line of a block after its method line, by its position. *)
Lemma after_method_at lines b (i : nat) l :
  block_ok lines b → methodLine b < Z.of_nat i ≤ endLine b →
  lines !! i = Some l →
  after_method lines b !! (i - S (Z.to_nat (methodLine b)))%nat = Some l.
Proof.
  intros Hok Hi Hl. pose proof (ok_start _ _ Hok). pose proof (ok_end _ _ Hok).
  rewrite after_method_take_drop by lia.
  rewrite lookup_take_lt by lia. rewrite lookup_drop, <- Hl. f_equal. lia.
Qed.

Lemma header_region_lookup lines b p l :
  header_region lines b !! p = Some l →
  after_method lines b !! p = Some l ∧ is_blank l = false.
Proof.
  intros Hp. destruct (regions_split lines b) as (rest & -> & _). split.
  - by apply lookup_app_l_Some.
  - pose proof (take_nonblank_Forall (after_method lines b)) as Hnb.
    rewrite Forall_forall in Hnb. apply Hnb.
    by eapply list_elem_of_lookup_2.
Qed.

(** X16: a line is shown as header exactly when it is a line of the
    header region of a block and no comment; it is shown as body
    exactly when it is a line of the body region of a block that is
    neither blank nor a comment. *)
Theorem classifyLines_header_body text :
  ∃ bs K, parseHttpFile text = Some bs ∧ classifyLines text bs = Some K ∧
    ∀ i l, split_lines text !! i = Some l →
      (K !! i = Some (Some k_header) ↔
       ∃ b p, b ∈ bs ∧ Z.of_nat i = methodLine b + 1 + Z.of_nat p ∧
              header_region (split_lines text) b !! p = Some l ∧
              is_comment (trim l) = false) ∧
      (K !! i = Some (Some k_body) ↔
       ∃ b p, b ∈ bs ∧
              Z.of_nat i
              = methodLine b + 1
                + Z.of_nat (List.length (header_region (split_lines text) b))
                + 1 + Z.of_nat p ∧
              body_region (split_lines text) b !! p = Some l ∧
              is_blank l = false ∧ is_comment (trim l) = false).
Proof.
  destruct (classify_parsed text) as (bs & K & Hp & Hbs & HK & Hlen & Hlook).
  exists bs, K. split; [done|]. split; [done|]. intros i l Hl.
  rewrite (Hlook i l Hl), (kind_at_cases _ _ _ _ Hbs Hl).
  set (lines := split_lines text) in *.
  assert (line_at lines (Z.of_nat i) = Some l) as Hat by (by rewrite line_at_nat).
  (* a line of a block after its method line *)
  assert (∀ b q, b ∈ bs → Z.of_nat i = methodLine b + 1 + Z.of_nat q →
                 after_method lines b !! q = Some l →
                 is_method l = false ∧ is_sep l = false ∧
                 findRequestAtLine bs (Z.of_nat i) = Some b ∧
                 (i - S (Z.to_nat (methodLine b)))%nat = q) as Hinside.
  { intros b q Hb Hi Hq. pose proof (parsed_block_ok _ _ _ Hbs Hb) as Hok.
    pose proof (ok_start _ _ Hok). pose proof (ok_end _ _ Hok).
    destruct (after_method_lookup lines b q l) as [_ Hle]; [lia|done|].
    destruct (ok_inert _ _ Hok (Z.of_nat i) ltac:(lia) l Hat) as [Hs Hm].
    split; [done|]. split; [done|]. split; [|lia].
    apply (find_in_parsed _ _ _ _ Hbs Hb). unfold in_range. lia. }
  (* the other way round *)
  assert (is_method l = false →
          ∀ b, findRequestAtLine bs (Z.of_nat i) = Some b →
               (Z.of_nat i <? methodLine b) = false →
               b ∈ bs ∧ methodLine b < Z.of_nat i ≤ endLine b) as Hfound.
  { intros Hm b Hf Hlt. apply find_Some in Hf as (k & Hk & [_ Hr] & _).
    pose proof (list_elem_of_lookup_2 _ _ _ Hk) as Hb. split; [done|].
    apply Z.ltb_ge in Hlt. split; [|done].
    destruct (Z.eq_dec (Z.of_nat i) (methodLine b)) as [He|]; [|lia].
    destruct (ok_method _ _ (parsed_block_ok _ _ _ Hbs Hb)) as (l' & Hl' & Hm').
    rewrite <- He, Hat in Hl'. injection Hl' as <-. congruence. }
  split.
  - split.
    + destruct (is_method l) eqn:Hm; [done|].
      destruct (is_sep l); [done|]. destruct (is_blank l); [done|].
      destruct (is_comment (trim l)) eqn:Hc; [done|].
      destruct (findRequestAtLine bs (Z.of_nat i)) as [b|] eqn:Hf; [|done].
      destruct (Z.of_nat i <? methodLine b) eqn:Hlt; [done|].
      destruct (Hfound eq_refl b eq_refl Hlt) as [Hb Hi].
      pose proof (parsed_block_ok _ _ _ Hbs Hb) as Hok.
      pose proof (ok_start _ _ Hok) as Hstart.
      destruct (Nat.ltb_spec (i - S (Z.to_nat (methodLine b)))
                  (List.length (header_region lines b))) as [Hin|]; [|done].
      intros _. exists b, (i - S (Z.to_nat (methodLine b)))%nat.
      split; [done|]. split; [lia|]. split; [|done].
      pose proof (after_method_at lines b i l Hok Hi Hl) as Ha.
      destruct (regions_split lines b) as (rest & Hr & _).
      rewrite Hr, lookup_app_l in Ha by done. done.
    + intros (b & q & Hb & Hi & Hq & Hc).
      destruct (header_region_lookup _ _ _ _ Hq) as [Ha Hnb].
      destruct (Hinside b q Hb Hi Ha) as (-> & -> & -> & ->).
      rewrite Hnb, Hc.
      destruct (Z.ltb_spec (Z.of_nat i) (methodLine b)); [lia|].
      apply lookup_lt_Some in Hq.
      destruct (Nat.ltb_spec q (List.length (header_region lines b)));
        [done|lia].
  - split.
    + destruct (is_method l) eqn:Hm; [done|].
      destruct (is_sep l); [done|]. destruct (is_blank l) eqn:Hnb; [done|].
      destruct (is_comment (trim l)) eqn:Hc; [done|].
      destruct (findRequestAtLine bs (Z.of_nat i)) as [b|] eqn:Hf; [|done].
      destruct (Z.of_nat i <? methodLine b) eqn:Hlt; [done|].
      destruct (Hfound eq_refl b eq_refl Hlt) as [Hb Hi].
      pose proof (parsed_block_ok _ _ _ Hbs Hb) as Hok.
      pose proof (ok_start _ _ Hok) as Hstart.
      destruct (Nat.ltb_spec (i - S (Z.to_nat (methodLine b)))
                  (List.length (header_region lines b))) as [|Hout]; [done|].
      intros _.
      pose proof (after_method_at lines b i l Hok Hi Hl) as Ha.
      destruct (regions_split lines b) as (rest & Hr & Hbr).
      rewrite Hr, lookup_app_r in Ha by done.
      destruct (i - S (Z.to_nat (methodLine b))
                - List.length (header_region lines b))%nat as [|p] eqn:Hpos.
      * pose proof (take_nonblank_rest _ _ Hr l) as Hblank.
        destruct rest as [|x rest]; [done|]. simpl in Ha. injection Ha as ->.
        rewrite Hblank in Hnb; done.
      * exists b, p. split; [done|]. split; [lia|].
        split; [|done]. rewrite Hbr, lookup_drop. done.
    + intros (b & q & Hb & Hi & Hq & Hnb & Hc).
      destruct (regions_split lines b) as (rest & Hr & Hbr).
      rewrite Hbr, lookup_drop in Hq.
      assert (after_method lines b
                !! (List.length (header_region lines b) + (1 + q))%nat = Some l)
        as Ha.
      { rewrite Hr, lookup_app_r by lia. rewrite <- Hq. f_equal. lia. }
      destruct (Hinside b (List.length (header_region lines b) + (1 + q))%nat
                  Hb ltac:(lia) Ha) as (-> & -> & -> & ->).
      rewrite Hnb, Hc.
      destruct (Z.ltb_spec (Z.of_nat i) (methodLine b)); [lia|].
      destruct (Nat.ltb_spec
                  (List.length (header_region lines b) + (1 + q))
                  (List.length (header_region lines b))); [lia|done].
Qed.


Lemma indexOf_zero c s : indexOf c s = 0 → ∃ r, s = String c r.
Proof.
  destruct s as [|d r]; [done|]. cbn [indexOf].
  destruct (Ascii.eqb_spec d c) as [->|_]; [by exists r|].
  destruct (Z.ltb_spec (indexOf c r) 0); [done|lia].
Qed.

(** The name a line gives starts with the first character of the line
    that is no white space, when this one is no colon. *)
Lemma header_key_head l c r :
  trimStart l = String c r → c ≠ ":"%char → 0 < indexOf ":"%char l →
  ∃ r', trim (substring_to (Z.to_nat (indexOf ":"%char l)) l) = String c r'.
Proof.
  revert c r. induction l as [|d l IH]; intros c r; [done|].
  cbn [trimStart indexOf].
  destruct (Ascii.eqb_spec d ":") as [->|Hd]; [by destruct (is_space ":")|].
  destruct (Z.ltb_spec (indexOf ":"%char l) 0) as [|Hk]; [lia|].
  replace (Z.to_nat (indexOf ":"%char l + 1))
    with (S (Z.to_nat (indexOf ":"%char l))) by lia.
  set (n := Z.to_nat (indexOf ":"%char l)).
  change (substring_to (S n) (String d l)) with (String d (substring_to n l)).
  destruct (is_space d) eqn:Hsp.
  - intros Ht Hc _.
    destruct (Z.eq_dec (indexOf ":"%char l) 0) as [H0|Hne].
    { apply indexOf_zero in H0 as [r0 ->]. simpl in Ht. congruence. }
    destruct (IH c r Ht Hc) as [r' Hr']; [lia|].
    exists r'. unfold trim in *. cbn [trimStart]. by rewrite Hsp.
  - intros [= -> ->] Hc _. unfold trim. cbn [trimStart]. rewrite Hsp.
    cbn [trimEnd]. rewrite Hsp. by eexists.
Qed.

(** The name a comment line gives is not [__proto__]. *)
Lemma comment_key_not_proto l k v :
  is_comment (trim l) = true → header_entry l = Some (k, v) →
  k ≠ "__proto__".
Proof.
  unfold is_comment, header_entry. rewrite <- !startsWith_trim by done.
  intros Hc He.
  destruct (Z.ltb_spec 0 (indexOf ":"%char l)) as [Hi|]; [|done].
  injection He as <- _.
  assert (∃ c r, trimStart l = String c r ∧ (c = "#" ∨ c = "/")%char)
    as (c & r & Ht & Hcc).
  { unfold startsWith in Hc. destruct (trimStart l) as [|c r]; [done|].
    exists c, r. split; [done|].
    apply orb_true_iff in Hc as [[H _]%andb_true_iff|H];
      apply prefix_cons in H as [<- _]; auto. }
  destruct (header_key_head l c r Ht) as [r' ->]; [|done|].
  - by destruct Hcc as [-> | ->].
  - by destruct Hcc as [-> | ->].
Qed.

(** X17: a comment line with a colon in the header region of a block:
    [classifyLines] shows it as a comment, [buildBlock] has stored it
    as a header. *)
Theorem comment_shown_but_stored text bs b pre l post k v :
  parseHttpFile text = Some bs → b ∈ bs →
  header_region (split_lines text) b = pre ++ l :: post →
  is_comment (trim l) = true → header_entry l = Some (k, v) →
  is_Some (headers b !! k) ∧
  ∃ K, classifyLines text bs = Some K ∧
       K !! (Z.to_nat (methodLine b) + 1 + List.length pre)%nat
       = Some (Some k_comment).
Proof.
  intros Hp Hb Hreg Hc He.
  destruct (classify_parsed text) as (bs' & K & Hp' & Hbs & HK & Hlen & Hlook).
  rewrite Hp in Hp'. injection Hp' as <-.
  pose proof (parsed_block_ok _ _ _ Hbs Hb) as Hok.
  pose proof (ok_start _ _ Hok) as Hs.
  split.
  - destruct (buildBlock_fields _ _ Hok) as (_ & -> & _).
    unfold headers_of. apply foldl_add_header_is_Some. right.
    split; [by apply (comment_key_not_proto l k v)|].
    exists l. split; [|by exists v]. rewrite Hreg.
    apply elem_of_app. right. by left.
  - exists K. split; [done|].
    assert (header_region (split_lines text) b !! List.length pre = Some l)
      as Hq by (rewrite Hreg; by apply list_lookup_middle).
    destruct (header_region_lookup _ _ _ _ Hq) as [Ha Hnb].
    destruct (after_method_lookup (split_lines text) b (List.length pre) l
                ltac:(lia) Ha) as [Hat Hle].
    assert (split_lines text !! (Z.to_nat (methodLine b) + 1 + List.length pre)%nat
            = Some l) as Hl.
    { rewrite <- line_at_nat, <- Hat. f_equal. lia. }
    rewrite (Hlook _ l Hl), (kind_at_cases _ _ _ _ Hbs Hl).
    destruct (ok_inert _ _ Hok
                (methodLine b + 1 + Z.of_nat (List.length pre))
                ltac:(lia) l Hat) as [-> ->].
    by rewrite Hnb, Hc.
Qed.

Lemma comment_shown_but_stored_witness :
  is_Some (headers block_comment !! "# note") ∧
  ∃ K, classifyLines doc_comment [block_comment] = Some K ∧
       K !! (Z.to_nat (methodLine block_comment) + 1
             + List.length (@nil string))%nat
       = Some (Some k_comment).
Proof.
  apply (comment_shown_but_stored doc_comment [block_comment] block_comment
           [] "# note: x" ["// see: y"; "B: 2"] "# note" "x").
  - vm_compute. reflexivity.
  - apply list_elem_of_singleton. reflexivity.
  - vm_compute. reflexivity.
  - vm_compute. reflexivity.
  - vm_compute. reflexivity.
Defined.

End ClassifyFacts.

(** ** The highlighter *)

Module SyntaxFacts.
Import Str StrFacts StrMore Parser ParserSpec ParserFacts Highlight HighlightSpec
  HighlightFacts Markup MarkupFacts Classify ClassifySpec ClassifyFacts
  Syntax SyntaxSpec.

Lemma append_nil_r s : s +:+ EmptyString = s.
Proof. induction s as [|c s IH]; [done|]. by rewrite app_cons, IH. Qed.

Lemma markup_app a b : markup a → markup b → markup (a +:+ b).
Proof.
  intros Ha Hb. induction Ha as [|s rest Hs _ IH|t rest Ht _ IH].
  - by rewrite app_nil_l.
  - rewrite append_assoc. by apply markup_text.
  - rewrite append_assoc. by apply markup_tag.
Qed.

Lemma markup_plain s : no_angle s = true → markup s.
Proof.
  intros H. rewrite <- (append_nil_r s). apply markup_text; [done|constructor].
Qed.

Lemma markup_escape s : markup (escapeHtml s).
Proof.
  apply markup_plain. unfold no_angle.
  destruct (escapeHtml_no_special s) as (-> & -> & _). done.
Qed.

Lemma markup_span cls body :
  cls ∈ hl_classes → markup body → markup (span cls body).
Proof.
  intros Hc Hb.
  assert (span cls body = span_open cls +:+ body +:+ "</span>") as ->.
  { unfold span, span_open. by rewrite !append_assoc, !app_cons. }
  apply markup_tag.
  { right. by apply list_elem_of_fmap_2. }
  apply markup_app; [done|].
  rewrite <- (append_nil_r "</span>"). apply markup_tag; [by left|constructor].
Qed.

Lemma all_space_no_angle s : all_space s = true → no_angle s = true.
Proof.
  unfold no_angle. induction s as [|c s IH]; [done|]. simpl.
  intros [Hc Hs]%andb_true_iff. specialize (IH Hs).
  apply andb_true_iff in IH as [H1 H2].
  rewrite negb_true_iff in H1, H2. rewrite H1, H2, !orb_false_r.
  destruct (Ascii.eqb_spec c "<") as [->|_]; [done|].
  destruct (Ascii.eqb_spec c ">") as [->|_]; done.
Qed.

Lemma span_space_all_space s : all_space (span_space s).1 = true.
Proof.
  induction s as [|c s IH]; [done|]. simpl.
  destruct (is_space c) eqn:Hc; [|done].
  destruct (span_space s) as [ws rest]. simpl in *. by rewrite Hc.
Qed.

Ltac hl_class := unfold hl_classes; repeat first [by left | right].

Lemma markup_hlJsonValue raw : markup (hlJsonValue raw).
Proof.
  unfold hlJsonValue.
  set (t := trim raw).
  assert (markup (if endsWith "," t then "," else EmptyString)) as Htr.
  { destruct (endsWith "," t); [by apply markup_plain|constructor]. }
  repeat match goal with
         | |- markup (if ?b then _ else _) => destruct b
         end;
    try apply markup_escape;
    (apply markup_app; [apply markup_span; [hl_class|apply markup_escape]|done]).
Qed.

Lemma markup_quoted s :
  markup (String dquote (escapeHtml s +:+ String dquote EmptyString)).
Proof.
  change (String dquote (escapeHtml s +:+ String dquote EmptyString))
    with (String dquote EmptyString +:+ escapeHtml s +:+ String dquote EmptyString).
  apply markup_app; [by apply markup_plain|].
  apply markup_app; [apply markup_escape|by apply markup_plain].
Qed.

Lemma markup_hlJsonLine line : markup (hlJsonLine line).
Proof.
  unfold hlJsonLine.
  destruct (match_key_value line) as [[[indent key] rest]|] eqn:E1.
  - unfold match_key_value in E1.
    pose proof (span_space_all_space line) as Hws.
    destruct (span_space line) as [ws r0]. simpl in Hws.
    assert (indent = ws) as ->.
    { destruct r0 as [|c r1]; [done|]. destruct (Ascii.eqb c dquote); [|done].
      destruct (json_string r1) as [[k r2]|]; [|done]. simpl in E1.
      destruct (span_space r2).2 as [|c' r4]; [done|].
      destruct (Ascii.eqb c' ":"); [|done]. by injection E1 as <- _ _. }
    apply markup_app; [by apply markup_plain, all_space_no_angle|].
    apply markup_app; [apply markup_span; [hl_class|apply markup_quoted]|].
    apply markup_app; [apply markup_span; [hl_class|by apply markup_plain]|].
    apply markup_app; [by apply markup_plain|apply markup_hlJsonValue].
  - destruct (match_string_line line) as [[[sm1 sm2] sm3]|] eqn:E2;
      [|apply markup_escape].
    unfold match_string_line in E2.
    pose proof (span_space_all_space line) as Hws.
    destruct (span_space line) as [ws r0]. simpl in Hws.
    assert (sm1 = ws ∧ (sm3 = EmptyString ∨ sm3 = ",")) as [-> Hsm3].
    { destruct r0 as [|c r1]; [done|]. destruct (Ascii.eqb c dquote); [|done].
      destruct (json_string r1) as [[k r2]|]; [|done]. simpl in E2.
      destruct (span_space r2).2 as [|c' [|? ?]]; [| |done].
      - injection E2 as <- _ <-. by split; [|left].
      - destruct (Ascii.eqb c' ","); [|done].
        injection E2 as <- _ <-. by split; [|right]. }
    apply markup_app; [by apply markup_plain, all_space_no_angle|].
    apply markup_app; [apply markup_span; [hl_class|apply markup_quoted]|].
    destruct Hsm3 as [H|H]; rewrite H; [constructor|by apply markup_plain].
Qed.


Lemma markup_hlHeaderLine line : markup (hlHeaderLine line).
Proof.
  unfold hlHeaderLine. destruct (0 <? indexOf ":" line); [|apply markup_escape].
  apply markup_app; [apply markup_span; [hl_class|apply markup_escape]|].
  apply markup_app; [apply markup_span; [hl_class|by apply markup_plain]|].
  apply markup_span; [hl_class|apply markup_escape].
Qed.

Lemma markup_hlMethodLine_from ms line :
  Forall (λ m, no_angle m = true) ms → markup (hlMethodLine_from ms line).
Proof.
  induction 1 as [|m ms Hm _ IH]; cbn [hlMethodLine_from];
    [apply markup_escape|].
  destruct (startsWith (m +:+ " ") (trimStart line)); [|done]. cbn zeta.
  apply markup_app; [apply markup_escape|].
  apply markup_app; [apply markup_span; [hl_class|by apply markup_plain]|].
  apply markup_app; [by apply markup_plain|].
  apply markup_span; [hl_class|apply markup_escape].
Qed.

Lemma markup_hlMethodLine line : markup (hlMethodLine line).
Proof.
  apply markup_hlMethodLine_from. unfold HTTP_METHODS.
  repeat (constructor; [done|]). constructor.
Qed.

Lemma markup_hl_line kind line : markup (hl_line kind line).
Proof.
  destruct kind as [[]|]; simpl;
    auto using markup_escape, markup_hlMethodLine, markup_hlHeaderLine,
      markup_hlJsonLine;
    (apply markup_span; [hl_class|apply markup_escape]).
Qed.

Lemma markup_join_lines ls : Forall markup ls → markup (join_lines ls).
Proof.
  induction 1 as [|x ls Hx Hls IH]; [constructor|].
  destruct ls as [|y ls]; [done|].
  change (join_lines (x :: y :: ls))
    with (x +:+ String LF (join_lines (y :: ls))).
  apply markup_app; [done|].
  change (String LF (join_lines (y :: ls)))
    with (String LF EmptyString +:+ join_lines (y :: ls)).
  apply markup_app; [by apply markup_plain|done].
Qed.

(** The tags of the highlighter are the only way an angle bracket gets
    into markup. *)
Lemma markup_head_angle s :
  markup s → ∀ r, s = String "<" r → ∃ t, t ∈ hl_tags ∧ String.prefix t s = true.
Proof.
  induction 1 as [|s rest Hs Hrest IH|t rest Ht _ _]; intros r Hr; [done| |].
  - destruct s as [|c s].
    + rewrite app_nil_l in Hr |- *. by apply (IH r).
    + rewrite app_cons in Hr. injection Hr as -> _. done.
  - exists t. split; [done|]. apply prefix_app.
Qed.

(** X18: what the highlighter hands to the page is markup of its own,
    whatever the document: the result of [highlightSyntax], for any
    list of blocks for which the classifier returns, and the result of
    [highlightJson] are made of [span] tags of the classes of the
    highlighter and of texts without angle brackets.  On the blocks of
    the parse of the document [highlightSyntax] returns. *)
Theorem highlight_is_markup content :
  (∀ blks html, highlightSyntax content blks = Some html → markup html) ∧
  (∃ bs html, parseHttpFile content = Some bs ∧
              highlightSyntax content bs = Some html) ∧
  markup (highlightJson content).
Proof.
  split; [|split].
  - intros blks html. unfold highlightSyntax.
    destruct (classifyLines content blks) as [kinds|]; [|done].
    simpl. intros [= <-].
    apply markup_app; [|by apply markup_plain].
    apply markup_join_lines. apply Forall_forall.
    intros x (i & l & -> & _)%elem_of_lookup_imap_1.
    apply markup_hl_line.
  - destruct (classify_parsed content) as (bs & K & Hp & _ & HK & _).
    exists bs. unfold highlightSyntax. rewrite HK. simpl. by eexists.
  - unfold highlightJson. apply markup_join_lines, Forall_fmap, Forall_forall.
    intros l _. apply markup_hlJsonLine.
Qed.

Example script_is_no_markup : ¬ markup "<script>".
Proof.
  intros H. destruct (markup_head_angle _ H "script>" eq_refl) as (t & Ht & Hp).
  unfold hl_tags, hl_classes in Ht. simpl in Ht.
  repeat (apply elem_of_cons in Ht as [->|Ht]; [done|]).
  by apply elem_of_nil in Ht.
Qed.

End SyntaxFacts.

(** ** The tab key *)

Module KeysFacts.
Import Str StrFacts StrMore HighlightFacts MarkupFacts Keys KeysSpec.

Lemma substring_split n s : s = substring_to n s +:+ substring_from n s.
Proof.
  revert s. induction n as [|n IH]; intros [|c s]; try done.
  change (substring_to (S n) (String c s)) with (String c (substring_to n s)).
  change (substring_from (S n) (String c s)) with (substring_from n s).
  by rewrite app_cons, <- IH.
Qed.

Lemma substring_from_add a b s :
  substring_from (a + b) s = substring_from b (substring_from a s).
Proof.
  revert s. induction a as [|a IH]; intros s; [done|].
  destruct s as [|c s]; [by destruct b|]. apply IH.
Qed.

Lemma substring_from_length_to n s :
  substring_from (String.length (substring_to n s)) s = substring_from n s.
Proof.
  revert s. induction n as [|n IH]; intros [|c s]; try done.
  change (substring_to (S n) (String c s)) with (String c (substring_to n s)).
  apply IH.
Qed.

Lemma substring_to_length n s :
  (n ≤ String.length s)%nat → String.length (substring_to n s) = n.
Proof.
  revert s. induction n as [|n IH]; intros [|c s] H; simpl in *; try done.
  - lia.
  - rewrite IH; lia.
Qed.

(** What [lastIndexOf] finds: nothing, or a position of the character
    that is not after [from]. *)
Lemma lastIndexOf_spec c s from :
  let k := lastIndexOf c s from in
  k = -1 ∨
  (0 ≤ k ≤ Z.of_nat from ∧ k < Z.of_nat (String.length s) ∧
   last_char (substring_to (S (Z.to_nat k)) s) = Some c).
Proof.
  revert from. induction s as [|d r IH]; intros from; [by left|].
  cbn zeta. destruct from as [|from]; cbn [lastIndexOf].
  - destruct (Ascii.eqb_spec d c) as [->|_]; [right|by left].
    cbn [String.length]. split; [lia|]. split; [lia|]. by destruct r.
  - specialize (IH from). cbn zeta in IH.
    destruct (0 <=? lastIndexOf c r from) eqn:Hk.
    + apply Z.leb_le in Hk. destruct IH as [IH|(Hr & Hlen & Hlast)]; [lia|].
      right. cbn [String.length]. split; [lia|]. split; [lia|].
      replace (Z.to_nat (lastIndexOf c r from + 1))
        with (S (Z.to_nat (lastIndexOf c r from))) by lia.
      set (k := Z.to_nat (lastIndexOf c r from)) in *.
      change (substring_to (S (S k)) (String d r))
        with (String d (substring_to (S k) r)).
      destruct (substring_to (S k) r) eqn:E; [done|]. exact Hlast.
    + destruct (Ascii.eqb_spec d c) as [->|_]; [right|by left].
      cbn [String.length]. split; [lia|]. split; [lia|]. by destruct r.
Qed.

(** X19: the tab key with shift removes white space at the start of a
    line and nothing else.  When it changes the text, for a selection
    with [start <= end], the old text is a text [pre] that ends where
    a line starts, one of the indentations tab, two spaces and one
    space, and a text [post]; the new text is [pre] and [post]; the
    cursor goes back by the length of the indentation, not before the
    start of the line. *)
Theorem handleShiftTab_indent editorContent start end_ content' pos :
  (start ≤ end_)%nat →
  handleShiftTab editorContent start end_ = Some (content', pos) →
  ∃ pre ws post,
    editorContent = pre +:+ ws +:+ post ∧ content' = pre +:+ post ∧
    ws ∈ indents ∧ at_line_start pre ∧
    pos = Nat.max (String.length pre) (start - String.length ws).
Proof.
  intros Hse. unfold handleShiftTab.
  pose proof (lastIndexOf_spec LF editorContent (Z.to_nat (Z.of_nat start - 1)))
    as Hk. cbn zeta in Hk.
  set (k := lastIndexOf LF editorContent (Z.to_nat (Z.of_nat start - 1))) in *.
  set (ls := Z.to_nat (k + 1)).
  set (A := substring_to ls editorContent).
  set (B := substring_from ls editorContent).
  assert (editorContent = A +:+ B) as HAB by apply substring_split.
  assert (at_line_start A ∧ String.length A = ls ∧
          (ls ≤ end_ ∨ substring ls end_ editorContent = String LF EmptyString))%nat
    as (Hstart & HlenA & Hno_swap).
  { destruct Hk as [Hk|(Hk1 & Hk2 & Hk3)].
    - assert (ls = 0%nat) as Hls by lia. unfold A. rewrite Hls.
      split; [by left|]. split; [by destruct editorContent|]. left. lia.
    - assert (ls = S (Z.to_nat k)) as Hls by lia. unfold A. rewrite Hls.
      split; [by right|]. split; [apply substring_to_length; lia|].
      destruct start as [|start]; [|left; lia].
      assert (k = 0) as Hk0 by lia. rewrite Hk0 in *.
      destruct end_ as [|end_]; [right|left; lia].
      change (Z.to_nat 0) with 0%nat in *.
      destruct editorContent as [|c r]; [done|].
      unfold substring. simpl in Hk3 |- *. destruct r; simpl in *; congruence. }
  destruct Hno_swap as [Hle|Hswap]; [|by rewrite Hswap].
  assert (substring ls end_ editorContent = substring_to (end_ - ls) B) as ->.
  { unfold substring. by rewrite Nat.max_r, Nat.min_l by lia. }
  set (n := (end_ - ls)%nat). set (lineText := substring_to n B).
  assert (substring_from (ls + String.length lineText) editorContent
          = substring_from n B) as ->.
  { rewrite substring_from_add. fold B. apply substring_from_length_to. }
  assert (B = lineText +:+ substring_from n B) as HB by apply substring_split.
  assert (∀ ws, startsWith ws lineText = true →
            lineText = ws +:+ substring_from (String.length ws) lineText) as Hws.
  { intros ws [r Hr]%prefix_split. rewrite Hr at 1.
    by rewrite Hr, substring_from_app. }
  assert (∀ ws new removed,
            startsWith ws lineText = true → ws ∈ indents →
            new = substring_from (String.length ws) lineText →
            removed = String.length ws →
            Some (A +:+ new +:+ substring_from n B,
                  Nat.max ls (start - removed)) = Some (content', pos) →
            ∃ pre ws post,
              editorContent = pre +:+ ws +:+ post ∧ content' = pre +:+ post ∧
              ws ∈ indents ∧ at_line_start pre ∧
              pos = Nat.max (String.length pre) (start - String.length ws))
    as Hcase.
  { intros ws new removed Hp Hin -> -> [= <- <-].
    exists A, ws, (substring_from (String.length ws) lineText
                   +:+ substring_from n B).
    split; [|by rewrite HlenA].
    rewrite HAB at 1. rewrite HB at 1. rewrite (Hws ws Hp) at 1.
    by rewrite !append_assoc. }
  destruct (startsWith (String TAB EmptyString) lineText) eqn:E1.
  { simpl. apply (Hcase (String TAB EmptyString)); try done. by left. }
  destruct (startsWith "  " lineText) eqn:E2.
  { simpl. apply (Hcase "  "); try done. right. by left. }
  destruct (startsWith " " lineText) eqn:E3; [|done].
  simpl. apply (Hcase " "); try done. right. right. by left.
Qed.

Lemma handleShiftTab_indent_witness :
  ∃ pre ws post,
    "a" +:+ String LF "  b" = pre +:+ ws +:+ post ∧
    "a" +:+ String LF "b" = pre +:+ post ∧
    ws ∈ indents ∧ at_line_start pre ∧
    3%nat = Nat.max (String.length pre) (5 - String.length ws).
Proof.
  apply (handleShiftTab_indent ("a" +:+ String LF "  b") 5 5
           ("a" +:+ String LF "b") 3).
  - lia.
  - reflexivity.
Defined.


Lemma lastIndexOf_line_start pre post :
  at_line_start pre →
  lastIndexOf LF (pre +:+ String TAB post) (String.length pre)
  = Z.of_nat (String.length pre) - 1.
Proof.
  intros [->|Hlast]; [done|].
  induction pre as [|d r IH]; [done|].
  rewrite app_cons. cbn [String.length lastIndexOf].
  destruct r as [|e r'].
  - simpl in Hlast. injection Hlast as ->. done.
  - rewrite IH by exact Hlast.
    destruct (0 <=? Z.of_nat (String.length (String e r')) - 1) eqn:E.
    + lia.
    + apply Z.leb_gt in E. cbn [String.length] in E. lia.
Qed.

(** X20: a tab typed at the start of a line is taken back by the tab
    key with shift: the text and the cursor are as before. *)
Theorem tab_then_shift_tab pre post :
  at_line_start pre →
  let '(content1, pos1) := handleTab (pre +:+ post) (String.length pre)
                             (String.length pre) in
  handleShiftTab content1 pos1 pos1 = Some (pre +:+ post, String.length pre).
Proof.
  intros Hpre. unfold handleTab.
  rewrite substring_to_app, substring_from_app.
  change (String TAB EmptyString +:+ post) with (String TAB post).
  unfold handleShiftTab.
  replace (Z.to_nat (Z.of_nat (String.length pre + 1) - 1))
    with (String.length pre) by lia.
  rewrite (lastIndexOf_line_start pre post Hpre).
  replace (Z.to_nat (Z.of_nat (String.length pre) - 1 + 1))
    with (String.length pre) by lia.
  assert (substring (String.length pre) (String.length pre + 1)
            (pre +:+ String TAB post) = String TAB EmptyString) as ->.
  { unfold substring. rewrite Nat.max_r, Nat.min_l by lia.
    rewrite substring_from_app.
    replace (String.length pre + 1 - String.length pre)%nat with 1%nat by lia.
    done. }
  assert (startsWith (String TAB EmptyString) (String TAB EmptyString) = true)
    as -> by done.
  cbn [mbind option_bind String.length].
  change (substring_from 1 (String TAB EmptyString)) with EmptyString.
  rewrite substring_to_app, app_nil_l.
  rewrite substring_from_add, substring_from_app.
  change (substring_from 1 (String TAB post)) with post.
  do 2 f_equal. lia.
Qed.

Lemma tab_then_shift_tab_witness :
  let '(content1, pos1) :=
    handleTab (("a" +:+ String LF EmptyString) +:+ "b") 2 2 in
  handleShiftTab content1 pos1 pos1
  = Some (("a" +:+ String LF EmptyString) +:+ "b", 2%nat).
Proof.
  apply (tab_then_shift_tab ("a" +:+ String LF EmptyString) "b").
  right. reflexivity.
Defined.

End KeysFacts.

(** ** The update check *)

Module UpdateFacts.
Import Str StrFacts StrMore Executor Update UpdateSpec.

Lemma append_length a b :
  String.length (a +:+ b) = (String.length a + String.length b)%nat.
Proof. induction a as [|d a IH]; [done|]. rewrite app_cons. simpl. by rewrite IH. Qed.

Lemma digits_of_length k n : String.length (digits_of k n) = k.
Proof.
  revert n. induction k as [|k IH]; intros n; [done|].
  cbn [digits_of]. rewrite append_length, IH. simpl. lia.
Qed.

Lemma itoa_loop_S fuel u acc :
  itoa_loop (S fuel) u acc
  = if u <? 10 then String (digit_char u) acc
    else itoa_loop fuel (u / 10) (String (digit_char (u mod 10)) acc).
Proof. reflexivity. Qed.

(** The loop of [itoa] writes the digits of [u], without a leading
    zero. *)
Lemma itoa_loop_digits fuel u acc :
  0 ≤ u < 10 ^ Z.of_nat (S fuel) →
  ∃ j, (1 ≤ j ≤ S fuel)%nat ∧ u < 10 ^ Z.of_nat j ∧
       (j = 1%nat ∨ 10 ^ (Z.of_nat j - 1) ≤ u) ∧
       itoa_loop (S fuel) u acc = digits_of j u +:+ acc.
Proof.
  revert u acc. induction fuel as [|fuel IH]; intros u acc Hu.
  - exists 1%nat. change (10 ^ Z.of_nat 1) with 10 in *.
    split; [lia|]. split; [lia|]. split; [by left|].
    rewrite itoa_loop_S. destruct (Z.ltb_spec u 10); [|lia].
    cbn [digits_of]. rewrite app_nil_l, app_cons, app_nil_l.
    by rewrite Z.mod_small by lia.
  - rewrite itoa_loop_S. destruct (Z.ltb_spec u 10) as [Hlt|Hge].
    + exists 1%nat. change (10 ^ Z.of_nat 1) with 10.
      split; [lia|]. split; [lia|]. split; [by left|].
      cbn [digits_of]. rewrite app_nil_l, app_cons, app_nil_l.
      by rewrite Z.mod_small by lia.
    + destruct (IH (u / 10) (String (digit_char (u mod 10)) acc))
        as (j & Hj & Hlt & Hmin & ->).
      { split; [apply Z.div_pos; lia|].
        apply Z.div_lt_upper_bound; [lia|].
        rewrite <- Z.pow_succ_r by lia.
        replace (Z.succ (Z.of_nat (S fuel))) with (Z.of_nat (S (S fuel))) by lia.
        lia. }
      exists (S j). split; [lia|].
      assert (10 ^ Z.of_nat (S j) = 10 * 10 ^ Z.of_nat j) as Hpow.
      { rewrite Nat2Z.inj_succ, Z.pow_succ_r by lia. done. }
      split; [|split].
      * rewrite Hpow. pose proof (Z.div_mod u 10 ltac:(lia)).
        pose proof (Z.mod_pos_bound u 10 ltac:(lia)). lia.
      * right. replace (Z.of_nat (S j) - 1) with (Z.of_nat j) by lia.
        destruct Hmin as [->|Hmin].
        -- change (10 ^ Z.of_nat 1) with 10. lia.
        -- replace (Z.of_nat j) with (Z.succ (Z.of_nat j - 1)) by lia.
           rewrite Z.pow_succ_r by lia.
           pose proof (Z.div_mod u 10 ltac:(lia)).
           pose proof (Z.mod_pos_bound u 10 ltac:(lia)). lia.
      * cbn [digits_of]. rewrite append_assoc, app_cons, app_nil_l. done.
Qed.

Lemma zeros_snoc k : zeros k +:+ "0" = zeros (S k).
Proof.
  induction k as [|k IH]; [done|].
  cbn [zeros]. rewrite app_cons, IH. done.
Qed.

Lemma digits_of_zero k : digits_of k 0 = zeros k.
Proof.
  induction k as [|k IH]; [done|].
  cbn [digits_of]. change (0 / 10) with 0. rewrite IH.
  change (digit_char (0 mod 10)) with "0"%char. apply zeros_snoc.
Qed.

Lemma digits_of_pad m j u :
  0 ≤ u < 10 ^ Z.of_nat j →
  digits_of (m + j) u = zeros m +:+ digits_of j u.
Proof.
  revert u. induction j as [|j IH]; intros u Hu.
  - change (10 ^ Z.of_nat 0) with 1 in Hu. assert (u = 0) as -> by lia.
    rewrite Nat.add_0_r, digits_of_zero. simpl.
    clear. induction m as [|m IH]; [done|]. cbn [zeros]. by rewrite app_cons, <- IH.
  - replace (m + S j)%nat with (S (m + j)) by lia. cbn [digits_of].
    rewrite IH, append_assoc; [done|].
    rewrite Nat2Z.inj_succ, Z.pow_succ_r in Hu by lia.
    split; [apply Z.div_pos; lia|]. apply Z.div_lt_upper_bound; lia.
Qed.

(** [%09d] of a number below [10 ^ 9] is its nine digits. *)
Lemma Sprintf_09d_small n :
  0 ≤ n < 10 ^ 9 → Sprintf_09d n = digits_of 9 n.
Proof.
  intros Hn. unfold Sprintf_09d. destruct (Z.ltb_spec n 0); [lia|].
  destruct (itoa_loop_digits 19 n EmptyString) as (j & Hj & Hlt & Hmin & Hi).
  { split; [lia|]. eapply Z.lt_trans; [apply Hn|]. done. }
  unfold itoa. rewrite Hi.
  assert (digits_of j n +:+ EmptyString = digits_of j n) as ->.
  { generalize (digits_of j n). intros x. induction x as [|c x IH]; [done|].
    by rewrite app_cons, IH. }
  rewrite digits_of_length.
  assert (j ≤ 9)%nat as Hj9.
  { destruct Hmin as [->|Hmin]; [lia|].
    destruct (le_lt_dec j 9) as [|Hgt]; [done|].
    assert (10 ^ 9 ≤ 10 ^ (Z.of_nat j - 1)) by (apply Z.pow_le_mono_r; lia).
    lia. }
  rewrite <- digits_of_pad by lia. f_equal. lia.
Qed.


(** *** The order of the padded strings *)

Lemma compare_cons c1 s1 c2 s2 :
  String.compare (String c1 s1) (String c2 s2)
  = match Ascii.compare c1 c2 with
    | Eq => String.compare s1 s2
    | ne => ne
    end.
Proof. reflexivity. Qed.

Lemma ascii_compare_refl c : Ascii.compare c c = Eq.
Proof. apply N.compare_refl. Qed.

Lemma compare_refl s : String.compare s s = Eq.
Proof.
  induction s as [|c s IH]; [done|]. by rewrite compare_cons, ascii_compare_refl.
Qed.

(** Texts that start with runs of the same length compare by the runs
    first. *)
Lemma compare_app x y s t :
  String.length x = String.length y →
  String.compare (x +:+ s) (y +:+ t)
  = match String.compare x y with
    | Eq => String.compare s t
    | ne => ne
    end.
Proof.
  revert y. induction x as [|c x IH]; intros [|d y] Hlen; try done.
  rewrite !app_cons, !compare_cons.
  destruct (Ascii.compare c d); [|done|done].
  apply IH. simpl in Hlen. lia.
Qed.

Lemma digit_char_compare x y :
  0 ≤ x ≤ 9 → 0 ≤ y ≤ 9 →
  Ascii.compare (digit_char x) (digit_char y) = (x ?= y).
Proof.
  intros Hx Hy. unfold Ascii.compare, digit_char.
  rewrite !N_ascii_embedding by lia.
  rewrite Z2N.inj_compare by lia. apply Z.add_compare_mono_l.
Qed.

(** The digits of two numbers, as many for both, compare as the
    numbers. *)
Lemma digits_of_compare k a b :
  0 ≤ a < 10 ^ Z.of_nat k → 0 ≤ b < 10 ^ Z.of_nat k →
  String.compare (digits_of k a) (digits_of k b) = (a ?= b).
Proof.
  revert a b. induction k as [|k IH]; intros a b Ha Hb.
  - change (10 ^ Z.of_nat 0) with 1 in *.
    assert (a = 0) as -> by lia. assert (b = 0) as -> by lia. done.
  - rewrite Nat2Z.inj_succ, Z.pow_succ_r in Ha, Hb by lia.
    cbn [digits_of]. rewrite compare_app by (by rewrite !digits_of_length).
    pose proof (Z.div_mod a 10 ltac:(lia)).
    pose proof (Z.div_mod b 10 ltac:(lia)).
    pose proof (Z.mod_pos_bound a 10 ltac:(lia)).
    pose proof (Z.mod_pos_bound b 10 ltac:(lia)).
    rewrite IH.
    2:{ split; [apply Z.div_pos; lia|]. apply Z.div_lt_upper_bound; lia. }
    2:{ split; [apply Z.div_pos; lia|]. apply Z.div_lt_upper_bound; lia. }
    rewrite compare_cons, digit_char_compare by lia.
    change (String.compare EmptyString EmptyString) with Eq.
    destruct (Z.compare_spec (a / 10) (b / 10)) as [He|Hl|Hg].
    + destruct (Z.compare_spec (a mod 10) (b mod 10));
        symmetry; [apply Z.compare_eq_iff|apply Z.compare_lt_iff
                  |apply Z.compare_gt_iff]; lia.
    + symmetry. apply Z.compare_lt_iff. lia.
    + symmetry. apply Z.compare_gt_iff. lia.
Qed.

Lemma Sprintf_09d_compare a b :
  0 ≤ a < 10 ^ 9 → 0 ≤ b < 10 ^ 9 →
  String.compare (Sprintf_09d a) (Sprintf_09d b) = (a ?= b) ∧
  String.length (Sprintf_09d a) = String.length (Sprintf_09d b).
Proof.
  intros Ha Hb. rewrite !Sprintf_09d_small by done.
  split; [by apply (digits_of_compare 9)|]. by rewrite !digits_of_length.
Qed.

(** X21: for two versions with components from 0 to 999999999,
    [isNewer latest current] holds exactly when [latest] comes after
    [current] in the order of the triples major, minor, patch. *)
Theorem isNewer_semver latest current x y :
  parse latest = Some x → parse current = Some y →
  small x → small y →
  (isNewer latest current = true ↔ triple_lt y x).
Proof.
  intros Hx Hy. destruct x as [[a b] c], y as [[d e] f].
  intros (Ha & Hb & Hc) (Hd & He & Hf).
  unfold isNewer, string_gt, String.ltb. rewrite Hx, Hy. cbn [triple_lt].
  destruct (Sprintf_09d_compare d a Hd Ha) as [C1 L1].
  destruct (Sprintf_09d_compare e b He Hb) as [C2 L2].
  destruct (Sprintf_09d_compare f c Hf Hc) as [C3 _].
  rewrite (compare_app _ _ _ _ L1), C1, (compare_app _ _ _ _ L2), C2, C3.
  destruct (Z.compare_spec d a); [|split; [lia|done]
                                 |split; [done|lia]].
  destruct (Z.compare_spec e b); [|split; [lia|done]
                                 |split; [done|lia]].
  destruct (Z.compare_spec f c); split; try done; lia.
Qed.

Lemma isNewer_semver_witness :
  isNewer "v1.10.0" "1.9.9" = true ↔ triple_lt (1, 9, 9) (1, 10, 0).
Proof.
  apply (isNewer_semver "v1.10.0" "1.9.9" (1, 10, 0) (1, 9, 9)).
  - reflexivity.
  - reflexivity.
  - vm_compute. intuition discriminate.
  - vm_compute. intuition discriminate.
Defined.

(** *** [isNewer] as an order *)

Lemma ascii_compare_lt_trans a b c :
  Ascii.compare a b = Lt → Ascii.compare b c = Lt → Ascii.compare a c = Lt.
Proof.
  unfold Ascii.compare. rewrite !N.compare_lt_iff. lia.
Qed.

Lemma compare_lt_trans a b c :
  String.compare a b = Lt → String.compare b c = Lt → String.compare a c = Lt.
Proof.
  revert b c. induction a as [|x a IH]; intros [|y b] [|z c]; try done.
  rewrite !compare_cons.
  destruct (Ascii.compare x y) eqn:Exy; [|intros _|done].
  - apply Ascii.compare_eq_iff in Exy as ->.
    destruct (Ascii.compare y z); [apply IH|done|done].
  - destruct (Ascii.compare y z) eqn:Eyz; [|intros _|done].
    + apply Ascii.compare_eq_iff in Eyz as <-. by rewrite Exy.
    + by rewrite (ascii_compare_lt_trans _ _ _ Exy Eyz).
Qed.

(** X22: [isNewer] is a strict order on all texts: no version is newer
    than itself, two versions are never each newer than the other,
    and newer than newer is newer. *)
Theorem isNewer_strict_order :
  (∀ a, isNewer a a = false) ∧
  (∀ a b, isNewer a b = true → isNewer b a = false) ∧
  (∀ a b c, isNewer a b = true → isNewer b c = true → isNewer a c = true).
Proof.
  unfold isNewer, string_gt, String.ltb. split; [|split].
  - intros a. destruct (parse a) as [[[? ?] ?]|]; [|done].
    by rewrite compare_refl.
  - intros a b. destruct (parse a) as [[[? ?] ?]|]; [|done].
    destruct (parse b) as [[[? ?] ?]|]; [|done].
    rewrite (String.compare_antisym (_ +:+ _)).
    by destruct (String.compare _ _).
  - intros a b c. destruct (parse a) as [[[? ?] ?]|]; [|done].
    destruct (parse b) as [[[? ?] ?]|]; [|done].
    destruct (parse c) as [[[? ?] ?]|]; [|done].
    destruct (String.compare _ (_ +:+ _ +:+ _)) eqn:E1; try done.
    destruct (String.compare (_ +:+ _ +:+ _) _) eqn:E2 at 1; try done.
    intros _ _. by rewrite (compare_lt_trans _ _ _ E2 E1).
Qed.


(** *** Reading a version back *)

Lemma prefix_cons_eq_v c r :
  is_digit c = true → String.prefix "v" (String c r) = false.
Proof.
  intros Hc. destruct (String.prefix "v" (String c r)) eqn:E; [|done].
  apply prefix_cons in E as [<- _]. vm_compute in Hc. discriminate.
Qed.

Lemma digit_char_digit d :
  0 ≤ d ≤ 9 → is_digit (digit_char d) = true ∧ digit_value (digit_char d) = d.
Proof.
  intros Hd. unfold is_digit, digit_value, digit_char.
  rewrite N_ascii_embedding by lia. split.
  - apply andb_true_iff. split; apply N.leb_le; lia.
  - rewrite Z2N.id; lia.
Qed.

Lemma all_digits_app s t : all_digits (s +:+ t) = all_digits s && all_digits t.
Proof.
  induction s as [|c s IH]; [done|].
  rewrite app_cons. simpl. by rewrite IH, andb_assoc.
Qed.

Lemma digits_of_all_digits k n : all_digits (digits_of k n) = true.
Proof.
  revert n. induction k as [|k IH]; intros n; [done|].
  cbn [digits_of]. rewrite all_digits_app, IH. simpl.
  destruct (digit_char_digit (n mod 10)) as [-> _]; [|done].
  pose proof (Z.mod_pos_bound n 10 ltac:(lia)). lia.
Qed.

Lemma parse_digits_app acc s t :
  parse_digits acc (s +:+ t) = v ← parse_digits acc s; parse_digits v t.
Proof.
  revert acc. induction s as [|c s IH]; intros acc; [done|].
  rewrite app_cons. simpl. destruct (is_digit c); [apply IH|done].
Qed.

Lemma parse_digits_of acc k n :
  0 ≤ n < 10 ^ Z.of_nat k →
  parse_digits acc (digits_of k n) = Some (acc * 10 ^ Z.of_nat k + n).
Proof.
  revert n. induction k as [|k IH]; intros n Hn.
  - change (10 ^ Z.of_nat 0) with 1 in *. simpl. f_equal. lia.
  - rewrite Nat2Z.inj_succ, Z.pow_succ_r in * by lia.
    pose proof (Z.div_mod n 10 ltac:(lia)).
    pose proof (Z.mod_pos_bound n 10 ltac:(lia)).
    cbn [digits_of]. rewrite parse_digits_app, IH.
    2:{ split; [apply Z.div_pos; lia|]. apply Z.div_lt_upper_bound; lia. }
    simpl. destruct (digit_char_digit (n mod 10)) as [-> ->]; [lia|].
    f_equal. lia.
Qed.

(** The digits [itoa] writes, for a number of the range of [int]. *)
Lemma itoa_digits n :
  0 ≤ n ≤ maxInt →
  ∃ j, (1 ≤ j)%nat ∧ n < 10 ^ Z.of_nat j ∧ itoa n = digits_of j n.
Proof.
  intros Hn.
  destruct (itoa_loop_digits 19 n EmptyString) as (j & Hj & Hlt & _ & Hi).
  { split; [lia|]. unfold maxInt in Hn. eapply Z.le_lt_trans; [apply Hn|]. done. }
  exists j. split; [lia|]. split; [done|]. unfold itoa. rewrite Hi.
  generalize (digits_of j n). intros x. induction x as [|c x IH]; [done|].
  by rewrite app_cons, IH.
Qed.

(** [Atoi] reads back what [itoa] writes. *)
Lemma Atoi_itoa n : 0 ≤ n ≤ maxInt → Atoi (itoa n) = Some n.
Proof.
  intros Hn. destruct (itoa_digits n Hn) as (j & Hj & Hlt & Hi).
  pose proof (digits_of_all_digits j n) as Hall.
  pose proof (parse_digits_of 0 j n ltac:(lia)) as Hp.
  pose proof (digits_of_length j n) as Hlen.
  rewrite Hi. destruct (digits_of j n) as [|c r] eqn:Hd; [simpl in Hlen; lia|].
  unfold Atoi. simpl in Hall. apply andb_true_iff in Hall as [Hc _].
  assert (Ascii.eqb c "-" = false ∧ Ascii.eqb c "+" = false) as [-> ->].
  { split; apply Ascii.eqb_neq; intros ->; done. }
  cbn [orb is_empty]. rewrite Hp. cbn [mbind option_bind].
  replace (0 * 10 ^ Z.of_nat j + n) with n by lia.
  unfold minInt, maxInt in *.
  destruct (Z.leb_spec (- 2 ^ 63) n); [|lia].
  destruct (Z.leb_spec n (2 ^ 63 - 1)); [done|lia].
Qed.

Lemma cut_digits s rest :
  all_digits s = true → cut "." (s +:+ String "." rest) = Some (s, rest).
Proof.
  induction s as [|c s IH]; [done|].
  cbn [all_digits]. intros [Hc Hs]%andb_true_iff.
  change (String c s +:+ String "." rest)
    with (String c (s +:+ String "." rest)).
  cbn [cut].
  assert (Ascii.eqb c "." = false) as ->.
  { apply Ascii.eqb_neq. intros ->. done. }
  by rewrite IH.
Qed.

Lemma itoa_all_digits n :
  0 ≤ n ≤ maxInt → all_digits (itoa n) = true ∧ startsWith "v" (itoa n) = false.
Proof.
  intros Hn. destruct (itoa_digits n Hn) as (j & Hj & _ & ->).
  pose proof (digits_of_all_digits j n) as Hall. split; [done|].
  destruct (digits_of j n) as [|c r]; [done|].
  simpl in Hall. apply andb_true_iff in Hall as [Hc _].
  unfold startsWith. by apply prefix_cons_eq_v.
Qed.


(** X23: [parse] reads back a version written as three decimal numbers
    of the range of [int] with dots between them, with or without a
    [v] in front. *)
Theorem parse_version_text v a b c :
  0 ≤ a ≤ maxInt → 0 ≤ b ≤ maxInt → 0 ≤ c ≤ maxInt →
  parse (version_text v a b c) = Some (a, b, c).
Proof.
  intros Ha Hb Hc.
  destruct (itoa_all_digits a Ha) as [Da Va].
  destruct (itoa_all_digits b Hb) as [Db _].
  set (rest := itoa a +:+ "." +:+ itoa b +:+ "." +:+ itoa c).
  assert (TrimPrefix (version_text v a b c) "v" = rest) as Htrim.
  { unfold version_text, TrimPrefix. fold rest. destruct v.
    - change ("v" +:+ rest) with (String "v" rest).
      assert (startsWith "v" (String "v" rest) = true) as ->; [|reflexivity].
      apply prefix_cons. split; [done|]. by destruct rest.
    - rewrite app_nil_l. unfold rest.
      destruct (itoa a) as [|ch r] eqn:Hi.
      + destruct (itoa_digits a Ha) as (j & Hj & _ & Hd).
        pose proof (digits_of_length j a) as Hlen.
        rewrite <- Hd, Hi in Hlen. simpl in Hlen. lia.
      + rewrite app_cons. unfold startsWith.
        cbn [all_digits] in Da. apply andb_true_iff in Da as [Hch _].
        by rewrite (prefix_cons_eq_v _ _ Hch). }
  unfold parse. rewrite Htrim. unfold rest.
  change ("." +:+ itoa b +:+ "." +:+ itoa c)
    with (String "." (itoa b +:+ "." +:+ itoa c)).
  cbn [SplitN]. rewrite (cut_digits _ _ Da).
  change ("." +:+ itoa c) with (String "." (itoa c)).
  rewrite (cut_digits _ _ Db).
  by rewrite !Atoi_itoa.
Qed.

Lemma parse_version_text_witness :
  parse (version_text true 1 22 3) = Some (1, 22, 3).
Proof.
  apply (parse_version_text true 1 22 3); vm_compute; intuition discriminate.
Defined.


(** *** The update check *)

Lemma isNewer_irrefl a : isNewer a a = false.
Proof.
  unfold isNewer, string_gt, String.ltb.
  destruct (parse a) as [[[? ?] ?]|]; [|done]. by rewrite compare_refl.
Qed.

Lemma isNewer_parses a b :
  isNewer a b = true → is_Some (parse a) ∧ is_Some (parse b).
Proof.
  unfold isNewer. destruct (parse a) as [[[? ?] ?]|]; [|done].
  destruct (parse b) as [[[? ?] ?]|]; [|done]. by split.
Qed.

Lemma isNewer_same_parse a b : parse a = parse b → isNewer a b = false.
Proof.
  unfold isNewer, string_gt, String.ltb. intros ->.
  destruct (parse b) as [[[? ?] ?]|]; [|done]. by rewrite compare_refl.
Qed.

(** X24: whatever the network and the decoder do, [CheckForUpdate]
    reports the running version and hands the client no request or the
    one request for the latest release; a [dev] build changes nothing;
    and an update is reported only when that request was sent, the
    answer had status 200, the decoder gave a release, and the tag of
    this release is newer than the running version; the tag and the
    URL reported are then the ones of the release. *)
Theorem CheckForUpdate_sound net decode version w :
  let '(info, w') := CheckForUpdate net decode version w in
  CurrentVersion info = version ∧
  (sent w' = sent w ∨ sent w' = sent w ++ [release_request net]) ∧
  (version = "dev" → w' = w) ∧
  (UpdateAvailable info = true →
     sent w' = sent w ++ [release_request net] ∧
     ∃ resp release,
       rt_result (round_trip net (release_request net)) = inr resp ∧
       StatusCode resp = 200 ∧
       dec_result (decode resp) = Some release ∧
       LatestVersion info = TagName release ∧
       ReleaseURL info = HTMLURL release ∧
       isNewer (TagName release) version = true).
Proof.
  unfold CheckForUpdate.
  destruct (String.eqb version "dev") eqn:Hdev; [by repeat split; auto|].
  apply String.eqb_neq in Hdev.
  unfold http_NewRequest.
  destruct (new_request_error net "GET" releases_latest);
    [by repeat split; auto|].
  cbn [is_empty]. fold (release_request net).
  unfold mbind, M_bind, client_Do, json_Decode, mret, M_ret.
  destruct (rt_result (round_trip net (release_request net)))
    as [err|resp] eqn:Hrt; [by repeat split; auto|].
  destruct (StatusCode resp =? StatusOK) eqn:Hst; cbn [negb];
    [|by repeat split; auto].
  apply Z.eqb_eq in Hst.
  destruct (dec_result (decode resp)) as [release|] eqn:Hdec;
    [|by repeat split; auto].
  cbn. repeat split; auto; [done|].
  by exists resp, release.
Qed.

(** X25: [CheckForUpdate] reports no update when the tag of the latest
    release reads as the running version, for instance the same
    numbers with a [v] in front. *)
Theorem CheckForUpdate_same_version net decode version w :
  (∀ resp release, dec_result (decode resp) = Some release →
     parse (TagName release) = parse version) →
  UpdateAvailable (CheckForUpdate net decode version w).1 = false.
Proof.
  intros Hsame. unfold CheckForUpdate.
  destruct (String.eqb version "dev"); [done|].
  destruct (http_NewRequest _ _ _ _); [done|].
  unfold mbind, M_bind, client_Do, json_Decode, mret, M_ret.
  destruct (rt_result _) as [err|resp]; [done|].
  destruct (negb _); [done|].
  destruct (dec_result (decode resp)) as [release|] eqn:Hdec; [|done].
  cbn. apply isNewer_same_parse. by apply (Hsame resp).
Qed.

Lemma CheckForUpdate_same_version_witness :
  UpdateAvailable
    (CheckForUpdate (release_net 200) (release_decode "v1.2.3") "1.2.3"
       (mkWorld 0 [])).1 = false.
Proof.
  apply (CheckForUpdate_same_version (release_net 200)
           (release_decode "v1.2.3") "1.2.3" (mkWorld 0 [])).
  intros resp release [= <-]. reflexivity.
Defined.

Example CheckForUpdate_newer :
  (CheckForUpdate (release_net 200) (release_decode "v1.10.0") "1.9.9"
     (mkWorld 0 [])).1
  = mkUpdateInfo "1.9.9" "v1.10.0" true "https://example.test/release".
Proof. reflexivity. Qed.

Example CheckForUpdate_not_found :
  (CheckForUpdate (release_net 404) (release_decode "v1.10.0") "1.9.9"
     (mkWorld 0 [])).1
  = mkUpdateInfo "1.9.9" EmptyString false EmptyString.
Proof. reflexivity. Qed.

End UpdateFacts.

(** ** From the editor to the network *)

Module RunFacts.
Import Str StrFacts Parser ParserSpec ParserFacts ParserMore Executor
  ExecutorSpec ExecutorFacts Run.

Lemma parsed_method_url lines bs b :
  parsed lines bs → b ∈ bs →
  method b ∈ HTTP_METHODS ∧ url b ≠ EmptyString.
Proof.
  intros Hbs Hb. pose proof (parsed_block_ok _ _ _ Hbs Hb) as Hok.
  destruct (buildBlock_fields _ _ Hok) as ((l & Hl & Hpm) & _ & _).
  destruct (ok_method _ _ Hok) as (l' & Hl' & Hm).
  rewrite Hl in Hl'. injection Hl' as <-.
  destruct (method_line_fields _ _ _ Hm Hpm) as [? Hu].
  split; [done|]. intros E. rewrite E in Hu. done.
Qed.

Lemma outgoing_header net method url body k :
  is_Some (req_header (outgoing net method url body) !! k) →
  k = canonicalMIMEHeaderKey net "Content-Type" ∧ body ≠ EmptyString.
Proof.
  unfold outgoing. destruct body as [|c body]; simpl.
  - rewrite lookup_empty. by intros [? ?].
  - intros [v Hv]. apply lookup_insert_Some in Hv as [[<- _]|[_ Hv]]; [done|].
    by rewrite lookup_empty in Hv.
Qed.

(** X26: running a block of a parse hands the client no request, when
    [http.NewRequest] refuses the URL, or one request.  This request
    has the method of the block, one of the seven verbs, the URL of
    the block, which is not empty, and the body of the block as
    payload when the body is not empty.  Its only header is the
    [Content-Type] that [Execute] sets for a body: the headers written
    in the document are not sent. *)
Theorem runRequest_request net text w :
  ∃ bs, parseHttpFile text = Some bs ∧
    ∀ b, b ∈ bs →
      let w' := (runRequest_Execute net b w).2 in
      (new_request_error net (method b) (url b) ≠ None ∧ sent w' = sent w)
      ∨ ∃ req,
          sent w' = sent w ++ [req] ∧
          req_method req = method b ∧ method b ∈ HTTP_METHODS ∧
          req_url req = url b ∧ url b ≠ EmptyString ∧
          req_body req
          = (if is_empty (body b) then None else Some (body b)) ∧
          ∀ k, is_Some (req_header req !! k) →
               k = canonicalMIMEHeaderKey net "Content-Type" ∧
               body b ≠ EmptyString.
Proof.
  destruct (parseHttpFile_parsed text) as (bs & Hp & Hbs).
  exists bs. split; [done|]. intros b Hb. cbn zeta.
  destruct (parsed_method_url _ _ _ Hbs Hb) as [Hm Hu].
  unfold runRequest_Execute.
  destruct (new_request_error net (method b) (url b)) as [err|] eqn:Hnew.
  - left. by rewrite (Execute_rejected _ _ _ _ _ _ Hnew).
  - right. exists (outgoing net (method b) (url b) (body b)).
    rewrite Execute_unfold by done. cbn zeta.
    assert (is_empty (method b) = false) as Hme.
    { unfold HTTP_METHODS in Hm. rewrite !elem_of_cons, elem_of_nil in Hm.
      destruct Hm as [->|[->|[->|[->|[->|[->|[->|[]]]]]]]]; reflexivity. }
    split; [by destruct (rt_result _)|].
    split; [by unfold outgoing; rewrite Hme; destruct (is_empty (body b))|].
    split; [done|].
    split; [by unfold outgoing; destruct (is_empty (body b))|].
    split; [done|].
    split; [by unfold outgoing; destruct (is_empty (body b))|].
    apply outgoing_header.
Qed.

End RunFacts.
